(** * Measurement control: state machine, controller, run manager, contact retraction

    A shallow embedding of the measurement orchestration core of the backend
    ([app/core/state_machine.py], [app/services/controller.py],
    [app/services/measurement_manager.py], [app/hardware/base.py] and
    [app/hardware/suruga_seiki.py]) and the properties its design document
    states about it.

    Python values are modelled as follows: [int] as [Z], [float] as the
    primitive binary64 floats, [str] as [string], [None]-able fields as
    [option], [dict] objects as entries of an object store addressed by
    location (so that aliasing and in-place updates are visible), the system
    clock as an oracle that is read through a counter. *)

From Stdlib Require Import ZArith Bool Lia Ascii.
From Stdlib Require Import Floats.
From stdpp Require Import gmap strings list pretty.

#[local] Set Warnings "-inexact-float".

Local Open Scope Z_scope.
Local Open Scope string_scope.

(* ===================================================================== *)
(** ** app/core/types.py: results and the status enumeration             *)
(* ===================================================================== *)

(** [Result = Ok[T] | Err]: [Ok] carries a value, [Err] an error string. *)
Inductive Result (T : Type) : Type :=
| Ok (value : T)
| Err (error : string).
Arguments Ok {T} value.
Arguments Err {T} error.


Definition is_err {T} (r : Result T) : bool :=
  match r with Ok _ => false | Err _ => true end.

(** Modelled from the spec: the enumeration [MeasurementStatus] that
    [state_machine.py] imports.  The [types.py] of the tree is a temporary
    simplification (its header says so) in which the seven-member [str]
    enumeration is declared under the name [MeasurementState]; the members
    below are the seven that [state_machine.py] refers to and that the design
    document lists for [status]. *)
Inductive MeasurementStatus : Type :=
| IDLE | CALIBRATING | RUNNING | PAUSED | COMPLETED | FAILED | CANCELLED.

#[global] Instance MeasurementStatus_eq_dec : EqDecision MeasurementStatus.
Proof. solve_decision. Defined.

(** The text an f-string shows for a member of a [str]-mixin enumeration: its
    value, as declared for the members in [types.py]. *)
Definition status_str (st : MeasurementStatus) : string :=
  match st with
  | IDLE => "idle"
  | CALIBRATING => "calibrating"
  | RUNNING => "running"
  | PAUSED => "paused"
  | COMPLETED => "completed"
  | FAILED => "failed"
  | CANCELLED => "cancelled"
  end.

(* ===================================================================== *)
(** ** The object store and the clock                                    *)
(* ===================================================================== *)

(** A location names a [dict] object.  [power_readings] is a dict of dicts:
    the outer objects map a device index to the location of an inner object,
    the inner objects map a stage name to a power value. *)
Abbreviation loc := nat (only parsing).

Record World : Type := mkWorld {
  device_dicts : list (gmap Z loc);
  stage_dicts : list (gmap string float);
  clock : nat -> float;      (* what the n-th call of datetime.now().timestamp() returns *)
  clock_reads : nat          (* how many times the clock has been read *)
}.

(** How a piece of Python code ends: it returns a value, it raises an
    exception (of class [Exception], carrying [str(e)]), or it stays suspended
    at an [await] that is never released. *)
Inductive Outcome (A : Type) : Type :=
| Returns (a : A)
| Raises (exc : string)
| Blocks.
Arguments Returns {A} a.
Arguments Raises {A} exc.
Arguments Blocks {A}.

(** Code that runs on a state of type [S]. *)
Definition St (S A : Type) : Type := S -> Outcome A * S.

Definition ret {S A} (a : A) : St S A := fun w => (Returns a, w).

Definition raise {S A} (exc : string) : St S A := fun w => (Raises exc, w).

Definition bind {S A B} (m : St S A) (k : A -> St S B) : St S B :=
  fun w =>
    match m w with
    | (Returns a, w') => k a w'
    | (Raises exc, w') => (Raises exc, w')
    | (Blocks, w') => (Blocks, w')
    end.

Notation "'let!' x := m 'in' k" := (bind m (fun x => k))
  (at level 10, x name, m at level 100, k at level 200, only parsing).
Notation "'do!' m 'in' k" := (bind m (fun _ => k))
  (at level 10, m at level 100, k at level 200, only parsing).

(** Code that allocates or updates dict objects and reads the clock. *)
Abbreviation M := (St World).

(** [datetime.now().timestamp()] *)
Definition now : M float :=
  fun w => (Returns (clock w (clock_reads w)),
            mkWorld (device_dicts w) (stage_dicts w) (clock w) (S (clock_reads w))).

(** A new outer dict object with the given content ([{}] or [dict(d)]). *)
Definition new_device_dict (content : gmap Z loc) : M loc :=
  fun w => (Returns (length (device_dicts w)),
            mkWorld (device_dicts w ++ [content]) (stage_dicts w)
                    (clock w) (clock_reads w)).

(** A new inner dict object with the given content ([{}] or a dict display). *)
Definition new_stage_dict (content : gmap string float) : M loc :=
  fun w => (Returns (length (stage_dicts w)),
            mkWorld (device_dicts w) (stage_dicts w ++ [content])
                    (clock w) (clock_reads w)).

(** The content of the dict object at a location. *)
Definition device_dict_at (w : World) (l : loc) : gmap Z loc :=
  default ∅ (device_dicts w !! l).

Definition stage_dict_at (w : World) (l : loc) : gmap string float :=
  default ∅ (stage_dicts w !! l).

Definition read_device_dict (l : loc) : M (gmap Z loc) :=
  fun w => (Returns (device_dict_at w l), w).

Definition read_stage_dict (l : loc) : M (gmap string float) :=
  fun w => (Returns (stage_dict_at w l), w).

(** [key in d] on the outer dict object at [l]. *)
Definition device_dict_contains (l : loc) (key : Z) : M bool :=
  fun w => (Returns (bool_decide (is_Some (device_dict_at w l !! key))), w).

(** [d[key]] on the outer dict object at [l]: [KeyError] when absent. *)
Definition device_dict_getitem (l : loc) (key : Z) : M loc :=
  fun w => match device_dict_at w l !! key with
           | Some v => (Returns v, w)
           | None => (Raises (pretty key), w)
           end.

(** [d[key] = value] on the outer dict object at [l]: an in-place update. *)
Definition device_dict_setitem (l : loc) (key : Z) (value : loc) : M unit :=
  fun w => (Returns tt,
            mkWorld (<[l := <[key := value]> (device_dict_at w l)]> (device_dicts w))
                    (stage_dicts w) (clock w) (clock_reads w)).

(* ===================================================================== *)
(** ** app/core/state_machine.py: the measurement state                  *)
(* ===================================================================== *)

(** The frozen dataclass [MeasurementState].  The record is given for any
    representation [R] of the field [power_readings]: in a state object the
    field holds a reference to a dict object; in the value of a state (what
    [==] compares) it is the content of the dict of dicts. *)
Record MeasurementStateOf (R : Type) : Type := mkState {
  status : MeasurementStatus;
  order_id : option string;
  current_device_index : Z;
  total_devices : Z;
  current_operation : option string;
  power_readings : R;
  calibrated_setup_id : option Z;
  left_stage_angle : option float;
  right_stage_angle : option float;
  error : option string;
  started_at : option float;
  completed_at : option float;
  timestamp : float
}.
Arguments mkState {R}.
Arguments status {R} _.
Arguments order_id {R} _.
Arguments current_device_index {R} _.
Arguments total_devices {R} _.
Arguments current_operation {R} _.
Arguments power_readings {R} _.
Arguments calibrated_setup_id {R} _.
Arguments left_stage_angle {R} _.
Arguments right_stage_angle {R} _.
Arguments error {R} _.
Arguments started_at {R} _.
Arguments completed_at {R} _.
Arguments timestamp {R} _.

Abbreviation MeasurementState := (MeasurementStateOf loc).
Abbreviation MeasurementValue :=
  (MeasurementStateOf (gmap Z (gmap string float))).

(** [dataclasses.replace(state, field=value)], one function per field. *)
Definition replace_status {R} v (s : MeasurementStateOf R)
  : MeasurementStateOf R :=
  mkState v (order_id s) (current_device_index s) (total_devices s)
    (current_operation s) (power_readings s) (calibrated_setup_id s)
    (left_stage_angle s) (right_stage_angle s) (error s) (started_at s)
    (completed_at s) (timestamp s).
Definition replace_order_id {R} v (s : MeasurementStateOf R)
  : MeasurementStateOf R :=
  mkState (status s) v (current_device_index s) (total_devices s)
    (current_operation s) (power_readings s) (calibrated_setup_id s)
    (left_stage_angle s) (right_stage_angle s) (error s) (started_at s)
    (completed_at s) (timestamp s).
Definition replace_current_device_index {R} v (s : MeasurementStateOf R)
  : MeasurementStateOf R :=
  mkState (status s) (order_id s) v (total_devices s) (current_operation s)
    (power_readings s) (calibrated_setup_id s) (left_stage_angle s)
    (right_stage_angle s) (error s) (started_at s) (completed_at s)
    (timestamp s).
Definition replace_total_devices {R} v (s : MeasurementStateOf R)
  : MeasurementStateOf R :=
  mkState (status s) (order_id s) (current_device_index s) v
    (current_operation s) (power_readings s) (calibrated_setup_id s)
    (left_stage_angle s) (right_stage_angle s) (error s) (started_at s)
    (completed_at s) (timestamp s).
Definition replace_current_operation {R} v (s : MeasurementStateOf R)
  : MeasurementStateOf R :=
  mkState (status s) (order_id s) (current_device_index s) (total_devices s) v
    (power_readings s) (calibrated_setup_id s) (left_stage_angle s)
    (right_stage_angle s) (error s) (started_at s) (completed_at s)
    (timestamp s).
Definition replace_power_readings {R R'} (v : R') (s : MeasurementStateOf R)
  : MeasurementStateOf R' :=
  mkState (status s) (order_id s) (current_device_index s) (total_devices s)
    (current_operation s) v (calibrated_setup_id s) (left_stage_angle s)
    (right_stage_angle s) (error s) (started_at s) (completed_at s)
    (timestamp s).
Definition replace_calibrated_setup_id {R} v (s : MeasurementStateOf R)
  : MeasurementStateOf R :=
  mkState (status s) (order_id s) (current_device_index s) (total_devices s)
    (current_operation s) (power_readings s) v (left_stage_angle s)
    (right_stage_angle s) (error s) (started_at s) (completed_at s)
    (timestamp s).
Definition replace_left_stage_angle {R} v (s : MeasurementStateOf R)
  : MeasurementStateOf R :=
  mkState (status s) (order_id s) (current_device_index s) (total_devices s)
    (current_operation s) (power_readings s) (calibrated_setup_id s) v
    (right_stage_angle s) (error s) (started_at s) (completed_at s)
    (timestamp s).
Definition replace_right_stage_angle {R} v (s : MeasurementStateOf R)
  : MeasurementStateOf R :=
  mkState (status s) (order_id s) (current_device_index s) (total_devices s)
    (current_operation s) (power_readings s) (calibrated_setup_id s)
    (left_stage_angle s) v (error s) (started_at s) (completed_at s)
    (timestamp s).
Definition replace_error {R} v (s : MeasurementStateOf R)
  : MeasurementStateOf R :=
  mkState (status s) (order_id s) (current_device_index s) (total_devices s)
    (current_operation s) (power_readings s) (calibrated_setup_id s)
    (left_stage_angle s) (right_stage_angle s) v (started_at s) (completed_at
    s) (timestamp s).
Definition replace_started_at {R} v (s : MeasurementStateOf R)
  : MeasurementStateOf R :=
  mkState (status s) (order_id s) (current_device_index s) (total_devices s)
    (current_operation s) (power_readings s) (calibrated_setup_id s)
    (left_stage_angle s) (right_stage_angle s) (error s) v (completed_at s)
    (timestamp s).
Definition replace_completed_at {R} v (s : MeasurementStateOf R)
  : MeasurementStateOf R :=
  mkState (status s) (order_id s) (current_device_index s) (total_devices s)
    (current_operation s) (power_readings s) (calibrated_setup_id s)
    (left_stage_angle s) (right_stage_angle s) (error s) (started_at s) v
    (timestamp s).
Definition replace_timestamp {R} v (s : MeasurementStateOf R)
  : MeasurementStateOf R :=
  mkState (status s) (order_id s) (current_device_index s) (total_devices s)
    (current_operation s) (power_readings s) (calibrated_setup_id s)
    (left_stage_angle s) (right_stage_angle s) (error s) (started_at s)
    (completed_at s) v.

(** The dict of dicts a state refers to, by value: what [==] on two states
    compares for the field [power_readings]. *)
Definition readings_at (w : World) (l : loc) : gmap Z (gmap string float) :=
  stage_dict_at w <$> device_dict_at w l.

Definition readings (w : World) (s : MeasurementState) : gmap Z (gmap string float) :=
  readings_at w (power_readings s).

(** The value of a state object: its fields, with the content of the dict of
    dicts in place of the reference. *)
Definition value_of (w : World) (s : MeasurementState) : MeasurementValue :=
  replace_power_readings (readings w s) s.

(** Truth value of a dict: it is non-empty. *)
Definition dict_truthy {K} `{Countable K} {V} (d : gmap K V) : bool :=
  negb (size d =? 0)%nat.

(** [len([p for p in self.power_readings.values() if p])] *)
Definition successful_devices (w : World) (s : MeasurementState) : Z :=
  Z.of_nat (length (filter (fun p => dict_truthy p = true)
                           (snd <$> map_to_list (readings w s)))).

Definition is_running {R} (s : MeasurementStateOf R) : bool :=
  bool_decide (status s = RUNNING).

Definition is_paused {R} (s : MeasurementStateOf R) : bool :=
  bool_decide (status s = PAUSED).

Definition is_active {R} (s : MeasurementStateOf R) : bool :=
  bool_decide (status s = RUNNING) || bool_decide (status s = PAUSED).

Definition is_terminal {R} (s : MeasurementStateOf R) : bool :=
  bool_decide (status s = COMPLETED) || bool_decide (status s = FAILED)
  || bool_decide (status s = CANCELLED).

(** Truth value of a float: anything but zero (a NaN is true). *)
Definition float_truthy (x : float) : bool := negb (PrimFloat.eqb x 0%float).

(** [duration_seconds]: [None] before the start, else
    [(self.completed_at or now) - self.started_at]. *)
Definition duration_seconds (s : MeasurementState) : M (option float) :=
  match started_at s with
  | None => ret None
  | Some t0 =>
      let! end_time := (match completed_at s with
                        | Some c => if float_truthy c then ret c else now
                        | None => now
                        end) in
      ret (Some (PrimFloat.sub end_time t0))
  end.

(* ===================================================================== *)
(** ** app/core/state_machine.py: events and the transition function     *)
(* ===================================================================== *)

(** The event classes.  [OtherEvent] stands for an instance of any other
    class (a further subclass of [MeasurementEvent], or the base class
    itself); it carries [type(event).__name__]. *)
Inductive MeasurementEvent : Type :=
| StartMeasurement (order_id : string) (total_devices : Z)
| CompleteCalibration (calibrated_setup_id : Z)
| CompleteChipAngleCalibration (left_stage_angle right_stage_angle : float)
| StartDevice (device_index : Z)
| UpdateOperation (operation : string)
| RecordPower (device_index : Z) (stage : string) (power_dbm : float)
| CompleteDevice
| PauseMeasurement
| ResumeMeasurement
| CancelMeasurement
| CompleteMeasurement
| FailMeasurement (error : string)
| OtherEvent (type_name : string).

(** [MeasurementStateMachine.initial_state()] *)
Definition initial_state : M MeasurementState :=
  let! fresh := new_device_dict ∅ in
  let! t := now in
  ret (mkState IDLE None 0 0 None fresh None None None None None None t).

(** The rejection message [f"Cannot {what} from {state.status} state"]. *)
Definition cannot (what : string) (state : MeasurementState) : string :=
  "Cannot " +:+ what +:+ " from " +:+ status_str (status state) +:+ " state".

(** [MeasurementStateMachine.transition(state, event)] *)
Definition transition (state : MeasurementState) (event : MeasurementEvent)
  : M (Result MeasurementState) :=
  match event with
  | StartMeasurement oid total =>
      if negb (bool_decide (status state = IDLE)) then
        ret (Err (cannot "start measurement" state))
      else
        let! fresh := new_device_dict ∅ in
        let! t_started := now in
        let! t := now in
        ret (Ok (replace_timestamp t
                (replace_started_at (Some t_started)
                (replace_error None
                (replace_power_readings fresh
                (replace_current_device_index 0
                (replace_total_devices total
                (replace_order_id (Some oid)
                (replace_status CALIBRATING state)))))))))
  | CompleteCalibration setup_id =>
      if negb (bool_decide (status state = CALIBRATING)) then
        ret (Err (cannot "complete calibration" state))
      else
        let! t := now in
        ret (Ok (replace_timestamp t
                (replace_calibrated_setup_id (Some setup_id) state)))
  | CompleteChipAngleCalibration left_angle right_angle =>
      if negb (bool_decide (status state = CALIBRATING)) then
        ret (Err (cannot "complete chip angle calibration" state))
      else
        let! t := now in
        ret (Ok (replace_timestamp t
                (replace_right_stage_angle (Some right_angle)
                (replace_left_stage_angle (Some left_angle)
                (replace_status RUNNING state)))))
  | StartDevice dev =>
      if negb (bool_decide (status state = RUNNING)
               || bool_decide (status state = CALIBRATING)) then
        ret (Err (cannot "start device" state))
      else
        let! t := now in
        let new_state :=
          replace_timestamp t (replace_current_device_index dev state) in
        (* Transition to RUNNING if still in CALIBRATING *)
        let new_state :=
          if bool_decide (status state = CALIBRATING)
          then replace_status RUNNING new_state else new_state in
        ret (Ok new_state)
  | UpdateOperation op =>
      if negb (bool_decide (status state = RUNNING)
               || bool_decide (status state = CALIBRATING)) then
        ret (Err (cannot "update operation" state))
      else
        let! t := now in
        ret (Ok (replace_timestamp t
                (replace_current_operation (Some op) state)))
  | RecordPower dev stage power =>
      (* Can record power from any active state *)
      if negb (is_active state) then
        ret (Err (cannot "record power" state))
      else
        (* Create new power_readings dict with updated value *)
        let! old_content := read_device_dict (power_readings state) in
        let! new_power_readings := new_device_dict old_content in
        let! present := device_dict_contains new_power_readings dev in
        do! (if negb present then
               let! empty := new_stage_dict ∅ in
               device_dict_setitem new_power_readings dev empty
             else ret tt) in
        let! current := device_dict_getitem new_power_readings dev in
        let! stages := read_stage_dict current in
        let! merged := new_stage_dict (<[stage := power]> stages) in
        do! device_dict_setitem new_power_readings dev merged in
        let! t := now in
        ret (Ok (replace_timestamp t
                (replace_power_readings new_power_readings state)))
  | CompleteDevice =>
      if negb (bool_decide (status state = RUNNING)) then
        ret (Err (cannot "complete device" state))
      else
        let! t := now in
        ret (Ok (replace_timestamp t state))
  | PauseMeasurement =>
      if negb (bool_decide (status state = RUNNING)) then
        ret (Err (cannot "pause" state))
      else
        let! t := now in
        ret (Ok (replace_timestamp t
                (replace_current_operation None
                (replace_status PAUSED state))))
  | ResumeMeasurement =>
      if negb (bool_decide (status state = PAUSED)) then
        ret (Err (cannot "resume" state))
      else
        let! t := now in
        ret (Ok (replace_timestamp t (replace_status RUNNING state)))
  | CancelMeasurement =>
      if negb (is_active state) then
        ret (Err (cannot "cancel" state))
      else
        let! t_completed := now in
        let! t := now in
        ret (Ok (replace_timestamp t
                (replace_completed_at (Some t_completed)
                (replace_current_operation None
                (replace_status CANCELLED state)))))
  | CompleteMeasurement =>
      if negb (bool_decide (status state = RUNNING)) then
        ret (Err (cannot "complete" state))
      else
        let! t_completed := now in
        let! t := now in
        ret (Ok (replace_timestamp t
                (replace_completed_at (Some t_completed)
                (replace_current_operation None
                (replace_status COMPLETED state)))))
  | FailMeasurement err =>
      if is_terminal state then
        ret (Err ("Cannot fail from terminal " +:+ status_str (status state)
                  +:+ " state"))
      else
        let! t_completed := now in
        let! t := now in
        ret (Ok (replace_timestamp t
                (replace_completed_at (Some t_completed)
                (replace_current_operation None
                (replace_error (Some err)
                (replace_status FAILED state))))))
  | OtherEvent type_name =>
      ret (Err ("Unknown event type: " +:+ type_name))
  end.

(* ===================================================================== *)
(** ** app/hardware/base.py: the connection lifecycle of a client        *)
(* ===================================================================== *)

(** [s.rstrip("/")] *)
Fixpoint rstrip_slash (s : string) : string :=
  match s with
  | EmptyString => EmptyString
  | String c rest =>
      match rstrip_slash rest with
      | EmptyString => if Ascii.eqb c "/"%char then EmptyString
                       else String c EmptyString
      | r => String c r
      end
  end.

(** The fields of [BaseHardwareClient]; [_client] records whether the HTTP
    client object is there ([is not None]). *)
Record BaseHardwareClient : Type := mkClient {
  base_url : string;
  timeout : float;
  _client : bool;
  _connected : bool
}.

(** [BaseHardwareClient.__init__(base_url, timeout)] *)
Definition new_client (url : string) (tmo : float) : BaseHardwareClient :=
  mkClient (rstrip_slash url) tmo false false.

(** What the health check [GET /health] of [connect] meets. *)
Inductive HealthCheck : Type :=
| HealthStatus (status_code : Z)          (* a response with this status *)
| HealthConnectError (msg : string)       (* httpx.ConnectError *)
| HealthOtherError (msg : string).        (* any other Exception *)

(** [connect()]: every failure is turned into an [Err]; nothing is raised. *)
Definition connect (health : HealthCheck) (c : BaseHardwareClient)
  : Result unit * BaseHardwareClient :=
  let c1 := mkClient (base_url c) (timeout c) true (_connected c) in
  match health with
  | HealthStatus code =>
      if (code =? 200)%Z then
        (Ok tt, mkClient (base_url c) (timeout c) true true)
      else
        (Err ("Health check failed with status " +:+ pretty code), c1)
  | HealthConnectError msg =>
      (Err ("Failed to connect to " +:+ base_url c +:+ ": " +:+ msg), c1)
  | HealthOtherError msg =>
      (Err ("Connection error: " +:+ msg), c1)
  end.

(** [__aenter__]: awaits [connect()], drops its result and returns [self]. *)
Definition aenter (health : HealthCheck) (c : BaseHardwareClient)
  : BaseHardwareClient :=
  snd (connect health c).

(** [disconnect()]: [aclose_error] is [Some msg] when closing the HTTP client
    raises.  The call of [aclose] is not guarded, so the exception leaves
    [disconnect] before the fields are reset. *)
Definition disconnect (aclose_error : option string) (c : BaseHardwareClient)
  : Outcome unit * BaseHardwareClient :=
  if _client c then
    match aclose_error with
    | Some msg => (Raises msg, c)
    | None => (Returns tt, mkClient (base_url c) (timeout c) false false)
    end
  else (Returns tt, mkClient (base_url c) (timeout c) (_client c) false).

(** [is_connected] *)
Definition is_connected (c : BaseHardwareClient) : bool :=
  _connected c && _client c.

(* ===================================================================== *)
(** ** app/hardware/suruga_seiki.py: contact-triggered retraction        *)
(* ===================================================================== *)

(** The calls [check_contact_and_retract] makes, in the order it makes them. *)
Inductive StationCall : Type :=
| GetAnalogInput (channel : Z)
| CancelIsSet
| MoveRelative (axis_number : Z) (distance_um speed_um_per_s : float)
| Sleep (seconds : float).

(** The probe station as the method sees it.  The first three fields are the
    environment: what [get_analog_input] returns when the Z axis has been
    moved [n] times, what the [n]-th call of [move_relative] returns, and what
    the [n]-th call of [cancel_event.is_set()] returns.  The other fields count
    and record the calls made. *)
Record Station : Type := mkStation {
  analog_input : nat -> Result float;
  move_result : nat -> Result unit;
  cancel_is_set : nat -> bool;
  moves : nat;
  cancel_checks : nat;
  calls : list StationCall
}.

Definition get_analog_input (channel : Z) : St Station (Result float) :=
  fun h => (Returns (analog_input h (moves h)),
            mkStation (analog_input h) (move_result h) (cancel_is_set h)
                      (moves h) (cancel_checks h)
                      (calls h ++ [GetAnalogInput channel])).

Definition move_relative (axis_number : Z) (distance_um speed_um_per_s : float)
  : St Station (Result unit) :=
  fun h => (Returns (move_result h (moves h)),
            mkStation (analog_input h) (move_result h) (cancel_is_set h)
                      (S (moves h)) (cancel_checks h)
                      (calls h ++ [MoveRelative axis_number distance_um speed_um_per_s])).

Definition cancel_event_is_set : St Station bool :=
  fun h => (Returns (cancel_is_set h (cancel_checks h)),
            mkStation (analog_input h) (move_result h) (cancel_is_set h)
                      (moves h) (S (cancel_checks h))
                      (calls h ++ [CancelIsSet])).

Definition sleep (seconds : float) : St Station unit :=
  fun h => (Returns tt,
            mkStation (analog_input h) (move_result h) (cancel_is_set h)
                      (moves h) (cancel_checks h)
                      (calls h ++ [Sleep seconds])).

(** The body of [for step in range(max_retract_steps)] and what follows the
    loop; [remaining] counts the iterations left, [step] is the loop variable. *)
Fixpoint retract_loop (contact_channel z_axis : Z)
    (threshold_voltage retract_step_um : float) (max_retract_steps : Z)
    (speed_um_per_s : float) (remaining : nat) (step : Z)
  : St Station (Result bool) :=
  match remaining with
  | O =>
      ret (Err ("Contact persisted after " +:+ pretty max_retract_steps
                +:+ " retraction steps"))
  | S remaining' =>
      let! cancelled := cancel_event_is_set in
      if cancelled then
        ret (Err "Operation cancelled during contact retraction")
      else
        let! retract_result :=
          move_relative z_axis (PrimFloat.opp retract_step_um) speed_um_per_s in
        match retract_result with
        | Err e =>
            ret (Err ("Failed to retract Z at step " +:+ pretty step
                      +:+ ": " +:+ e))
        | Ok _ =>
            do! sleep 0.1%float in
            (* Check if contact cleared *)
            let! voltage_result := get_analog_input contact_channel in
            match voltage_result with
            | Err e =>
                ret (Err ("Failed to read contact sensor after retraction: "
                          +:+ e))
            | Ok voltage =>
                if PrimFloat.leb voltage threshold_voltage then
                  ret (Ok true)  (* Contact cleared *)
                else
                  retract_loop contact_channel z_axis threshold_voltage
                    retract_step_um max_retract_steps speed_um_per_s
                    remaining' (step + 1)
            end
        end
  end.

(** [SurugaSeikiClient.check_contact_and_retract] *)
Definition check_contact_and_retract (contact_channel z_axis : Z)
    (threshold_voltage retract_step_um : float) (max_retract_steps : Z)
    (speed_um_per_s : float) : St Station (Result bool) :=
  let! voltage_result := get_analog_input contact_channel in
  match voltage_result with
  | Err e => ret (Err ("Failed to read contact sensor: " +:+ e))
  | Ok voltage =>
      if PrimFloat.ltb threshold_voltage voltage then
        (* Contact detected, retract Z *)
        retract_loop contact_channel z_axis threshold_voltage retract_step_um
          max_retract_steps speed_um_per_s (Z.to_nat max_retract_steps) 0
      else
        ret (Ok false)  (* No contact *)
  end.

(* ===================================================================== *)
(** ** app/services/controller.py: the measurement controller            *)
(* ===================================================================== *)

Module Controller.

(** Modelled from the spec: the progress event classes that [controller.py]
    imports from [app.core.types]; the [types.py] of the tree keeps only three
    simplified ones.  Each constructor carries the timestamp that
    [ProgressEvent.now] takes from the clock and the keyword arguments that
    [controller.py] passes; the discriminants of [event_type] are those of the
    design document. *)
Inductive ProgressEvent : Type :=
| MeasurementStarted (timestamp : float) (order_id : string) (total_devices : Z)
| DeviceStarted (timestamp : float) (device_index : Z) (device_name : string)
    (total_devices : Z)
| DeviceMoving (timestamp : float) (device_index : Z) (device_name : string)
| DeviceCompleted (timestamp : float) (device_index : Z) (device_name : string)
| DeviceSkipped (timestamp : float) (device_index : Z) (device_name : string)
    (reason : string)
| ErrorOccurred (timestamp : float) (error : string) (device_index : option Z)
    (operation : string)
| MeasurementPaused (timestamp : float) (device_index : Z)
| MeasurementResumed (timestamp : float) (device_index : Z)
| MeasurementCancelled (timestamp : float) (device_index : Z)
| MeasurementCompleted (timestamp : float)
    (total_devices successful_devices failed_devices : Z)
    (total_duration_seconds : float)
| MeasurementFailed (timestamp : float) (error : string)
    (device_index : option Z).

(** The kinds of progress events. *)
Inductive EventType : Type :=
| measurement_started | device_started | device_moving | device_completed
| device_skipped | error_occurred | measurement_paused | measurement_resumed
| measurement_cancelled | measurement_completed | measurement_failed.

#[global] Instance EventType_eq_dec : EqDecision EventType.
Proof. solve_decision. Defined.

Definition event_type (ev : ProgressEvent) : EventType :=
  match ev with
  | MeasurementStarted _ _ _ => measurement_started
  | DeviceStarted _ _ _ _ => device_started
  | DeviceMoving _ _ _ => device_moving
  | DeviceCompleted _ _ _ => device_completed
  | DeviceSkipped _ _ _ _ => device_skipped
  | ErrorOccurred _ _ _ _ => error_occurred
  | MeasurementPaused _ _ => measurement_paused
  | MeasurementResumed _ _ => measurement_resumed
  | MeasurementCancelled _ _ => measurement_cancelled
  | MeasurementCompleted _ _ _ _ _ => measurement_completed
  | MeasurementFailed _ _ _ => measurement_failed
  end.

(** A terminal progress event: completed, cancelled or failed. *)
Definition terminal (k : EventType) : bool :=
  match k with
  | measurement_completed | measurement_cancelled | measurement_failed => true
  | _ => false
  end.

(** Modelled from the spec: the value of
    [MeasurementOperation.MOVING_TO_DEVICE], an enumeration whose declaration
    is not in the tree.  The design document calls [current_operation] a
    free-text label; nothing below depends on the text. *)
Definition MOVING_TO_DEVICE : string := "moving_to_device".

Record DeviceInfo : Type := mkDevice {
  index : Z;
  name : string;
  devices_set_connector_id : Z;
  input_port_position_y_um : float;
  output_port_position_y_um : float
}.

Record MeasurementConfig : Type := mkConfig {
  order_id : string;
  devices : list DeviceInfo;
  suruga_base_url : string;
  exfo_base_url : string;
  power_threshold_db : float;
  devices_between_alignments : Z;
  perform_periodic_alignment : bool
}.

(** The attributes of a [MeasurementController].  The three [asyncio.Event]
    objects are their flags; [suruga] and [exfo] refer to client objects. *)
Record MeasurementController : Type := mkController {
  config : MeasurementConfig;
  state : MeasurementState;
  _pause_event : bool;
  _resume_event : bool;
  _cancel_event : bool;
  suruga : option loc;
  exfo : option loc;
  alignment_counter : Z;
  reference_power_left : option float;
  reference_power_right : option float
}.

(** [MeasurementController.__init__(config)] *)
Definition init (cfg : MeasurementConfig) : M MeasurementController :=
  let! s := initial_state in
  ret (mkController cfg s false false false None None 0 None None).

Definition set_state (s : MeasurementState) (c : MeasurementController) :=
  mkController (config c) s (_pause_event c) (_resume_event c)
    (_cancel_event c) (suruga c) (exfo c) (alignment_counter c)
    (reference_power_left c) (reference_power_right c).

Definition set_clients (su ex : option loc) (c : MeasurementController) :=
  mkController (config c) (state c) (_pause_event c) (_resume_event c)
    (_cancel_event c) su ex (alignment_counter c)
    (reference_power_left c) (reference_power_right c).

Definition set_alignment_counter (n : Z) (c : MeasurementController) :=
  mkController (config c) (state c) (_pause_event c) (_resume_event c)
    (_cancel_event c) (suruga c) (exfo c) n
    (reference_power_left c) (reference_power_right c).

(** The control methods: each sets one flag. *)
Definition pause (c : MeasurementController) : MeasurementController :=
  mkController (config c) (state c) true (_resume_event c)
    (_cancel_event c) (suruga c) (exfo c) (alignment_counter c)
    (reference_power_left c) (reference_power_right c).

Definition resume (c : MeasurementController) : MeasurementController :=
  mkController (config c) (state c) (_pause_event c) true
    (_cancel_event c) (suruga c) (exfo c) (alignment_counter c)
    (reference_power_left c) (reference_power_right c).

Definition cancel (c : MeasurementController) : MeasurementController :=
  mkController (config c) (state c) (_pause_event c) (_resume_event c)
    true (suruga c) (exfo c) (alignment_counter c)
    (reference_power_left c) (reference_power_right c).

(** [self._resume_event.clear()] *)
Definition clear_resume_event (c : MeasurementController) :=
  mkController (config c) (state c) (_pause_event c) false
    (_cancel_event c) (suruga c) (exfo c) (alignment_counter c)
    (reference_power_left c) (reference_power_right c).

(** [get_state()] *)
Definition get_state (c : MeasurementController) : MeasurementState := state c.

(** A control call made by another task. *)
Inductive Signal : Type := SigPause | SigResume | SigCancel.

Definition deliver (c : MeasurementController) (sig : Signal) :=
  match sig with
  | SigPause => pause c
  | SigResume => resume c
  | SigCancel => cancel c
  end.

Definition deliver_all (batch : list Signal) (c : MeasurementController) :=
  fold_left deliver batch c.

(** What the two hardware services do during a run: what each health check
    meets and whether closing each HTTP client raises. *)
Record Services : Type := mkServices {
  suruga_health : HealthCheck;
  exfo_health : HealthCheck;
  suruga_aclose_error : option string;
  exfo_aclose_error : option string
}.

(** The execution of [run()] on a controller.  [incoming] is what the other
    tasks will do: the control calls made while the generator is suspended,
    one batch per suspension.  [yielded] is what the consumer has received:
    each event with the snapshot [get_state()] gives while the generator is
    suspended at that [yield].  [applied] records the events handed to the
    state machine. *)
Record Run : Type := mkRun {
  world : World;
  clients : list BaseHardwareClient;
  self : MeasurementController;
  incoming : list (list Signal);
  yielded : list (ProgressEvent * MeasurementState);
  applied : list MeasurementEvent
}.

Definition events (r : Run) : list ProgressEvent := map fst (yielded r).

Definition in_world {A} (m : M A) : St Run A :=
  fun r =>
    let (o, w) := m (world r) in
    (o, mkRun w (clients r) (self r) (incoming r) (yielded r) (applied r)).

Definition get_self : St Run MeasurementController :=
  fun r => (Returns (self r), r).

Definition update_self (f : MeasurementController -> MeasurementController)
  : St Run unit :=
  fun r => (Returns tt,
            mkRun (world r) (clients r) (f (self r)) (incoming r) (yielded r)
                  (applied r)).

(** [yield ev]: the consumer receives the event; until the generator is
    resumed the other tasks run and make their next batch of control calls. *)
Definition yield_ (ev : ProgressEvent) : St Run unit :=
  fun r =>
    let seen := (yielded r ++ [(ev, get_state (self r))])%list in
    match incoming r with
    | [] =>
        (Returns tt, mkRun (world r) (clients r) (self r) [] seen (applied r))
    | batch :: rest =>
        (Returns tt, mkRun (world r) (clients r) (deliver_all batch (self r))
                           rest seen (applied r))
    end.

(** [yield Event.now(...)]: the timestamp is read, then the event is yielded. *)
Definition emit (make : float -> ProgressEvent) : St Run unit :=
  let! t := in_world now in
  yield_ (make t).

(** A task suspended in [Event.wait()] on a flag that is not set: batches of
    control calls go by until one has set the flag. *)
Fixpoint wait_resume (c : MeasurementController) (batches : list (list Signal))
  : bool * MeasurementController * list (list Signal) :=
  match batches with
  | [] => (false, c, [])
  | batch :: rest =>
      let c' := deliver_all batch c in
      if _resume_event c' then (true, c', rest) else wait_resume c' rest
  end.

(** [await self._resume_event.wait()]: returns at once when the flag is set,
    and is never released when no later control call sets it. *)
Definition await_resume_event : St Run unit :=
  fun r =>
    if _resume_event (self r) then (Returns tt, r)
    else
      match wait_resume (self r) (incoming r) with
      | (released, c, rest) =>
          (if released then Returns tt else Blocks,
           mkRun (world r) (clients r) c rest (yielded r) (applied r))
      end.

(** [self.state_machine.transition(self.state, event)] *)
Definition apply_transition (event : MeasurementEvent)
  : St Run (Result MeasurementState) :=
  fun r =>
    let (o, w) := transition (state (self r)) event (world r) in
    (o, mkRun w (clients r) (self r) (incoming r) (yielded r)
              (applied r ++ [event])).

(** [len(self.config.devices)] *)
Definition device_count (c : MeasurementController) : Z :=
  Z.of_nat (length (devices (config c))).

(** [_process_device(device)] *)
Definition _process_device (device : DeviceInfo) : St Run unit :=
  (* Start device *)
  let! c := get_self in
  do! emit (fun t => DeviceStarted t (index device) (name device)
                       (device_count c)) in
  let! result := apply_transition (StartDevice (index device)) in
  match result with
  | Err e =>
      do! emit (fun t => ErrorOccurred t e (Some (index device))
                           "start_device") in
      emit (fun t => DeviceSkipped t (index device) (name device) e)
  | Ok new_state =>
      do! update_self (set_state new_state) in
      (* Move to device position *)
      do! emit (fun t => DeviceMoving t (index device) (name device)) in
      let! result := apply_transition (UpdateOperation MOVING_TO_DEVICE) in
      do! (match result with
           | Ok new_state => update_self (set_state new_state)
           | Err _ => ret tt
           end) in
      (* Complete device *)
      let! result := apply_transition CompleteDevice in
      do! (match result with
           | Ok new_state => update_self (set_state new_state)
           | Err _ => ret tt
           end) in
      do! emit (fun t => DeviceCompleted t (index device) (name device)) in
      update_self (fun c => set_alignment_counter (alignment_counter c + 1) c)
  end.

(** How the loop over the devices is left: by [return] after the
    cancellation event, or by exhausting the devices. *)
Inductive LoopExit : Type := Returned | Exhausted.

(** [for device in self.config.devices: ...] *)
Fixpoint process_devices (remaining : list DeviceInfo) : St Run LoopExit :=
  match remaining with
  | [] => ret Exhausted
  | device :: rest =>
      let! c := get_self in
      (* Check cancellation *)
      if _cancel_event c then
        do! emit (fun t => MeasurementCancelled t (index device)) in
        ret Returned
      else
        (* Check pause *)
        do! (if _pause_event c then
               do! emit (fun t => MeasurementPaused t (index device)) in
               (* Wait for resume *)
               do! await_resume_event in
               do! update_self clear_resume_event in
               emit (fun t => MeasurementResumed t (index device))
             else ret tt) in
        (* Process device *)
        do! _process_device device in
        process_devices rest
  end.

(** [try: body except Exception as e: handler(str(e))] *)
Definition try_except {S A} (body : St S A) (handler : string -> St S A)
  : St S A :=
  fun s =>
    match body s with
    | (Raises exc, s') => handler exc s'
    | other => other
    end.

(** The exit half of [async with]: [exit] runs when the body returns and
    when it raises.  [__aexit__] returns [None], so an exception of the body
    goes on after it, unless [exit] raises one of its own. *)
Definition finally_exit {S A} (exit : St S unit) (body : St S A) : St S A :=
  fun s =>
    match body s with
    | (Returns a, s') =>
        match exit s' with
        | (Returns _, s'') => (Returns a, s'')
        | (Raises exc, s'') => (Raises exc, s'')
        | (Blocks, s'') => (Blocks, s'')
        end
    | (Raises exc, s') =>
        match exit s' with
        | (Returns _, s'') => (Raises exc, s'')
        | (Raises exc', s'') => (Raises exc', s'')
        | (Blocks, s'') => (Blocks, s'')
        end
    | (Blocks, s') => (Blocks, s')
    end.

(** The client constructors: a new client object. *)
Definition create_client (url : string) : St Run loc :=
  fun r => (Returns (length (clients r)),
            mkRun (world r) (clients r ++ [new_client url 300%float])
                  (self r) (incoming r) (yielded r) (applied r)).

Definition client_aenter (health : HealthCheck) (l : loc) : St Run unit :=
  fun r => (Returns tt,
            mkRun (world r) (alter (aenter health) l (clients r))
                  (self r) (incoming r) (yielded r) (applied r)).

Definition client_aexit (aclose_error : option string) (l : loc)
  : St Run unit :=
  fun r =>
    match clients r !! l with
    | Some c =>
        let (o, c') := disconnect aclose_error c in
        (o, mkRun (world r) (<[l := c']> (clients r))
                  (self r) (incoming r) (yielded r) (applied r))
    | None => (Returns tt, r)
    end.

(** The final [MeasurementCompleted] event: the keyword arguments are
    evaluated (the duration reads the clock), then [now] stamps the event. *)
Definition emit_completed : St Run unit :=
  let! c := get_self in
  let! r := (fun r => (Returns r, r)) in
  let successful := successful_devices (world r) (state c) in
  let! duration := in_world (duration_seconds (state c)) in
  let total_duration :=
    match duration with
    | Some d => if float_truthy d then d else 0%float
    | None => 0%float
    end in
  emit (fun t => MeasurementCompleted t (device_count c) successful
                   (device_count c - successful) total_duration).

(** [run()] *)
Definition run (services : Services) : St Run unit :=
  try_except
    ((* Initialize hardware connections *)
     let! c := get_self in
     do! emit (fun t => MeasurementStarted t (order_id (config c))
                          (device_count c)) in
     let! su := create_client (suruga_base_url (config c)) in
     do! client_aenter (suruga_health services) su in
     finally_exit (client_aexit (suruga_aclose_error services) su)
       (let! ex := create_client (exfo_base_url (config c)) in
        do! client_aenter (exfo_health services) ex in
        finally_exit (client_aexit (exfo_aclose_error services) ex)
          (do! update_self (set_clients (Some su) (Some ex)) in
           (* Transition to CALIBRATING state *)
           let! result :=
             apply_transition
               (StartMeasurement (order_id (config c)) (device_count c)) in
           match result with
           | Err e => emit (fun t => MeasurementFailed t e None)
           | Ok new_state =>
               do! update_self (set_state new_state) in
               (* Process each device *)
               let! exit := process_devices (devices (config c)) in
               match exit with
               | Returned => ret tt
               | Exhausted => emit_completed   (* Complete measurement *)
               end
           end)))
    (fun exc => emit (fun t => MeasurementFailed t exc None)).

(** A run of [run()] on a controller, from its first step to its end. *)
Definition start_run (w : World) (c : MeasurementController)
    (signals : list (list Signal)) : Run :=
  mkRun w [] c signals [] [].

End Controller.

(* ===================================================================== *)
(** ** app/services/measurement_manager.py: the run manager              *)
(* ===================================================================== *)

Module Manager.

Import Controller.

(** An [asyncio.Task] running [_run_with_broadcasting()]: the controller
    object it drives, and what [done()] returns. *)
Record Task : Type := mkTask {
  drives : loc;
  done : bool
}.

(** The attributes of the [MeasurementManager] that [start] and the control
    methods use: references to the current controller object and task. *)
Record MeasurementManager : Type := mkManager {
  controller : option loc;
  task : option loc
}.

(** The process: the object store and the clock, the controller objects, the
    tasks of the event loop, and the manager. *)
Record System : Type := mkSystem {
  world : World;
  controllers : list MeasurementController;
  tasks : list Task;
  manager : MeasurementManager
}.

(** [MeasurementManager.__init__()] in a process that has run nothing yet. *)
Definition boot (w : World) : System :=
  mkSystem w [] [] (mkManager None None).

(** [self.task.done()]; a reference always names a task of the event loop. *)
Definition task_done (sys : System) (t : loc) : bool :=
  match tasks sys !! t with
  | Some tk => done tk
  | None => true
  end.

(** [is_active()] *)
Definition is_active (sys : System) : bool :=
  match controller (manager sys) with
  | None => false
  | Some _ =>
      match task (manager sys) with
      | None => false
      | Some t => negb (task_done sys t)
      end
  end.

(** [start(config)] *)
Definition start (cfg : MeasurementConfig) : St System unit :=
  fun sys =>
    if is_active sys then
      (Raises "A measurement is already running", sys)
    else
      match Controller.init cfg (world sys) with
      | (Returns c, w) =>
          let cl := length (controllers sys) in
          let tl := length (tasks sys) in
          (Returns tt,
           mkSystem w (controllers sys ++ [c])
                    (tasks sys ++ [mkTask cl false])
                    (mkManager (Some cl) (Some tl)))
      | (Raises exc, w) =>
          (Raises exc, mkSystem w (controllers sys) (tasks sys) (manager sys))
      | (Blocks, w) =>
          (Blocks, mkSystem w (controllers sys) (tasks sys) (manager sys))
      end.

(** [pause()], [resume()] and the signalling half of [cancel()]: the call goes
    to the current controller, if there is one. *)
Definition signal (sig : Signal) (sys : System) : System :=
  match controller (manager sys) with
  | Some cl =>
      mkSystem (world sys)
               (alter (fun c => deliver c sig) cl (controllers sys))
               (tasks sys) (manager sys)
  | None => sys
  end.

(** What can happen in the process: a call of the control surface, a step of
    a task that has not finished (the run it drives updates its controller
    object, the object store and the clock), or the end of such a task. *)
Inductive Action : Type :=
| CallStart (cfg : MeasurementConfig)
| CallSignal (sig : Signal)
| TaskSteps (t : loc) (c : MeasurementController) (w : World)
| TaskEnds (t : loc).

Definition act (sys : System) (a : Action) : System :=
  match a with
  | CallStart cfg => snd (start cfg sys)
  | CallSignal sig => signal sig sys
  | TaskSteps t c w =>
      match tasks sys !! t with
      | Some tk =>
          if done tk then sys
          else mkSystem w (<[drives tk := c]> (controllers sys)) (tasks sys)
                        (manager sys)
      | None => sys
      end
  | TaskEnds t =>
      match tasks sys !! t with
      | Some tk =>
          mkSystem (world sys) (controllers sys)
                   (<[t := mkTask (drives tk) true]> (tasks sys)) (manager sys)
      | None => sys
      end
  end.

Definition after (w : World) (history : list Action) : System :=
  fold_left act history (boot w).

(** The tasks that are running a controller: those not yet done. *)
Definition running (sys : System) : list Task :=
  filter (fun tk => done tk = false) (tasks sys).

End Manager.

Local Open Scope list_scope.

(* ===================================================================== *)
(** ** app/hardware/base.py: the request helpers                         *)
(* ===================================================================== *)

Module Http.

#[local] Set Warnings "-register-all".

(** A JSON value: what [response.json()] gives, and what goes into the body
    of a request. *)
Inductive Json : Type :=
| JNull
| JBool (b : bool)
| JInt (n : Z)
| JFloat (x : float)
| JStr (s : string)
| JList (items : list Json)
| JDict (items : gmap string Json).

Inductive Method : Type := GET | POST | DELETE.

(** A request: the method, the endpoint, and the query parameters or the
    JSON body given with it. *)
Record Request : Type := mkRequest {
  method : Method;
  endpoint : string;
  payload : option Json
}.

(** What a request meets in [_get], [_post] and [_delete]: a response that
    passes [raise_for_status()] and whose [json()] gives [body]; a response
    for which [raise_for_status()] raises [HTTPStatusError]; an
    [httpx.RequestError]; any other exception. *)
Inductive Reply : Type :=
| ReplyJson (body : Json)
| ReplyStatusError (status_code : Z) (text : string)
| ReplyRequestError (msg : string)
| ReplyOtherError (msg : string).

(** What a method does that can be seen from outside, in order. *)
Inductive Step : Type :=
| Sent (r : Request)
| CancelChecked
| Slept (seconds : float).

(** The surroundings of a client.  The first two fields are the environment:
    what the [n]-th request meets, and what the [n]-th call of
    [cancel_event.is_set()] returns.  The others count and record what was
    done. *)
Record Bench : Type := mkBench {
  replies : nat -> Reply;
  cancel_flags : nat -> bool;
  sent : nat;
  flag_reads : nat;
  log : list Step
}.

(** [await self._client.get(...)], [.post(...)], [.delete(...)] with
    [raise_for_status()] and [json()]. *)
Definition request (m : Method) (endpoint : string) (payload : option Json)
  : St Bench Reply :=
  fun h => (Returns (replies h (sent h)),
            mkBench (replies h) (cancel_flags h) (S (sent h)) (flag_reads h)
                    (log h ++ [Sent (mkRequest m endpoint payload)])).

(** [cancel_event.is_set()] *)
Definition cancel_event_is_set : St Bench bool :=
  fun h => (Returns (cancel_flags h (flag_reads h)),
            mkBench (replies h) (cancel_flags h) (sent h) (S (flag_reads h))
                    (log h ++ [CancelChecked])).

(** [await asyncio.sleep(seconds)] *)
Definition sleep (seconds : float) : St Bench unit :=
  fun h => (Returns tt,
            mkBench (replies h) (cancel_flags h) (sent h) (flag_reads h)
                    (log h ++ [Slept seconds])).

(** [_get(endpoint, params)] *)
Definition _get (c : BaseHardwareClient) (endpoint : string)
    (params : option Json) : St Bench (Result Json) :=
  if negb (is_connected c) then ret (Err "Client not connected")
  else
    let! reply := request GET endpoint params in
    match reply with
    | ReplyJson body => ret (Ok body)
    | ReplyStatusError status_code text =>
        ret (Err ("HTTP " +:+ pretty status_code +:+ ": " +:+ text))
    | ReplyRequestError msg => ret (Err ("Request failed: " +:+ msg))
    | ReplyOtherError msg => ret (Err ("Unexpected error: " +:+ msg))
    end.

(** [_post(endpoint, json)] *)
Definition _post (c : BaseHardwareClient) (endpoint : string)
    (json : option Json) : St Bench (Result Json) :=
  if negb (is_connected c) then ret (Err "Client not connected")
  else
    let! reply := request POST endpoint json in
    match reply with
    | ReplyJson body => ret (Ok body)
    | ReplyStatusError status_code text =>
        ret (Err ("HTTP " +:+ pretty status_code +:+ ": " +:+ text))
    | ReplyRequestError msg => ret (Err ("Request failed: " +:+ msg))
    | ReplyOtherError msg => ret (Err ("Unexpected error: " +:+ msg))
    end.

(** [_delete(endpoint)] *)
Definition _delete (c : BaseHardwareClient) (endpoint : string)
  : St Bench (Result Json) :=
  if negb (is_connected c) then ret (Err "Client not connected")
  else
    let! reply := request DELETE endpoint None in
    match reply with
    | ReplyJson body => ret (Ok body)
    | ReplyStatusError status_code text =>
        ret (Err ("HTTP " +:+ pretty status_code +:+ ": " +:+ text))
    | ReplyRequestError msg => ret (Err ("Request failed: " +:+ msg))
    | ReplyOtherError msg => ret (Err ("Unexpected error: " +:+ msg))
    end.

(** [data[key]] on what [json()] gave.  The exception is named by its class:
    a dict without the key raises [KeyError], a value that is not a dict
    raises [TypeError]. *)
Definition getitem {S} (data : Json) (key : string) : St S Json :=
  match data with
  | JDict items =>
      match items !! key with
      | Some value => ret value
      | None => raise "KeyError"
      end
  | _ => raise "TypeError"
  end.

End Http.

(* ===================================================================== *)
(** ** app/hardware/suruga_seiki.py: the probe station over HTTP         *)
(* ===================================================================== *)

Module Suruga.

Import Http.

(** [get_power(stage)] *)
Definition get_power (c : BaseHardwareClient) (stage : string)
  : St Bench (Result Json) :=
  let channel := if String.eqb stage "left" then 1 else 2 in
  let! result := _get c ("/io/power/" +:+ pretty channel) None in
  match result with
  | Err e => ret (Err e)
  | Ok power_data =>
      let! power := getitem power_data "power" in
      ret (Ok power)
  end.


(** [move_relative(axis_number, distance_um, speed_um_per_s)] *)
Definition move_relative (c : BaseHardwareClient) (axis_number : Z)
    (distance_um speed_um_per_s : float) : St Bench (Result unit) :=
  let! result :=
    _post c "/motion/move_relative"
      (Some (JDict {[ "axis_number" := JInt axis_number;
                      "distance_um" := JFloat distance_um;
                      "speed_um_per_s" := JFloat speed_um_per_s ]})) in
  match result with
  | Err e => ret (Err e)
  | Ok _ => ret (Ok tt)
  end.

(** [emergency_stop()] *)
Definition emergency_stop (c : BaseHardwareClient) : St Bench (Result unit) :=
  let! result := _post c "/motion/emergency_stop" (Some (JDict ∅)) in
  match result with
  | Err e => ret (Err e)
  | Ok _ => ret (Ok tt)
  end.

(** [get_analog_input(channel)] *)
Definition get_analog_input (c : BaseHardwareClient) (channel : Z)
  : St Bench (Result Json) :=
  let! result := _get c ("/io/analog_input/" +:+ pretty channel) None in
  match result with
  | Err e => ret (Err e)
  | Ok data =>
      let! voltage := getitem data "voltage" in
      ret (Ok voltage)
  end.

(** [set_digital_output(channel, value)] *)
Definition set_digital_output (c : BaseHardwareClient) (channel : Z)
    (value : bool) : St Bench (Result unit) :=
  let! result :=
    _post c "/io/set_digital_output"
      (Some (JDict {[ "channel" := JInt channel; "value" := JBool value ]})) in
  match result with
  | Err e => ret (Err e)
  | Ok _ => ret (Ok tt)
  end.


End Suruga.

(* ===================================================================== *)
(** ** app/services/measurement_manager.py: the WebSocket manager        *)
(* ===================================================================== *)

Module WebSockets.

(** A WebSocket object is known by its identity. *)
Abbreviation WebSocket := nat (only parsing).

(** The [WebSocketManager] and what surrounds it.  [connections] is the list
    of the manager.  [refused] and [broken] are the environment: the sockets
    whose [accept()] raises, and those whose [send_json()] raises.
    [received] records the messages that reached a socket, in order. *)
Record Hub (Msg : Type) : Type := mkHub {
  connections : list WebSocket;
  refused : WebSocket -> option string;
  broken : WebSocket -> bool;
  received : list (WebSocket * Msg)
}.
Arguments mkHub {Msg}.
Arguments connections {Msg} _.
Arguments refused {Msg} _.
Arguments broken {Msg} _.
Arguments received {Msg} _.

Section Hub.
Context {Msg : Type}.

Definition set_connections (l : list WebSocket) (hub : Hub Msg) : Hub Msg :=
  mkHub l (refused hub) (broken hub) (received hub).

(** [connect(websocket)] *)
Definition connect (websocket : WebSocket) : St (Hub Msg) unit :=
  fun hub =>
    match refused hub websocket with
    | Some exc => (Raises exc, hub)
    | None =>
        (Returns tt, set_connections (connections hub ++ [websocket]) hub)
    end.

(** [list.remove(x)] on a list that has [x]: the first [x] goes. *)
Fixpoint remove (x : WebSocket) (l : list WebSocket) : list WebSocket :=
  match l with
  | [] => []
  | y :: rest => if bool_decide (y = x) then rest else y :: remove x rest
  end.

(** [disconnect(websocket)] *)
Definition disconnect (websocket : WebSocket) (hub : Hub Msg) : Hub Msg :=
  if bool_decide (websocket ∈ connections hub)
  then set_connections (remove websocket (connections hub)) hub
  else hub.

(** [await connection.send_json(message)] inside its [try]: whether it
    went through. *)
Definition send_json (connection : WebSocket) (message : Msg)
  : St (Hub Msg) bool :=
  fun hub =>
    if broken hub connection then (Returns false, hub)
    else (Returns true,
          mkHub (connections hub) (refused hub) (broken hub)
                (received hub ++ [(connection, message)])).

(** The first loop of [broadcast]: [for connection in self.connections],
    with the list [disconnected] it builds.  No other task changes
    [self.connections] while the loop is suspended in a send. *)
Fixpoint send_to_all (message : Msg) (remaining disconnected : list WebSocket)
  : St (Hub Msg) (list WebSocket) :=
  match remaining with
  | [] => ret disconnected
  | connection :: rest =>
      let! sent := send_json connection message in
      send_to_all message rest
        (if sent then disconnected else disconnected ++ [connection])
  end.

(** [broadcast(message)] *)
Definition broadcast (message : Msg) : St (Hub Msg) unit :=
  fun hub =>
    match send_to_all message (connections hub) [] hub with
    | (Returns disconnected, hub') =>
        (* Remove disconnected clients *)
        (Returns tt, fold_left (fun h connection => disconnect connection h)
                               disconnected hub')
    | (Raises exc, hub') => (Raises exc, hub')
    | (Blocks, hub') => (Blocks, hub')
    end.

End Hub.
End WebSockets.

(* ===================================================================== *)
(** ** app/api/routes/measurements.py: the control endpoints             *)
(* ===================================================================== *)

Module Routes.

Import Controller.

(** What an endpoint gives: its response, or the [HTTPException] it
    raises. *)
Inductive Answer (A : Type) : Type :=
| Responds (body : A)
| HTTPException (status_code : Z) (detail : string).
Arguments Responds {A} _.
Arguments HTTPException {A} _ _.

Record StartMeasurementRequest : Type := mkStartMeasurementRequest {
  request_order_id : string;
  request_suruga_base_url : string;
  request_exfo_base_url : string;
  request_power_threshold_db : float;
  request_devices_between_alignments : Z;
  request_perform_periodic_alignment : bool
}.

Record StartMeasurementResponse : Type := mkStartMeasurementResponse {
  message : string;
  response_order_id : string;
  response_total_devices : Z
}.

(** The controller object the manager refers to; a reference always names a
    controller of the store. *)
Definition current_controller (sys : Manager.System)
  : option MeasurementController :=
  match Manager.controller (Manager.manager sys) with
  | Some cl => Manager.controllers sys !! cl
  | None => None
  end.

(** [MeasurementManager.get_state()] *)
Definition manager_get_state : St Manager.System MeasurementState :=
  fun sys =>
    match current_controller sys with
    | Some c => (Returns (Controller.get_state c), sys)
    | None =>
        let (o, w) := initial_state (Manager.world sys) in
        (o, Manager.mkSystem w (Manager.controllers sys) (Manager.tasks sys)
                             (Manager.manager sys))
    end.

(** The mock devices of [start_measurement]:
    [DeviceInfo(index=i, name=f"Device_{i}", ...) for i in range(3)]. *)
Definition mock_device (i : Z) : DeviceInfo :=
  mkDevice i ("Device_" +:+ pretty i) (1000 + i)
           (PrimFloat.mul 100 (PrimFloat.of_uint63 (Uint63.of_Z i)))
           (PrimFloat.mul 100 (PrimFloat.of_uint63 (Uint63.of_Z i))).

Definition mock_devices : list DeviceInfo :=
  mock_device <$> [0; 1; 2].

(** [start_measurement(request, ...)]: the [RuntimeError] of
    [manager.start] becomes an [HTTPException] with status 409. *)
Definition start_measurement (request : StartMeasurementRequest)
  : St Manager.System (Answer StartMeasurementResponse) :=
  let devices := mock_devices in
  let config :=
    mkConfig (request_order_id request) devices
             (request_suruga_base_url request) (request_exfo_base_url request)
             (request_power_threshold_db request)
             (request_devices_between_alignments request)
             (request_perform_periodic_alignment request) in
  try_except
    (do! Manager.start config in
     ret (Responds (mkStartMeasurementResponse "Measurement started"
                      (request_order_id request)
                      (Z.of_nat (length devices)))))
    (fun e => ret (HTTPException 409 e)).

(** [pause_measurement(...)] *)
Definition pause_measurement : St Manager.System (Answer string) :=
  fun sys =>
    if negb (Manager.is_active sys) then
      (Returns (HTTPException 400 "No active measurement"), sys)
    else
      (Returns (Responds "Measurement pause requested"),
       Manager.signal SigPause sys).

(** [resume_measurement(...)] *)
Definition resume_measurement : St Manager.System (Answer string) :=
  let! state := manager_get_state in
  if negb (bool_decide (status state = PAUSED)) then
    ret (HTTPException 400 "Measurement is not paused")
  else
    fun sys => (Returns (Responds "Measurement resumed"),
                Manager.signal SigResume sys).

End Routes.

(* ===================================================================== *)
(** ** The design document's own words                                   *)
(* ===================================================================== *)

(** The transition table of the design document, section 4.1: the events
    allowed from each status; every other pair is marked invalid. *)
Definition table_allows (from : MeasurementStatus) (event : MeasurementEvent)
  : bool :=
  match event, from with
  | StartMeasurement _ _, IDLE => true
  | CompleteCalibration _, CALIBRATING => true
  | CompleteChipAngleCalibration _ _, CALIBRATING => true
  | StartDevice _, (CALIBRATING | RUNNING) => true
  | UpdateOperation _, (RUNNING | CALIBRATING) => true
  | RecordPower _ _ _, (RUNNING | PAUSED) => true
  | CompleteDevice, RUNNING => true
  | PauseMeasurement, RUNNING => true
  | ResumeMeasurement, PAUSED => true
  | CancelMeasurement, (RUNNING | PAUSED) => true
  | CompleteMeasurement, RUNNING => true
  | FailMeasurement _, (IDLE | CALIBRATING | RUNNING | PAUSED) => true
  | _, _ => false
  end.

(** The design document's [successful_devices]: the device indices whose
    stage mapping is non-empty, counted. *)
Definition devices_with_readings (m : gmap Z (gmap string float)) : gset Z :=
  dom (filter (fun kv => kv.2 ≠ ∅) m).

Definition count_devices_with_readings (m : gmap Z (gmap string float)) : Z :=
  Z.of_nat (size (devices_with_readings m)).

(* ===================================================================== *)
(** ** Vocabulary of the properties                                      *)
(* ===================================================================== *)

(** A state object is well formed in a store when its references name dict
    objects of the store. *)
Definition wf_state (w : World) (s : MeasurementState) : Prop :=
  (power_readings s < length (device_dicts w))%nat /\
  map_Forall (fun _ li => (li < length (stage_dicts w))%nat)
             (device_dict_at w (power_readings s)).

(** One store extends another when every dict object of the first is in the
    second, with the same content: the second has only new objects more. *)
Definition extends (w w' : World) : Prop :=
  (exists more, device_dicts w' = (device_dicts w ++ more)%list) /\
  (exists more, stage_dicts w' = (stage_dicts w ++ more)%list).

(** A clock that ticks once per reading: 0, 1, 2, ... *)
Definition ticking_clock (n : nat) : float :=
  Nat.iter n (fun t => PrimFloat.add t 1) 0%float.

(** A store with one empty dict of readings, and a running state that refers
    to it. *)
Definition sample_world : World := mkWorld [∅] [] ticking_clock 0.

Definition sample_running : MeasurementState :=
  mkState RUNNING (Some "ORD-1") 0 3 None 0%nat None None None None
          (Some 0%float) None 0%float.

(** One round of the retraction loop, as calls. *)
Definition retraction_round (contact_channel z_axis : Z)
    (retract_step_um speed_um_per_s : float) : list StationCall :=
  [CancelIsSet;
   MoveRelative z_axis (PrimFloat.opp retract_step_um) speed_um_per_s;
   Sleep 0.1%float;
   GetAnalogInput contact_channel].

Definition rounds (n : nat) (contact_channel z_axis : Z)
    (retract_step_um speed_um_per_s : float) : list StationCall :=
  concat (replicate n (retraction_round contact_channel z_axis
                         retract_step_um speed_um_per_s)).

(** A station on which no call fails and nobody cancels, whose sensor reads
    [voltage k] after [k] moves. *)
Definition cooperative (voltage : nat -> float) (h : Station) : Prop :=
  (forall k, analog_input h k = Ok (voltage k)) /\
  (forall k, move_result h k = Ok tt) /\
  (forall k, cancel_is_set h k = false).

(** The simulated station: no call fails, nobody cancels, and the sensor
    reads [voltage k] after [k] retraction moves. *)
Definition simulated_station (voltage : nat -> float) : Station :=
  mkStation (fun k => Ok (voltage k)) (fun _ => Ok tt) (fun _ => false)
            0 0 [].

(** Events applied one after the other, each to the state that the one
    before gave; the first rejection ends the sequence. *)
Fixpoint apply_events (state : MeasurementState)
    (events : list MeasurementEvent) : M (Result MeasurementState) :=
  match events with
  | [] => ret (Ok state)
  | event :: rest =>
      let! result := transition state event in
      match result with
      | Ok state' => apply_events state' rest
      | Err reason => ret (Err reason)
      end
  end.

Definition record_or_start (event : MeasurementEvent) : bool :=
  match event with
  | RecordPower _ _ _ | StartDevice _ => true
  | _ => false
  end.

(** The four calls of one round on a station where they succeed. *)
Ltac four_calls Hc Hm Hv :=
  unfold bind at 1; unfold cancel_event_is_set at 1; cbn; rewrite Hc; cbn;
  rewrite Hm; cbn; rewrite Hv; cbn.

(** [triple P m Q X B]: from a state satisfying [P], the code [m] ends in a
    state satisfying [Q a] when it returns [a], [X exc] when it raises [exc],
    and [B] when it stays blocked. *)
Definition triple {S A} (P : S -> Prop) (m : St S A) (Q : A -> S -> Prop)
    (X : string -> S -> Prop) (B : S -> Prop) : Prop :=
  forall s, P s ->
    match m s with
    | (Returns a, s') => Q a s'
    | (Raises exc, s') => X exc s'
    | (Blocks, s') => B s'
    end.

Import Controller.

(** The observable part of a run: the state of the controller, the events
    yielded with their snapshots, the events applied to the state machine. *)
Definition Observed : Type :=
  MeasurementState * list (ProgressEvent * MeasurementState)
  * list MeasurementEvent.

Definition observed (r : Run) : Observed :=
  (state (self r), yielded r, applied r).

(** A property of what a run shows, as a property of the run. *)
Definition on (P : Observed -> Prop) (r : Run) : Prop := P (observed r).

(** The statuses that are not paused and not terminal. *)
Definition live (st : MeasurementStatus) : bool :=
  match st with
  | IDLE | CALIBRATING | RUNNING => true
  | _ => false
  end.

(** The events that [run()] and [_process_device()] hand to the state
    machine. *)
Definition orchestrating (event : MeasurementEvent) : bool :=
  match event with
  | StartMeasurement _ _ | StartDevice _ | UpdateOperation _
  | CompleteDevice => true
  | _ => false
  end.

(** What holds throughout a run: the state, and every snapshot taken so far,
    has a live status, and only orchestrating events were applied. *)
Definition stays_live (o : Observed) : Prop :=
  live (status o.1.1) = true /\
  Forall (fun obs => live (status obs.2) = true) o.1.2 /\
  Forall (fun event => orchestrating event = true) o.2.

Abbreviation always_live m :=
  (triple (on stays_live) m (fun _ => on stays_live)
          (fun _ => on stays_live) (on stays_live)).

(** No terminal event among the events. *)
Definition no_terminal (evs : list ProgressEvent) : Prop :=
  Forall (fun ev => terminal (event_type ev) = false) evs.

(** The events end with a terminal event, the only one among them. *)
Definition ends_with_one_terminal (evs : list ProgressEvent) : Prop :=
  exists before last,
    evs = before ++ [last] /\ no_terminal before /\
    terminal (event_type last) = true.

(** The events end with [measurement_paused], and none is terminal. *)
Definition waits_at_pause (evs : list ProgressEvent) : Prop :=
  no_terminal evs /\
  exists before last,
    evs = before ++ [last] /\ event_type last = measurement_paused.

(** The events of what a run shows. *)
Definition events_of (o : Observed) : list ProgressEvent := map fst o.1.2.

Abbreviation quiet := (on (fun o => no_terminal (events_of o))).
Abbreviation ended := (on (fun o => ends_with_one_terminal (events_of o))).
Abbreviation pausing := (on (fun o => waits_at_pause (events_of o))).

(** The three devices of the measurement endpoint, and a configuration with
    them. *)
Definition three_devices : list DeviceInfo :=
  [mkDevice 0 "Device_0" 1000 0 0;
   mkDevice 1 "Device_1" 1001 100 100;
   mkDevice 2 "Device_2" 1002 200 200].

Definition sample_config : MeasurementConfig :=
  mkConfig "ORD-1" three_devices "http://localhost:8001"
           "http://localhost:8002" 1.5 5 true.

(** A store with no object yet, and the controller that [__init__] makes in
    it, with the store it leaves. *)
Definition blank_world : World := mkWorld [] [] ticking_clock 0.

Definition sample_controller : MeasurementController :=
  mkController sample_config
    (mkState IDLE None 0 0 None 0%nat None None None None None None 0%float)
    false false false None None 0 None None.

Definition sample_store : World := mkWorld [∅] [] ticking_clock 1.

(** Services that answer the health check and close without an exception. *)
Definition healthy : Services :=
  mkServices (HealthStatus 200) (HealthStatus 200) None None.

(** What holds of the process at all times: a task that is not done is the
    task the manager refers to, and the manager that refers to a task refers
    to a controller. *)
Definition one_run (sys : Manager.System) : Prop :=
  (forall t tk, Manager.tasks sys !! t = Some tk -> Manager.done tk = false ->
                Manager.task (Manager.manager sys) = Some t) /\
  (Manager.task (Manager.manager sys) <> None ->
   Manager.controller (Manager.manager sys) <> None).

(** How far a status is along a run: idle, calibrating, measuring (running
    or paused), over. *)
Definition rank (st : MeasurementStatus) : nat :=
  match st with
  | IDLE => 0
  | CALIBRATING => 1
  | RUNNING | PAUSED => 2
  | COMPLETED | FAILED | CANCELLED => 3
  end.

(** The fields that go with the status: a state that has left [IDLE] without
    failing has a start time, the states with a completion time are the
    terminal ones, and the states with an error are the failed ones. *)
Definition consistent {R} (s : MeasurementStateOf R) : Prop :=
  (status s = IDLE -> started_at s = None) /\
  (started_at s = None -> status s = IDLE \/ status s = FAILED) /\
  (completed_at s <> None <-> is_terminal s = true) /\
  (error s <> None <-> status s = FAILED).

(** [n] slashes. *)
Fixpoint slashes (n : nat) : string :=
  match n with
  | O => ""
  | S n' => String "/"%char (slashes n')
  end.

(** The last character of a string, if it has one. *)
Fixpoint last_char (s : string) : option ascii :=
  match s with
  | EmptyString => None
  | String c EmptyString => Some c
  | String _ rest => last_char rest
  end.

(** A call of the station made by [check_contact_and_retract] with these
    arguments. *)
Definition retraction_call (contact_channel z_axis : Z)
    (retract_step_um speed_um_per_s : float) (c : StationCall) : Prop :=
  match c with
  | GetAnalogInput channel => channel = contact_channel
  | CancelIsSet => True
  | MoveRelative axis distance speed =>
      axis = z_axis /\ distance = PrimFloat.opp retract_step_um /\
      speed = speed_um_per_s
  | Sleep seconds => seconds = 0.1%float
  end.

Definition is_move (c : StationCall) : bool :=
  match c with MoveRelative _ _ _ => true | _ => false end.




(** What one run of [check_contact_and_retract] has done to a station: the
    calls it added are its own, each move counts, the moves stay within the
    budget, and the result says what the sensor showed. *)
Definition retracted (contact_channel z_axis : Z)
    (threshold_voltage retract_step_um speed_um_per_s : float)
    (budget : nat) (h : Station) (result : Result bool) (h' : Station)
  : Prop :=
  analog_input h' = analog_input h /\ move_result h' = move_result h /\
  cancel_is_set h' = cancel_is_set h /\
  exists made,
    calls h' = calls h ++ made /\
    Forall (retraction_call contact_channel z_axis retract_step_um
              speed_um_per_s) made /\
    moves h' = (moves h + length (filter (fun c => is_move c = true) made))%nat /\
    (moves h' <= moves h + budget)%nat /\
    match result with
    | Ok true =>
        (moves h < moves h')%nat /\
        exists v, analog_input h (moves h') = Ok v /\
                  PrimFloat.leb v threshold_voltage = true
    | Ok false => made = [GetAnalogInput contact_channel]
    | Err _ => True
    end.

(** A client that is connected, and surroundings in which every request
    meets the same reply and nobody cancels. *)
Definition connected_client : BaseHardwareClient :=
  mkClient "http://localhost:8001" 300 true true.

Definition steady_bench (reply : Http.Reply) : Http.Bench :=
  Http.mkBench (fun _ => reply) (fun _ => false) 0 0 [].

(** Conjunctions split, implications left alone. *)
Ltac splits := repeat match goal with |- _ /\ _ => split end.

(** No [resume()] has been called and none will be. *)
Definition never_resumed (r : Run) : Prop :=
  _resume_event (self r) = false /\
  Forall (Forall (fun sig => sig <> SigResume)) (incoming r).

(** No [measurement_paused] among the events. *)
Definition never_paused (evs : list ProgressEvent) : Prop :=
  Forall (fun ev => event_type ev <> measurement_paused) evs.

(** The last event is a [measurement_paused]. *)
Definition paused_last (evs : list ProgressEvent) : Prop :=
  exists before last,
    evs = before ++ [last] /\ event_type last = measurement_paused.

(** A run in which nobody resumes and that has not paused. *)
Definition calm (r : Run) : Prop :=
  never_resumed r /\ never_paused (events r).

(** Code that neither yields nor waits, and leaves the resume flag alone. *)
Definition keeps_control {A} (m : St Run A) : Prop :=
  forall r,
    (m r).1 <> Blocks /\
    _resume_event (self (m r).2) = _resume_event (self r) /\
    incoming (m r).2 = incoming r /\ yielded (m r).2 = yielded r.

Abbreviation stays_calm m :=
  (triple calm m (fun _ => calm) (fun _ => calm)
          (fun r => paused_last (events r))).

(** The dict of readings that the state of the controller refers to is
    empty. *)
Definition unread (r : Run) : Prop :=
  device_dict_at (world r) (power_readings (state (self r))) = ∅.

(** A [measurement_completed] that counts no device as successful and all
    of them as failed. *)
Definition reports_none (ev : ProgressEvent) : Prop :=
  match ev with
  | MeasurementCompleted _ total successful failed _ =>
      successful = 0 /\ failed = total
  | _ => True
  end.

(** Code that does not yield and leaves the state of the controller and the
    dict objects alone. *)
Definition keeps_store {A} (m : St Run A) : Prop :=
  forall r,
    device_dicts (world (m r).2) = device_dicts (world r) /\
    state (self (m r).2) = state (self r) /\
    yielded (m r).2 = yielded r.

(** The process while the manager refers to this controller. *)
Definition serving (c : MeasurementController) (w : World) : Manager.System :=
  Manager.mkSystem w [c] [Manager.mkTask 0 false]
                   (Manager.mkManager (Some 0%nat) (Some 0%nat)).

(** The states that [get_state()] can give during a run and after it: the
    snapshots at the yields, and the last state. *)
Definition snapshots (r : Run) : list MeasurementState :=
  (snd <$> yielded r) ++ [state (self r)].

(** The device an event is about, if it is about one. *)
Definition device_of (ev : ProgressEvent) : option Z :=
  match ev with
  | DeviceStarted _ i _ _ | DeviceMoving _ i _ | DeviceCompleted _ i _
  | DeviceSkipped _ i _ _ | MeasurementPaused _ i | MeasurementResumed _ i
  | MeasurementCancelled _ i => Some i
  | ErrorOccurred _ _ i _ | MeasurementFailed _ _ i => i
  | MeasurementStarted _ _ _ | MeasurementCompleted _ _ _ _ _ => None
  end.

(** An event in brief: its kind and its device. *)
Definition brief (ev : ProgressEvent) : EventType * option Z :=
  (event_type ev, device_of ev).

(** The events of one device that is processed without a hitch. *)
Definition visit (device : DeviceInfo) : list (EventType * option Z) :=
  [(device_started, Some (index device));
   (device_moving, Some (index device));
   (device_completed, Some (index device))].

(** A run that nobody interferes with, on its way: what it has yielded in
    brief, no control call made or to come, and how many devices it has
    processed. *)
Definition steady (seen : list (EventType * option Z)) (processed : Z)
    (r : Run) : Prop :=
  brief <$> events r = seen /\
  incoming r = [] /\
  _cancel_event (self r) = false /\ _pause_event (self r) = false /\
  alignment_counter (self r) = processed.

(** Such a run, with its state in one of these statuses. *)
Definition undisturbed (allowed : MeasurementStatus -> Prop)
    (seen : list (EventType * option Z)) (processed : Z) (r : Run) : Prop :=
  steady seen processed r /\ allowed (status (state (self r))).

(** The statuses from which a device can be started. *)
Definition on_the_way (st : MeasurementStatus) : Prop :=
  st = CALIBRATING \/ st = RUNNING.

(** Code that returns, and leaves the controller and the events alone. *)
Definition keeps_self {A} (m : St Run A) : Prop :=
  forall r, exists a r',
    m r = (Returns a, r') /\ self r' = self r /\ incoming r' = incoming r /\
    yielded r' = yielded r.




(** A run in which [cancel()] has been called, with what it has yielded in
    brief and its state in one of these statuses. *)
Definition cancelling (allowed : MeasurementStatus -> Prop)
    (seen : list (EventType * option Z)) (r : Run) : Prop :=
  brief <$> events r = seen /\
  _cancel_event (self r) = true /\
  allowed (status (state (self r))).

(** What a run cancelled at its start has yielded, in brief. *)
Definition cancelled_at_start (devices : list DeviceInfo)
  : list (EventType * option Z) :=
  (measurement_started, None)
    :: match devices with
       | [] => [(measurement_completed, None)]
       | device :: _ => [(measurement_cancelled, Some (index device))]
       end.

(* ===================================================================== *)
(** * Properties                                                         *)
(* ===================================================================== *)

(** *** The object store *)

Lemma lookup_snoc {A} (l : list A) (x : A) : (l ++ [x]) !! length l = Some x.
Proof. rewrite lookup_app_r by lia. by rewrite Nat.sub_diag. Qed.

Lemma insert_snoc {A} (l : list A) (x y : A) :
  <[length l := y]> (l ++ [x]) = l ++ [y].
Proof. rewrite insert_app_r_alt by lia. by rewrite Nat.sub_diag. Qed.

(** *** The state machine rejects what the transition table forbids *)

(** C1: for every state and every event that the transition table of the
    design document marks invalid for the state's status, [transition]
    returns an [Err] whose reason says what cannot be done and from which
    status (or names the unknown kind of event), and leaves the store (the
    dict objects the state refers to, and the clock) exactly as it was; the
    state itself is an immutable value. *)
Theorem transition_rejects_invalid (w : World) (state : MeasurementState)
    (event : MeasurementEvent) :
  table_allows (status state) event = false ->
  exists reason,
    transition state event w = (Returns (Err reason), w) /\ reason <> "" /\
    ((exists type_name,
        event = OtherEvent type_name /\
        reason = "Unknown event type: " +:+ type_name) \/
     (exists what,
        reason = "Cannot " +:+ what +:+ " " +:+ status_str (status state)
                 +:+ " state")).
Proof.
  intros H. destruct state as [st ? ? ? ? ? ? ? ? ? ? ? ?]. simpl in H.
  destruct event, st; try discriminate H;
    (eexists; split; [reflexivity|]; split; [discriminate|]);
    first [ left; eexists; split; reflexivity
          | right;
            first [ exists "start measurement from"; reflexivity
                  | exists "complete calibration from"; reflexivity
                  | exists "complete chip angle calibration from"; reflexivity
                  | exists "start device from"; reflexivity
                  | exists "update operation from"; reflexivity
                  | exists "record power from"; reflexivity
                  | exists "complete device from"; reflexivity
                  | exists "pause from"; reflexivity
                  | exists "resume from"; reflexivity
                  | exists "cancel from"; reflexivity
                  | exists "complete from"; reflexivity
                  | exists "fail from terminal"; reflexivity ] ].
Qed.

Lemma transition_rejects_invalid_witness :
  table_allows (status sample_running) (StartMeasurement "ORD-2" 3) = false /\
  exists reason,
    transition sample_running (StartMeasurement "ORD-2" 3) sample_world
      = (Returns (Err reason), sample_world) /\ reason <> "" /\
    ((exists type_name,
        StartMeasurement "ORD-2" 3 = OtherEvent type_name /\
        reason = "Unknown event type: " +:+ type_name) \/
     (exists what,
        reason = "Cannot " +:+ what +:+ " "
                 +:+ status_str (status sample_running) +:+ " state")).
Proof.
  split; [reflexivity|].
  apply (transition_rejects_invalid sample_world sample_running
           (StartMeasurement "ORD-2" 3)).
  reflexivity.
Defined.

(** *** Recording a power reading *)

Lemma device_dict_at_snoc dd sd ck n (x : gmap Z loc) :
  device_dict_at (mkWorld (dd ++ [x]) sd ck n) (length dd) = x.
Proof. unfold device_dict_at. simpl. by rewrite lookup_snoc. Qed.

Lemma stage_dict_at_snoc dd sd ck n (x : gmap string float) :
  stage_dict_at (mkWorld dd (sd ++ [x]) ck n) (length sd) = x.
Proof. unfold stage_dict_at. simpl. by rewrite lookup_snoc. Qed.

Lemma stage_dict_at_device_dicts dd dd' sd ck n ck' n' l :
  stage_dict_at (mkWorld dd sd ck n) l = stage_dict_at (mkWorld dd' sd ck' n') l.
Proof. reflexivity. Qed.

Lemma transition_record_power (w : World) (state : MeasurementState)
    (dev : Z) (stage : string) (power : float) :
  is_active state = true ->
  let old := device_dict_at w (power_readings state) in
  let stages := match old !! dev with
                | Some li => stage_dict_at w li
                | None => ∅
                end in
  let fresh := match old !! dev with Some _ => [] | None => [∅] end in
  transition state (RecordPower dev stage power) w =
    (Returns (Ok (replace_timestamp (clock w (clock_reads w))
                   (replace_power_readings (length (device_dicts w)) state))),
     mkWorld (device_dicts w ++ [<[dev := length (stage_dicts w ++ fresh)]> old])
             (stage_dicts w ++ fresh ++ [<[stage := power]> stages])
             (clock w) (S (clock_reads w))).
Proof.
  intros Hact. cbv zeta. unfold transition. rewrite Hact.
  destruct w as [dd sd ck n]. cbn [negb].
  unfold bind at 1. unfold read_device_dict at 1.
  unfold bind at 1. unfold new_device_dict at 1. cbn [device_dicts stage_dicts clock clock_reads].
  unfold bind at 1. unfold device_dict_contains at 1.
  rewrite device_dict_at_snoc.
  set (old := device_dict_at _ _).
  destruct (old !! dev) as [li|] eqn:Hdev.
  - rewrite bool_decide_eq_true_2 by eauto. cbn [negb].
    unfold bind at 1. unfold ret at 1.
    unfold bind at 1. unfold device_dict_getitem at 1. rewrite device_dict_at_snoc, Hdev.
    unfold bind at 1. unfold read_stage_dict at 1.
    unfold bind at 1. unfold new_stage_dict at 1. cbn [device_dicts stage_dicts clock clock_reads].
    unfold bind at 1. unfold device_dict_setitem at 1. cbn [device_dicts stage_dicts clock clock_reads].
    rewrite device_dict_at_snoc, insert_snoc.
    unfold bind, now, ret. cbn [device_dicts stage_dicts clock clock_reads].
    rewrite app_nil_r. reflexivity.
  - rewrite bool_decide_eq_false_2 by (intros [? ?]; congruence). cbn [negb].
    unfold bind at 1. unfold bind at 1. unfold new_stage_dict at 1.
    cbn [device_dicts stage_dicts clock clock_reads].
    unfold device_dict_setitem at 1. cbn [device_dicts stage_dicts clock clock_reads].
    rewrite device_dict_at_snoc, insert_snoc.
    unfold bind at 1. unfold device_dict_getitem at 1. rewrite device_dict_at_snoc, lookup_insert_eq.
    unfold bind at 1. unfold read_stage_dict at 1. rewrite stage_dict_at_snoc.
    unfold bind at 1. unfold new_stage_dict at 1. cbn [device_dicts stage_dicts clock clock_reads].
    unfold bind at 1. unfold device_dict_setitem at 1. cbn [device_dicts stage_dicts clock clock_reads].
    rewrite device_dict_at_snoc, insert_snoc, insert_insert_eq.
    unfold bind, now, ret. cbn [device_dicts stage_dicts clock clock_reads].
    rewrite <- app_assoc. reflexivity.
Qed.

Lemma extends_device_dict_at w w' l :
  extends w w' -> (l < length (device_dicts w))%nat ->
  device_dict_at w' l = device_dict_at w l.
Proof.
  intros [[more Hmore] _] Hl. unfold device_dict_at.
  by rewrite Hmore, lookup_app_l.
Qed.

Lemma extends_stage_dict_at w w' l :
  extends w w' -> (l < length (stage_dicts w))%nat ->
  stage_dict_at w' l = stage_dict_at w l.
Proof.
  intros [_ [more Hmore]] Hl. unfold stage_dict_at.
  by rewrite Hmore, lookup_app_l.
Qed.

Lemma extends_readings w w' s :
  extends w w' -> wf_state w s -> readings w' s = readings w s.
Proof.
  intros Hext [Hl Hin]. unfold readings, readings_at.
  rewrite (extends_device_dict_at w w') by done.
  apply map_fmap_ext. intros dev li Hdev.
  apply extends_stage_dict_at; [done|]. by apply (Hin dev).
Qed.

Lemma readings_lookup w s dev :
  readings w s !! dev =
    stage_dict_at w <$> (device_dict_at w (power_readings s) !! dev).
Proof. unfold readings, readings_at. apply lookup_fmap. Qed.

(** What an accepted [RecordPower] does, on the values. *)
Lemma record_power_effect (w : World) (state : MeasurementState)
    (dev : Z) (stage : string) (power : float) :
  is_active state = true -> wf_state w state ->
  exists s1 w1,
    transition state (RecordPower dev stage power) w = (Returns (Ok s1), w1)
    /\ s1 = replace_timestamp (clock w (clock_reads w))
              (replace_power_readings (power_readings s1) state)
    /\ extends w w1
    /\ clock w1 = clock w
    /\ clock_reads w1 = S (clock_reads w)
    /\ wf_state w1 s1
    /\ readings w1 s1 =
         <[dev := <[stage := power]> (default ∅ (readings w state !! dev))]>
           (readings w state).
Proof.
  intros Hact [Hl Hin]. eexists _, _. split; [by apply transition_record_power|].
  set (old := device_dict_at w (power_readings state)) in *.
  set (fresh := match old !! dev with Some _ => [] | None => [∅] end).
  set (stages := match old !! dev with
                 | Some li => stage_dict_at w li | None => ∅ end).
  assert (Hext : extends w
            (mkWorld (device_dicts w ++ [<[dev := length (stage_dicts w ++ fresh)]> old])
               (stage_dicts w ++ fresh ++ [<[stage := power]> stages])
               (clock w) (S (clock_reads w)))).
  { split; simpl; eauto. }
  split; [reflexivity|]. split; [exact Hext|].
  split; [reflexivity|]. split; [reflexivity|].
  assert (Hnew : forall dd ck n, stage_dict_at
            (mkWorld dd (stage_dicts w ++ fresh ++ [<[stage := power]> stages]) ck n)
            (length (stage_dicts w ++ fresh)) = <[stage := power]> stages).
  { intros. rewrite app_assoc. apply stage_dict_at_snoc. }
  split.
  - split; simpl.
    + rewrite length_app. simpl. lia.
    + rewrite device_dict_at_snoc. apply map_Forall_insert_2.
      * rewrite !length_app. simpl. lia.
      * eapply map_Forall_impl; [exact Hin|]. simpl. intros _ li Hli.
        rewrite length_app. lia.
  - unfold readings at 1, readings_at. simpl. rewrite device_dict_at_snoc.
    rewrite fmap_insert, Hnew. f_equal.
    + f_equal. rewrite readings_lookup. fold old. subst stages.
      by destruct (old !! dev).
    + unfold readings, readings_at. fold old.
      apply map_fmap_ext. intros d li Hd.
      apply (extends_stage_dict_at w); [exact Hext|]. by apply (Hin d).
Qed.

Lemma extends_refl w : extends w w.
Proof. split; exists []; by rewrite app_nil_r. Qed.

Lemma extends_trans w1 w2 w3 : extends w1 w2 -> extends w2 w3 -> extends w1 w3.
Proof.
  intros [[a Ha] [b Hb]] [[c Hc] [d Hd]]. split.
  - exists (a ++ c). by rewrite Hc, Ha, app_assoc.
  - exists (b ++ d). by rewrite Hd, Hb, app_assoc.
Qed.

Lemma extends_wf w w' s : extends w w' -> wf_state w s -> wf_state w' s.
Proof.
  intros Hext [Hl Hin]. split.
  - destruct Hext as [[more ->] _]. rewrite length_app. lia.
  - rewrite (extends_device_dict_at w w') by done.
    eapply map_Forall_impl; [exact Hin|]. simpl. intros _ li Hli.
    destruct Hext as [_ [more ->]]. rewrite length_app. lia.
Qed.

Lemma sample_running_wf : wf_state sample_world sample_running.
Proof.
  split; [simpl; lia|].
  change (device_dict_at sample_world (power_readings sample_running))
    with (∅ : gmap Z nat).
  apply map_Forall_empty.
Qed.

(** C4, as the code has it: an accepted [RecordPower] sets the one named
    stage of the named device and keeps every other stage and device; it
    works on new dict objects only, so the readings of the prior state are
    what they were; recording the same triple a second time gives a state
    whose value differs from the first result in the [timestamp] at most. *)
Theorem record_power_merges_on_a_copy (w : World) (state : MeasurementState)
    (dev : Z) (stage : string) (power : float) :
  is_active state = true -> wf_state w state ->
  exists s1 w1 s2 w2,
    transition state (RecordPower dev stage power) w = (Returns (Ok s1), w1) /\
    transition s1 (RecordPower dev stage power) w1 = (Returns (Ok s2), w2) /\
    readings w1 s1 =
      <[dev := <[stage := power]> (default ∅ (readings w state !! dev))]>
        (readings w state) /\
    (forall stage', stage' <> stage ->
       default ∅ (readings w1 s1 !! dev) !! stage' =
       default ∅ (readings w state !! dev) !! stage') /\
    extends w w2 /\
    readings w2 state = readings w state /\
    value_of w2 s2 = replace_timestamp (timestamp s2) (value_of w1 s1).
Proof.
  intros Hact Hwf.
  destruct (record_power_effect w state dev stage power Hact Hwf)
    as (s1 & w1 & H1 & Hs1 & Hext1 & _ & _ & Hwf1 & Hr1).
  assert (Hact1 : is_active s1 = true) by (rewrite Hs1; exact Hact).
  destruct (record_power_effect w1 s1 dev stage power Hact1 Hwf1)
    as (s2 & w2 & H2 & Hs2 & Hext2 & _ & _ & Hwf2 & Hr2).
  assert (Hext : extends w w2) by (eapply extends_trans; eassumption).
  exists s1, w1, s2, w2.
  split; [exact H1|]. split; [exact H2|]. split; [exact Hr1|].
  split; [|split; [exact Hext|split]].
  - intros stage' Hne. rewrite Hr1, lookup_insert_eq. simpl.
    by rewrite lookup_insert_ne.
  - by apply extends_readings.
  - unfold value_of. rewrite Hr2, Hr1, lookup_insert_eq. simpl.
    rewrite !insert_insert_eq. rewrite Hs2 at 1. rewrite Hs2 at 2.
    reflexivity.
Qed.

Lemma record_power_merges_on_a_copy_witness :
  is_active sample_running = true /\
  wf_state sample_world sample_running /\
  exists s1 w1 s2 w2,
    transition sample_running (RecordPower 0 "left" 1.5%float) sample_world
      = (Returns (Ok s1), w1) /\
    transition s1 (RecordPower 0 "left" 1.5%float) w1 = (Returns (Ok s2), w2) /\
    readings w1 s1 =
      <[0 := <[("left" : string) := 1.5%float]>
               (default ∅ (readings sample_world sample_running !! 0))]>
        (readings sample_world sample_running) /\
    (forall stage', stage' <> "left" ->
       default ∅ (readings w1 s1 !! 0) !! stage' =
       default ∅ (readings sample_world sample_running !! 0) !! stage') /\
    extends sample_world w2 /\
    readings w2 sample_running = readings sample_world sample_running /\
    value_of w2 s2 = replace_timestamp (timestamp s2) (value_of w1 s1).
Proof.
  split; [reflexivity|]. split; [exact sample_running_wf|].
  exact (record_power_merges_on_a_copy sample_world sample_running 0 "left"
           1.5%float eq_refl sample_running_wf).
Defined.

(** C4, as stated, fails: the state after recording the same triple twice
    is not equal to the state after recording it once, as [transition] stamps
    every new state with the time of the call. *)
Lemma record_power_twice_changes_timestamp :
  exists s1 w1 s2 w2,
    transition sample_running (RecordPower 0 "left" 1.5%float) sample_world
      = (Returns (Ok s1), w1) /\
    transition s1 (RecordPower 0 "left" 1.5%float) w1 = (Returns (Ok s2), w2) /\
    value_of w2 s2 <> value_of w1 s1.
Proof.
  destruct (record_power_effect sample_world sample_running 0 "left"
              1.5%float eq_refl sample_running_wf)
    as (s1 & w1 & H1 & Hs1 & _ & Hck1 & Hn1 & Hwf1 & _).
  assert (Hact1 : is_active s1 = true) by (by rewrite Hs1).
  destruct (record_power_effect w1 s1 0 "left" 1.5%float Hact1 Hwf1)
    as (s2 & w2 & H2 & Hs2 & _).
  exists s1, w1, s2, w2. split; [exact H1|]. split; [exact H2|].
  intros H. apply (f_equal timestamp) in H. unfold value_of in H.
  rewrite Hs2, Hs1 in H. cbn [timestamp replace_power_readings replace_timestamp] in H.
  rewrite Hck1, Hn1 in H.
  apply (f_equal (fun t => PrimFloat.eqb t 1%float)) in H.
  vm_compute in H. discriminate H.
Qed.

(** *** The state machine never raises *)

(** C6: for every state, event and store, [transition] returns a [Result]: it
    neither raises nor blocks; an event of an unrecognized class gets an [Err]
    that names the class, and the store stays as it was. *)
Theorem transition_never_raises (w : World) (state : MeasurementState)
    (event : MeasurementEvent) :
  exists result w',
    transition state event w = (Returns result, w') /\
    forall type_name, event = OtherEvent type_name ->
      result = Err ("Unknown event type: " +:+ type_name) /\ w' = w.
Proof.
  destruct event;
    try (unfold transition;
         match goal with
         | |- context [if ?b then _ else _] => destruct b
         end;
         eexists _, _; (split; [reflexivity|]); intros ? [=]).
  - destruct (is_active state) eqn:Hact.
    + eexists _, _. split; [by apply transition_record_power|]. intros ? [=].
    + eexists _, _. unfold transition. rewrite Hact.
      split; [reflexivity|]. intros ? [=].
  - eexists _, _. split; [reflexivity|]. intros ? [= ->]. done.
Qed.

(** *** Counting the devices with readings *)

Lemma size_filter_values {K} `{Countable K} {V} (P : V -> Prop)
    (Hpair : forall kv : K * V, Decision (P kv.2))
    (Hval : forall v, Decision (P v)) (m : gmap K V) :
  size (@filter _ _ _ (fun kv : K * V => P kv.2) Hpair m)
  = length (@filter _ _ _ P Hval (snd <$> map_to_list m)).
Proof.
  induction m as [|i x m Hi IH] using map_ind.
  - by rewrite map_filter_empty, map_to_list_empty, map_size_empty.
  - rewrite map_to_list_insert by done. rewrite fmap_cons. simpl.
    destruct (decide (P x)) as [Hx|Hx].
    + rewrite map_filter_insert_True by done.
      rewrite map_size_insert_None by (by apply map_lookup_filter_None_2; left).
      rewrite filter_cons_True by done. simpl. by rewrite IH.
    + rewrite map_filter_insert_not' by (simpl; naive_solver).
      rewrite filter_cons_False by done. by rewrite IH.
Qed.

Lemma dict_truthy_ne_empty {K} `{Countable K} {V} (d : gmap K V) :
  dict_truthy d = true <-> d <> ∅.
Proof.
  unfold dict_truthy. rewrite negb_true_iff, Nat.eqb_neq.
  by rewrite map_size_empty_iff.
Qed.

Lemma successful_devices_counts (w : World) (s : MeasurementState) :
  successful_devices w s = count_devices_with_readings (readings w s).
Proof.
  unfold successful_devices, count_devices_with_readings, devices_with_readings.
  f_equal. rewrite size_dom.
  etrans; [|symmetry;
            apply (size_filter_values (fun p : gmap string float => p <> ∅) _ _)].
  f_equal. apply list_filter_iff. intros p. apply dict_truthy_ne_empty.
Qed.

Lemma elem_of_devices_with_readings (m : gmap Z (gmap string float)) dev :
  dev ∈ devices_with_readings m <-> exists p, m !! dev = Some p /\ p <> ∅.
Proof.
  unfold devices_with_readings. rewrite elem_of_dom. unfold is_Some.
  setoid_rewrite map_lookup_filter_Some. simpl. naive_solver.
Qed.

(** What an accepted [StartDevice] does: the readings stay. *)
Lemma start_device_effect (w : World) (state : MeasurementState) (dev : Z)
    (s1 : MeasurementState) (w1 : World) :
  transition state (StartDevice dev) w = (Returns (Ok s1), w1) ->
  power_readings s1 = power_readings state /\
  device_dicts w1 = device_dicts w /\ stage_dicts w1 = stage_dicts w.
Proof.
  unfold transition.
  destruct (negb _); [intros [=]|].
  unfold bind, now, ret. intros [= <- <-].
  by destruct (bool_decide (status state = CALIBRATING)).
Qed.

Lemma apply_events_records (events : list MeasurementEvent) :
  forall (w : World) (state : MeasurementState) (w' : World)
         (state' : MeasurementState),
    wf_state w state ->
    forallb record_or_start events = true ->
    apply_events state events w = (Returns (Ok state'), w') ->
    wf_state w' state' /\
    forall dev,
      (dev ∈ devices_with_readings (readings w state) \/
       exists stage power, In (RecordPower dev stage power) events) ->
      dev ∈ devices_with_readings (readings w' state').
Proof.
  induction events as [|event rest IH]; intros w state w' state' Hwf Hall Hrun.
  - injection Hrun as <- <-. split; [done|]. intros dev [H|(? & ? & [])]. done.
  - simpl in Hall. apply andb_true_iff in Hall as [Hev Hrest].
    cbn [apply_events] in Hrun. unfold bind in Hrun.
    destruct (transition state event w) as [[[s1|reason]|exc|] w1] eqn:Hstep;
      try discriminate Hrun.
    destruct event; try discriminate Hev.
    + (* StartDevice *)
      destruct (start_device_effect _ _ _ _ _ Hstep) as (Hpr & Hdd & Hsd).
      assert (Hread : readings w1 s1 = readings w state).
      { unfold readings, readings_at, device_dict_at, stage_dict_at.
        by rewrite Hpr, Hdd, Hsd. }
      assert (Hwf1 : wf_state w1 s1).
      { destruct Hwf as [Hl Hin]. unfold wf_state, device_dict_at in *.
        by rewrite Hpr, Hdd, Hsd. }
      destruct (IH w1 s1 w' state' Hwf1 Hrest Hrun) as [Hwf' Hin'].
      split; [done|]. intros d [Hd|(stage & power & [[=]|Hd])].
      * apply Hin'. left. by rewrite Hread.
      * apply Hin'. right. eauto.
    + (* RecordPower *)
      assert (Hact : is_active state = true).
      { unfold transition in Hstep. destruct (is_active state); [done|].
        discriminate Hstep. }
      destruct (record_power_effect w state device_index stage power_dbm
                  Hact Hwf) as (s1' & w1' & Hstep' & _ & _ & _ & _ & Hwf1 & Hr1).
      rewrite Hstep in Hstep'. injection Hstep' as <- <-.
      destruct (IH w1 s1 w' state' Hwf1 Hrest Hrun) as [Hwf' Hin'].
      split; [done|].
      assert (Hhere : forall d,
                d = device_index \/ d ∈ devices_with_readings (readings w state) ->
                d ∈ devices_with_readings (readings w1 s1)).
      { intros d Hd. apply elem_of_devices_with_readings. rewrite Hr1.
        destruct (decide (d = device_index)) as [->|Hne].
        - rewrite lookup_insert_eq. eexists. split; [done|].
          apply insert_non_empty.
        - rewrite lookup_insert_ne by done.
          destruct Hd as [Hd|Hd]; [done|].
          by apply elem_of_devices_with_readings. }
      intros d [Hd|(st & pw & [[= -> _ _]|Hd])].
      * apply Hin'. left. apply Hhere. by right.
      * apply Hin'. left. apply Hhere. by left.
      * apply Hin'. right. eauto.
Qed.

(** C8: after every sequence of accepted [RecordPower] and [StartDevice]
    events, [successful_devices] is the number of device indices whose stage
    mapping in [power_readings] is non-empty; from a well-formed state, every
    device for which a power was recorded is among them. *)
Theorem successful_devices_counts_devices_with_readings
    (w : World) (state : MeasurementState) (events : list MeasurementEvent)
    (w' : World) (state' : MeasurementState) :
  forallb record_or_start events = true ->
  apply_events state events w = (Returns (Ok state'), w') ->
  successful_devices w' state'
    = count_devices_with_readings (readings w' state') /\
  (wf_state w state ->
   forall dev stage power, In (RecordPower dev stage power) events ->
     dev ∈ devices_with_readings (readings w' state')).
Proof.
  intros Hall Hrun. split; [apply successful_devices_counts|].
  intros Hwf dev stage power Hin.
  destruct (apply_events_records events w state w' state' Hwf Hall Hrun)
    as [_ H].
  apply H. right. eauto.
Qed.

Lemma successful_devices_counts_devices_with_readings_witness :
  let events := [StartDevice 0; RecordPower 0 "left" 1.5%float;
                 RecordPower 2 "right" 0.5%float] in
  let outcome := apply_events sample_running events sample_world in
  let state' := match outcome.1 with
                | Returns (Ok s) => s
                | _ => sample_running
                end in
  successful_devices outcome.2 state' = 2 /\
  successful_devices outcome.2 state'
    = count_devices_with_readings (readings outcome.2 state') /\
  (wf_state sample_world sample_running ->
   forall dev stage power, In (RecordPower dev stage power) events ->
     dev ∈ devices_with_readings (readings outcome.2 state')).
Proof.
  split; [vm_compute; reflexivity|].
  apply (successful_devices_counts_devices_with_readings sample_world
           sample_running).
  - reflexivity.
  - vm_compute. reflexivity.
Defined.

(** *** Comparisons of floats *)

Lemma SFcompare_swap (a b : spec_float) :
  SFcompare b a = option_map CompOpp (SFcompare a b).
Proof.
  destruct a as [[]| [] | | [] ma ea], b as [[]| [] | | [] mb eb];
    try reflexivity; unfold SFcompare;
    change (Pos.compare_cont Eq mb ma) with (Pos.compare mb ma);
    change (Pos.compare_cont Eq ma mb) with (Pos.compare ma mb);
    rewrite (Z.compare_antisym ea eb), (Pos.compare_antisym ma mb);
    destruct (ea ?= eb)%Z; try reflexivity;
    destruct (ma ?= mb)%positive; reflexivity.
Qed.

(** [v <= t] excludes [v > t]. *)
Lemma leb_not_gt (v t : float) :
  PrimFloat.leb v t = true -> PrimFloat.ltb t v = false.
Proof.
  rewrite leb_spec, ltb_spec. unfold SFleb, SFltb.
  rewrite (SFcompare_swap (Prim2SF v)).
  destruct (SFcompare (Prim2SF v) (Prim2SF t)) as [[]|]; simpl; congruence.
Qed.

(** [v > t] excludes [v <= t]. *)
Lemma gt_not_leb (v t : float) :
  PrimFloat.ltb t v = true -> PrimFloat.leb v t = false.
Proof.
  intros H. destruct (PrimFloat.leb v t) eqn:E; [|done].
  apply leb_not_gt in E. congruence.
Qed.

(** *** Contact-triggered retraction *)

Section Retraction.
Variables (contact_channel z_axis : Z).
Variables (threshold_voltage retract_step_um speed_um_per_s : float).
Variable (max_retract_steps : Z).
Variable (voltage : nat -> float).

Let loop := retract_loop contact_channel z_axis threshold_voltage
              retract_step_um max_retract_steps speed_um_per_s.
Let round := retraction_round contact_channel z_axis retract_step_um
               speed_um_per_s.

(** The loop runs [n] rounds and succeeds when the sensor clears at the
    [n]-th move from here and not before. *)
Lemma retract_loop_clears (n : nat) :
  forall (h : Station) (remaining : nat) (step : Z),
    cooperative voltage h ->
    (n < remaining)%nat ->
    (forall k, (moves h < k <= moves h + n)%nat ->
               PrimFloat.leb (voltage k) threshold_voltage = false) ->
    PrimFloat.leb (voltage (moves h + S n)) threshold_voltage = true ->
    exists h',
      loop remaining step h = (Returns (Ok true), h') /\
      moves h' = (moves h + S n)%nat /\
      calls h' = calls h ++ concat (replicate (S n) round) /\
      cooperative voltage h'.
Proof.
  induction n as [|n IH]; intros h remaining step Hco Hrem Hnot Hclear;
    destruct remaining as [|remaining]; try lia;
    destruct Hco as (Hv & Hm & Hc); destruct h as [ai mr cs m c cl];
    subst loop round;
    cbn [retract_loop moves calls analog_input move_result cancel_is_set] in *.
  - four_calls Hc Hm Hv.
    replace (m + 1)%nat with (S m) in Hclear by lia. rewrite Hclear.
    eexists. split; [reflexivity|]. cbn.
    split; [lia|]. split; [|done].
    rewrite <- !app_assoc. reflexivity.
  - four_calls Hc Hm Hv.
    rewrite (Hnot (S m)) by lia.
    match goal with |- context [retract_loop _ _ _ _ _ _ _ _ ?h0] =>
      destruct (IH h0 remaining (step + 1)) as (h' & Hrun & Hmoves & Hcalls & Hco')
    end.
    + done.
    + lia.
    + cbn. intros k Hk. apply Hnot. lia.
    + cbn. rewrite <- Hclear. do 2 f_equal. lia.
    + exists h'. split; [exact Hrun|]. cbn in *. split; [lia|]. split; [|done].
      rewrite Hcalls. rewrite <- !app_assoc. reflexivity.
Qed.

(** The loop runs all its rounds and fails when the sensor does not clear
    within them. *)
Lemma retract_loop_persists (remaining : nat) :
  forall (h : Station) (step : Z),
    cooperative voltage h ->
    (forall k, (moves h < k <= moves h + remaining)%nat ->
               PrimFloat.leb (voltage k) threshold_voltage = false) ->
    exists h',
      loop remaining step h =
        (Returns (Err ("Contact persisted after " +:+ pretty max_retract_steps
                       +:+ " retraction steps")), h') /\
      moves h' = (moves h + remaining)%nat /\
      calls h' = calls h ++ concat (replicate remaining round) /\
      cooperative voltage h'.
Proof.
  induction remaining as [|remaining IH]; intros h step Hco Hnot.
  - exists h. subst loop round. cbn. split; [reflexivity|].
    split; [lia|]. split; [by rewrite app_nil_r|done].
  - destruct Hco as (Hv & Hm & Hc); destruct h as [ai mr cs m c cl];
      subst loop round;
      cbn [retract_loop moves calls analog_input move_result cancel_is_set] in *.
    four_calls Hc Hm Hv. rewrite (Hnot (S m)) by lia.
    match goal with |- context [retract_loop _ _ _ _ _ _ _ _ ?h0] =>
      destruct (IH h0 (step + 1)) as (h' & Hrun & Hmoves & Hcalls & Hco')
    end.
    + done.
    + cbn. intros k Hk. apply Hnot. lia.
    + exists h'. split; [exact Hrun|]. cbn in *. split; [lia|]. split; [|done].
      rewrite Hcalls. rewrite <- !app_assoc. reflexivity.
Qed.
End Retraction.

Lemma simulated_station_cooperative voltage :
  cooperative voltage (simulated_station voltage).
Proof. by repeat split. Qed.

(** C5: on the simulated station, [check_contact_and_retract] reports no
    contact without a move when the first reading is at or below the
    threshold; with threshold 0.01 V, step 1 um and at most 30 steps it
    succeeds after exactly 5 moves when the sensor first clears after 5 steps,
    and fails with the contact-persisted error after exactly 30 moves when the
    sensor never clears; every move is preceded by a check of the cancellation
    event and followed by a reading of the sensor. *)
Theorem contact_retraction_is_bounded (contact_channel z_axis : Z)
    (speed_um_per_s : float) (voltage : nat -> float) :
  let h := simulated_station voltage in
  (* no contact: nothing moves *)
  (forall threshold_voltage retract_step_um max_retract_steps,
     PrimFloat.leb (voltage 0%nat) threshold_voltage = true ->
     exists h',
       check_contact_and_retract contact_channel z_axis threshold_voltage
         retract_step_um max_retract_steps speed_um_per_s h
       = (Returns (Ok false), h') /\
       moves h' = 0%nat /\ calls h' = [GetAnalogInput contact_channel]) /\
  (* the sensor clears after 5 steps: success after exactly 5 moves *)
  ((forall k, (k < 5)%nat -> PrimFloat.ltb 0.01 (voltage k) = true) ->
   PrimFloat.leb (voltage 5%nat) 0.01 = true ->
   exists h',
     check_contact_and_retract contact_channel z_axis 0.01 1 30
       speed_um_per_s h
     = (Returns (Ok true), h') /\
     moves h' = 5%nat /\
     calls h' = GetAnalogInput contact_channel
                :: rounds 5 contact_channel z_axis 1 speed_um_per_s) /\
  (* the sensor never clears: failure after exactly 30 moves *)
  ((forall k, PrimFloat.ltb 0.01 (voltage k) = true) ->
   exists h',
     check_contact_and_retract contact_channel z_axis 0.01 1 30
       speed_um_per_s h
     = (Returns (Err "Contact persisted after 30 retraction steps"), h') /\
     moves h' = 30%nat /\
     calls h' = GetAnalogInput contact_channel
                :: rounds 30 contact_channel z_axis 1 speed_um_per_s).
Proof.
  intros h. split; [|split].
  - intros thr step max Hle. eexists. unfold check_contact_and_retract.
    cbn. rewrite (leb_not_gt _ _ Hle). cbn. done.
  - intros Habove Hclear. unfold check_contact_and_retract.
    cbn. rewrite (Habove 0%nat) by lia.
    match goal with |- context [retract_loop _ _ _ _ _ _ _ _ ?h0] =>
      destruct (retract_loop_clears contact_channel z_axis 0.01 1
                  speed_um_per_s 30 voltage 4 h0 (Z.to_nat 30) 0)
        as (h' & Hrun & Hmoves & Hcalls & _)
    end.
    + by repeat split.
    + cbn. lia.
    + cbn. intros k Hk. apply gt_not_leb, Habove. lia.
    + exact Hclear.
    + exists h'. split; [exact Hrun|]. split; [exact Hmoves|].
      rewrite Hcalls. reflexivity.
  - intros Habove. unfold check_contact_and_retract.
    cbn. rewrite (Habove 0%nat).
    match goal with |- context [retract_loop _ _ _ _ _ _ _ _ ?h0] =>
      destruct (retract_loop_persists contact_channel z_axis 0.01 1
                  speed_um_per_s 30 voltage (Z.to_nat 30) h0 0)
        as (h' & Hrun & Hmoves & Hcalls & _)
    end.
    + by repeat split.
    + intros k _. apply gt_not_leb, Habove.
    + exists h'. split; [exact Hrun|]. split; [exact Hmoves|].
      rewrite Hcalls. reflexivity.
Qed.

(** The three sensors of the scenario on concrete readings: one that reads
    0.001 V from the start, one that reads 0.5 V until it has been retracted
    5 times, one that reads 0.5 V for ever. *)
Example contact_retraction_on_three_sensors :
  let clear := fun _ : nat => 0.001%float in
  let clears_after_5 := fun k : nat => if (k <? 5)%nat then 0.5%float
                                       else 0.001%float in
  let stuck := fun _ : nat => 0.5%float in
  let check := check_contact_and_retract 1 3 0.01 1 30 100 in
  ((check (simulated_station clear)).1 = Returns (Ok false) /\
   moves (check (simulated_station clear)).2 = 0%nat) /\
  ((check (simulated_station clears_after_5)).1 = Returns (Ok true) /\
   moves (check (simulated_station clears_after_5)).2 = 5%nat) /\
  ((check (simulated_station stuck)).1
     = Returns (Err "Contact persisted after 30 retraction steps") /\
   moves (check (simulated_station stuck)).2 = 30%nat).
Proof. cbv zeta. repeat split; vm_compute; reflexivity. Qed.

(** *** Specifications of stateful code *)

Section Triples.
Context {S : Type}.
Implicit Types (P B : S -> Prop) (X : string -> S -> Prop).

Lemma triple_ret {A} (a : A) P (Q : A -> S -> Prop) X B :
  (forall s, P s -> Q a s) -> triple P (ret a) Q X B.
Proof. intros H s Hs. by apply H. Qed.

Lemma triple_bind {A C} (m : St S A) (k : A -> St S C) P
    (Q : A -> S -> Prop) (R : C -> S -> Prop) X B :
  triple P m Q X B -> (forall a, triple (Q a) (k a) R X B) ->
  triple P (bind m k) R X B.
Proof.
  intros Hm Hk s Hs. unfold bind. specialize (Hm s Hs).
  destruct (m s) as [[a|exc|] s']; [|done..]. by apply Hk.
Qed.

Lemma triple_weaken {A} (m : St S A) P P' (Q Q' : A -> S -> Prop)
    X X' B B' :
  triple P' m Q' X' B' ->
  (forall s, P s -> P' s) -> (forall a s, Q' a s -> Q a s) ->
  (forall e s, X' e s -> X e s) -> (forall s, B' s -> B s) ->
  triple P m Q X B.
Proof.
  intros Hm HP HQ HX HB s Hs. specialize (Hm s (HP s Hs)).
  destruct (m s) as [[a|exc|] s']; eauto.
Qed.

Lemma triple_try_except {A} (body : St S A) (handler : string -> St S A)
    P (Q : A -> S -> Prop) X X' B :
  triple P body Q X' B -> (forall exc, triple (X' exc) (handler exc) Q X B) ->
  triple P (Controller.try_except body handler) Q X B.
Proof.
  intros Hb Hh s Hs. unfold Controller.try_except. specialize (Hb s Hs).
  destruct (body s) as [[a|exc|] s']; [done| |done]. by apply Hh.
Qed.

Lemma triple_finally_exit {A} (exit : St S unit) (body : St S A)
    P (Q Q' : A -> S -> Prop) X X' B :
  triple P body Q' X' B ->
  (forall a, triple (Q' a) exit (fun _ => Q a) X B) ->
  (forall exc, triple (X' exc) exit (fun _ => X exc) X B) ->
  triple P (Controller.finally_exit exit body) Q X B.
Proof.
  intros Hb Hq Hx s Hs. unfold Controller.finally_exit.
  specialize (Hb s Hs).
  destruct (body s) as [[a|exc|] s']; [| |done].
  - specialize (Hq a s' Hb). by destruct (exit s') as [[[]|exc|] s''].
  - specialize (Hx exc s' Hb). by destruct (exit s') as [[[]|exc'|] s''].
Qed.
End Triples.

(** *** What a run shows of itself *)

Lemma deliver_all_state batch c : state (deliver_all batch c) = state c.
Proof.
  revert c. induction batch as [|sig batch IH]; intros c; [done|].
  simpl. rewrite IH. by destruct sig.
Qed.

Lemma wait_resume_state batches :
  forall c, state (wait_resume c batches).1.2 = state c.
Proof.
  induction batches as [|batch rest IH]; intros c; [done|].
  simpl. destruct (_resume_event (deliver_all batch c)); simpl.
  - apply deliver_all_state.
  - rewrite IH. apply deliver_all_state.
Qed.

Section Primitives.
Context (X : string -> Run -> Prop) (B : Run -> Prop).

Lemma triple_get_self (P : Observed -> Prop) :
  triple (on P) get_self (fun _ => on P) X B.
Proof. by intros r Hr. Qed.

Lemma triple_yield (P : Observed -> Prop) (Q : unit -> Observed -> Prop) ev :
  (forall s y a, P (s, y, a) -> Q tt (s, y ++ [(ev, s)], a)) ->
  triple (on P) (yield_ ev) (fun u => on (Q u)) X B.
Proof.
  intros H r Hr. unfold yield_.
  destruct (incoming r); unfold on, observed; cbn;
    rewrite ?deliver_all_state; by apply H.
Qed.

Lemma triple_emit (P : Observed -> Prop) (Q : unit -> Observed -> Prop) make :
  (forall t s y a, P (s, y, a) -> Q tt (s, y ++ [(make t, s)], a)) ->
  triple (on P) (emit make) (fun u => on (Q u)) X B.
Proof.
  intros H r Hr. unfold emit, bind, in_world, now. cbn.
  match goal with |- context [yield_ ?ev ?r0] =>
    apply (triple_yield P Q ev (H _) r0)
  end.
  exact Hr.
Qed.

Lemma triple_await_resume_event (P : Observed -> Prop)
    (Q : unit -> Observed -> Prop) (B' : Observed -> Prop) :
  (forall o, P o -> Q tt o) -> (forall o, P o -> B' o) ->
  triple (on P) await_resume_event (fun u => on (Q u)) X (on B').
Proof.
  intros HQ HB r Hr. unfold await_resume_event.
  destruct (_resume_event (self r)); [by apply HQ|].
  pose proof (wait_resume_state (incoming r) (self r)) as Hst.
  destruct (wait_resume (self r) (incoming r)) as [[released c] rest].
  simpl in Hst.
  destruct released; unfold on, observed in *; cbn; rewrite Hst; auto.
Qed.

Lemma triple_update_self (P : Observed -> Prop) (Q : unit -> Observed -> Prop)
    (f : MeasurementController -> MeasurementController)
    (g : MeasurementState -> MeasurementState) :
  (forall c, state (f c) = g (state c)) ->
  (forall s y a, P (s, y, a) -> Q tt (g s, y, a)) ->
  triple (on P) (update_self f) (fun u => on (Q u)) X B.
Proof.
  intros Hf H r Hr. unfold update_self, on, observed. cbn.
  rewrite Hf. by apply H.
Qed.

Lemma triple_in_world {A} (m : M A) (P : Observed -> Prop) :
  (forall w, exists a w', m w = (Returns a, w')) ->
  triple (on P) (in_world m) (fun _ => on P) X B.
Proof.
  intros Hm r Hr. unfold in_world. destruct (Hm (world r)) as (a & w' & ->).
  exact Hr.
Qed.

Lemma triple_create_client (P : Observed -> Prop) url :
  triple (on P) (create_client url) (fun _ => on P) X B.
Proof. by intros r Hr. Qed.

Lemma triple_client_aenter (P : Observed -> Prop) health l :
  triple (on P) (client_aenter health l) (fun _ => on P) X B.
Proof. by intros r Hr. Qed.
End Primitives.

Lemma triple_client_aexit (P : Observed -> Prop) aclose_error l B :
  triple (on P) (client_aexit aclose_error l) (fun _ => on P)
         (fun _ r => aclose_error <> None /\ on P r) B.
Proof.
  intros r Hr. unfold client_aexit. destruct (clients r !! l) as [c|]; [|done].
  unfold disconnect. destruct (_client c); [|done].
  destruct aclose_error; [|done]. split; [done|]. exact Hr.
Qed.

Lemma transition_returns (w : World) (state : MeasurementState)
    (event : MeasurementEvent) :
  exists result w', transition state event w = (Returns result, w').
Proof.
  destruct event;
    try (unfold transition;
         match goal with
         | |- context [if ?b then _ else _] => destruct b
         end;
         eexists _, _; reflexivity).
  - destruct (is_active state) eqn:Hact.
    + eexists _, _. by apply transition_record_power.
    + eexists _, _. unfold transition. rewrite Hact. reflexivity.
  - eexists _, _. reflexivity.
Qed.

Lemma triple_apply_transition (P : Observed -> Prop)
    (Q : Result MeasurementState -> Observed -> Prop) event X B :
  (forall s y a result w w',
     P (s, y, a) -> transition s event w = (Returns result, w') ->
     Q result (s, y, a ++ [event])) ->
  triple (on P) (apply_transition event) (fun res => on (Q res)) X B.
Proof.
  intros H r Hr. unfold apply_transition.
  destruct (transition_returns (world r) (state (self r)) event)
    as (result & w' & Hstep).
  rewrite Hstep. unfold on, observed. cbn. eapply H; [exact Hr|exact Hstep].
Qed.

Lemma triple_pure {A} (P : Observed -> Prop) (fact : Prop) (m : St Run A)
    Q X B :
  (fact -> triple (on P) m Q X B) ->
  triple (on (fun o => P o /\ fact)) m Q X B.
Proof. intros H r [Hr Hfact]. by apply H. Qed.

(** *** The statuses a run goes through *)

Lemma transition_live (s : MeasurementState) event w result w' :
  live (status s) = true -> orchestrating event = true ->
  transition s event w = (Returns result, w') ->
  forall s', result = Ok s' -> live (status s') = true.
Proof.
  intros Hl He Hstep s' ->.
  destruct s as [st ? ? ? ? ? ? ? ? ? ? ? ?].
  destruct event; try discriminate He;
    destruct st; try discriminate Hl;
    vm_compute in Hstep; by simplify_eq.
Qed.

Lemma stays_live_yield ev s y a :
  stays_live (s, y, a) -> stays_live (s, y ++ [(ev, s)], a).
Proof.
  intros (Hs & Hy & Ha). split; [done|]. split; [|done].
  apply Forall_app. split; [done|]. by apply Forall_singleton.
Qed.

Lemma stays_live_apply event s y a :
  orchestrating event = true ->
  stays_live (s, y, a) -> stays_live (s, y, a ++ [event]).
Proof.
  intros He (Hs & Hy & Ha). split; [done|]. split; [done|].
  apply Forall_app. split; [done|]. by apply Forall_singleton.
Qed.

Lemma stays_live_set_state s' s y a :
  live (status s') = true -> stays_live (s, y, a) -> stays_live (s', y, a).
Proof. intros Hs' (Hs & Hy & Ha). by split. Qed.

Lemma ret_live {A} (a : A) : always_live (ret a).
Proof. by intros r Hr. Qed.

Lemma emit_live make : always_live (emit make).
Proof. apply triple_emit. intros. by apply stays_live_yield. Qed.

(** Applying an orchestrating event and storing the state it gives. *)
Lemma apply_and_store_live {A} event (k : Result MeasurementState -> St Run A)
    Q :
  orchestrating event = true ->
  (forall result,
     triple (on (fun o => stays_live o /\
                          forall s', result = Ok s' -> live (status s') = true))
            (k result) Q (fun _ => on stays_live) (on stays_live)) ->
  triple (on stays_live) (bind (apply_transition event) k) Q
         (fun _ => on stays_live) (on stays_live).
Proof.
  intros He Hk. eapply triple_bind; [|exact Hk].
  apply triple_apply_transition. intros s y a result w w' Hinv Hstep.
  split; [by apply stays_live_apply|].
  destruct Hinv as (Hs & _). by eapply transition_live.
Qed.

Lemma store_result_live (result : Result MeasurementState) :
  triple (on (fun o => stays_live o /\
                       forall s', result = Ok s' -> live (status s') = true))
         (match result with
          | Ok new_state => update_self (set_state new_state)
          | Err _ => ret tt
          end)
         (fun _ => on stays_live) (fun _ => on stays_live) (on stays_live).
Proof.
  apply triple_pure. intros Hres. destruct result as [s'|e].
  - apply (triple_update_self _ _ stays_live (fun _ => stays_live) _
             (fun _ => s')); [done|].
    intros s y a. apply stays_live_set_state. by apply Hres.
  - by apply triple_ret.
Qed.

Lemma process_device_live device : always_live (_process_device device).
Proof.
  unfold _process_device.
  eapply triple_bind; [apply triple_get_self|]. intros c.
  eapply triple_bind; [apply emit_live|]. intros [].
  apply apply_and_store_live; [done|]. intros [new_state|e].
  - apply triple_pure. intros Hres.
    eapply triple_bind.
    { apply (triple_update_self _ _ stays_live (fun _ => stays_live) _
               (fun _ => new_state)); [done|].
      intros s y a. apply stays_live_set_state. by apply Hres. }
    intros []. eapply triple_bind; [apply emit_live|]. intros [].
    apply apply_and_store_live; [done|]. intros result.
    eapply triple_bind; [apply store_result_live|]. intros [].
    apply apply_and_store_live; [done|]. intros result'.
    eapply triple_bind; [apply store_result_live|]. intros [].
    eapply triple_bind; [apply emit_live|]. intros [].
    apply (triple_update_self _ _ stays_live (fun _ => stays_live) _ id);
      [done|]. by intros.
  - apply triple_pure. intros ?.
    eapply triple_bind; [apply emit_live|]. intros []. apply emit_live.
Qed.

Lemma process_devices_live remaining : always_live (process_devices remaining).
Proof.
  induction remaining as [|device rest IH]; cbn [process_devices].
  - apply ret_live.
  - eapply triple_bind; [apply triple_get_self|]. intros c.
    destruct (_cancel_event c).
    + eapply triple_bind; [apply emit_live|]. intros []. apply ret_live.
    + eapply triple_bind.
      { destruct (_pause_event c); [|apply ret_live].
        eapply triple_bind; [apply emit_live|]. intros [].
        eapply triple_bind.
        { apply (triple_await_resume_event _ stays_live (fun _ => stays_live)
                   stays_live); auto. }
        intros []. eapply triple_bind.
        { apply (triple_update_self _ _ stays_live (fun _ => stays_live) _ id);
            [done|]. by intros. }
        intros []. apply emit_live. }
      intros []. eapply triple_bind; [apply process_device_live|].
      intros []. exact IH.
Qed.

Lemma duration_seconds_returns (s : MeasurementState) w :
  exists a w', duration_seconds s w = (Returns a, w').
Proof.
  unfold duration_seconds. destruct (started_at s); [|by eexists _, _].
  destruct (completed_at s) as [c|]; [destruct (float_truthy c)|];
    by eexists _, _.
Qed.

Lemma emit_completed_live : always_live emit_completed.
Proof.
  unfold emit_completed.
  eapply triple_bind; [apply triple_get_self|]. intros c.
  eapply triple_bind.
  { instantiate (1 := fun _ => on stays_live). by intros r Hr. }
  intros r0. eapply triple_bind.
  { apply triple_in_world. apply duration_seconds_returns. }
  intros duration. apply emit_live.
Qed.

Lemma client_aexit_live aclose_error l :
  always_live (client_aexit aclose_error l).
Proof.
  eapply triple_weaken; [apply (triple_client_aexit stays_live)|..]; eauto.
  by intros e s [_ H].
Qed.

Lemma run_live services : always_live (run services).
Proof.
  unfold run. eapply triple_try_except; [|intros exc; apply emit_live].
  eapply triple_bind; [apply triple_get_self|]. intros c.
  eapply triple_bind; [apply emit_live|]. intros [].
  eapply triple_bind; [apply triple_create_client|]. intros su.
  eapply triple_bind; [apply triple_client_aenter|]. intros [].
  eapply triple_finally_exit;
    [|intros; apply client_aexit_live|intros; apply client_aexit_live].
  eapply triple_bind; [apply triple_create_client|]. intros ex.
  eapply triple_bind; [apply triple_client_aenter|]. intros [].
  eapply triple_finally_exit;
    [|intros; apply client_aexit_live|intros; apply client_aexit_live].
  eapply triple_bind.
  { apply (triple_update_self _ _ stays_live (fun _ => stays_live) _ id);
      [done|]. by intros. }
  intros []. apply apply_and_store_live; [done|]. intros [new_state|e].
  - apply triple_pure. intros Hres.
    eapply triple_bind.
    { apply (triple_update_self _ _ stays_live (fun _ => stays_live) _
               (fun _ => new_state)); [done|].
      intros s y a. apply stays_live_set_state. by apply Hres. }
    intros []. eapply triple_bind; [apply process_devices_live|].
    intros [|]; [apply ret_live|apply emit_completed_live].
  - apply triple_pure. intros ?. apply emit_live.
Qed.

Lemma init_returns cfg w :
  exists c w0,
    Controller.init cfg w = (Returns c, w0) /\ status (state c) = IDLE /\
    config c = cfg.
Proof. by eexists _, _. Qed.

(** C10: run() applies only [StartMeasurement], [StartDevice],
    [UpdateOperation] and [CompleteDevice] to its state machine; every
    snapshot that [get_state()] gives, while the run is suspended at a [yield]
    and after the run has ended (or is left blocked), has status [IDLE],
    [CALIBRATING] or [RUNNING], so [is_terminal] is false for all of them. *)
Theorem run_never_reaches_terminal_status (services : Services)
    (cfg : MeasurementConfig) (w : World) (signals : list (list Signal)) :
  exists c w0,
    Controller.init cfg w = (Returns c, w0) /\
    let r := (run services (start_run w0 c signals)).2 in
    Forall (fun event => orchestrating event = true) (applied r) /\
    Forall (fun obs => live (status obs.2) = true /\ is_terminal obs.2 = false)
           (yielded r) /\
    live (status (get_state (self r))) = true /\
    is_terminal (get_state (self r)) = false.
Proof.
  destruct (init_returns cfg w) as (c & w0 & Hinit & Hidle & _).
  exists c, w0. split; [exact Hinit|]. cbv zeta.
  assert (Hlive : forall s : MeasurementState,
            live (status s) = true -> is_terminal s = false).
  { intros s. unfold is_terminal. by destruct (status s). }
  pose proof (run_live services (start_run w0 c signals)) as Hrun.
  assert (Hstart : on stays_live (start_run w0 c signals)).
  { unfold on, observed, stays_live. cbn. rewrite Hidle. by repeat split. }
  specialize (Hrun Hstart).
  assert (Hend : on stays_live (run services (start_run w0 c signals)).2).
  { by destruct (run services (start_run w0 c signals)) as [[[]|exc|] r]. }
  destruct Hend as (Hs & Hy & Ha). unfold observed in *. cbn in Hs, Hy, Ha.
  split; [exact Ha|]. split; [|split; [exact Hs|by apply Hlive]].
  eapply Forall_impl; [exact Hy|]. intros obs Hobs. split; [done|].
  by apply Hlive.
Qed.

(** *** How a run ends *)

Section Endings.
Context (X : string -> Run -> Prop) (B : Run -> Prop).

Lemma events_of_yield s y a ev :
  events_of (s, y ++ [(ev, s)], a) = events_of (s, y, a) ++ [ev].
Proof. unfold events_of. cbn. by rewrite map_app. Qed.

Lemma emit_quiet make :
  (forall t, terminal (event_type (make t)) = false) ->
  triple quiet (emit make) (fun _ => quiet) X B.
Proof.
  intros Hmake.
  apply (triple_emit X B (fun o => no_terminal (events_of o))
           (fun _ o => no_terminal (events_of o))).
  intros t s y a H. rewrite events_of_yield.
  apply Forall_app. split; [done|]. by apply Forall_singleton.
Qed.

Lemma emit_final make :
  (forall t, terminal (event_type (make t)) = true) ->
  triple quiet (emit make) (fun _ => ended) X B.
Proof.
  intros Hmake.
  apply (triple_emit X B (fun o => no_terminal (events_of o))
           (fun _ o => ends_with_one_terminal (events_of o))).
  intros t s y a H. rewrite events_of_yield. by eexists _, _.
Qed.

Lemma emit_paused idx :
  triple quiet (emit (fun t => MeasurementPaused t idx)) (fun _ => pausing) X B.
Proof.
  apply (triple_emit X B (fun o => no_terminal (events_of o))
           (fun _ o => waits_at_pause (events_of o))).
  intros t s y a H. rewrite events_of_yield. split.
  - apply Forall_app. split; [done|]. by apply Forall_singleton.
  - by eexists _, _.
Qed.

Lemma apply_transition_quiet event :
  triple quiet (apply_transition event) (fun _ => quiet) X B.
Proof.
  apply (triple_apply_transition (fun o => no_terminal (events_of o))
           (fun _ o => no_terminal (events_of o))).
  by intros.
Qed.

Lemma update_self_quiet f :
  triple quiet (update_self f) (fun _ => quiet) X B.
Proof. by intros r Hr. Qed.

Lemma store_result_quiet (result : Result MeasurementState) :
  triple quiet
         (match result with
          | Ok new_state => update_self (set_state new_state)
          | Err _ => ret tt
          end) (fun _ => quiet) X B.
Proof. destruct result; by intros r Hr. Qed.

Lemma process_device_quiet device :
  triple quiet (_process_device device) (fun _ => quiet) X B.
Proof.
  unfold _process_device.
  eapply triple_bind; [apply triple_get_self|]. intros c.
  eapply triple_bind; [by apply emit_quiet|]. intros [].
  eapply triple_bind; [apply apply_transition_quiet|]. intros [new_state|e].
  - eapply triple_bind; [apply update_self_quiet|]. intros [].
    eapply triple_bind; [by apply emit_quiet|]. intros [].
    eapply triple_bind; [apply apply_transition_quiet|]. intros result.
    eapply triple_bind; [apply store_result_quiet|]. intros [].
    eapply triple_bind; [apply apply_transition_quiet|]. intros result'.
    eapply triple_bind; [apply store_result_quiet|]. intros [].
    eapply triple_bind; [by apply emit_quiet|]. intros [].
    apply update_self_quiet.
  - eapply triple_bind; [by apply emit_quiet|]. intros [].
    by apply emit_quiet.
Qed.
End Endings.

(** The loop over the devices ends after a [measurement_cancelled], or with
    no terminal event yet, or never: blocked after a [measurement_paused]. *)
Lemma process_devices_endings X remaining :
  triple quiet (process_devices remaining)
         (fun exit => match exit with
                      | Returned => ended
                      | Exhausted => quiet
                      end) X pausing.
Proof.
  induction remaining as [|device rest IH]; cbn [process_devices].
  - by intros r Hr.
  - eapply triple_bind; [apply triple_get_self|]. intros c.
    destruct (_cancel_event c).
    + eapply triple_bind; [by apply emit_final|]. intros []. by intros r Hr.
    + eapply triple_bind.
      { instantiate (1 := fun _ => quiet).
        destruct (_pause_event c); [|by intros r Hr].
        eapply triple_bind; [apply emit_paused|]. intros [].
        eapply triple_bind.
        { apply (triple_await_resume_event X
                   (fun o => waits_at_pause (events_of o))
                   (fun _ o => no_terminal (events_of o))
                   (fun o => waits_at_pause (events_of o)));
            [by intros o [H _]|done]. }
        intros []. eapply triple_bind; [apply update_self_quiet|]. intros [].
        by apply emit_quiet. }
      intros []. eapply triple_bind; [apply process_device_quiet|].
      intros []. exact IH.
Qed.

Lemma emit_completed_final X B :
  triple quiet emit_completed (fun _ => ended) X B.
Proof.
  unfold emit_completed.
  eapply triple_bind; [apply triple_get_self|]. intros c.
  eapply triple_bind.
  { instantiate (1 := fun _ => quiet). by intros r Hr. }
  intros r0. eapply triple_bind.
  { apply triple_in_world. apply duration_seconds_returns. }
  intros duration. by apply emit_final.
Qed.

(** Closing a client that closes without an exception. *)
Lemma client_aexit_clean (P : Observed -> Prop) l X B :
  triple (on P) (client_aexit None l) (fun _ => on P) X B.
Proof.
  eapply triple_weaken; [apply (triple_client_aexit P None l B)|..]; eauto.
  by intros e s [H _].
Qed.

Lemma run_endings services :
  suruga_aclose_error services = None ->
  exfo_aclose_error services = None ->
  triple quiet (run services) (fun _ => ended) (fun _ _ => False) pausing.
Proof.
  intros Hsu Hex. unfold run. rewrite Hsu, Hex.
  eapply triple_try_except with (X' := fun _ _ => False); [|by intros exc r []].
  eapply triple_bind; [apply triple_get_self|]. intros c.
  eapply triple_bind; [by apply emit_quiet|]. intros [].
  eapply triple_bind; [apply triple_create_client|]. intros su.
  eapply triple_bind; [apply triple_client_aenter|]. intros [].
  eapply triple_finally_exit with (X' := fun _ _ => False);
    [|intros; apply client_aexit_clean|by intros exc r []].
  eapply triple_bind; [apply triple_create_client|]. intros ex.
  eapply triple_bind; [apply triple_client_aenter|]. intros [].
  eapply triple_finally_exit with (X' := fun _ _ => False);
    [|intros; apply client_aexit_clean|by intros exc r []].
  eapply triple_bind; [apply update_self_quiet|]. intros [].
  eapply triple_bind; [apply apply_transition_quiet|]. intros [new_state|e].
  - eapply triple_bind; [apply update_self_quiet|]. intros [].
    eapply triple_bind; [apply process_devices_endings|].
    intros [|]; [by intros r Hr|apply emit_completed_final].
  - by apply emit_final.
Qed.

(** C2, as the code has it: when closing the two hardware connections raises
    no exception, a run either ends, and then its event sequence is non-empty
    and ends with a terminal event that is the only one in it, or it never
    ends: it stays blocked at a pause checkpoint, its last event is
    [measurement_paused] and no terminal event has been yielded. *)
Theorem run_ends_with_one_terminal_event_or_waits (services : Services)
    (w : World) (c : MeasurementController) (signals : list (list Signal)) :
  suruga_aclose_error services = None ->
  exfo_aclose_error services = None ->
  match run services (start_run w c signals) with
  | (Returns _, r) => ends_with_one_terminal (events r)
  | (Blocks, r) => waits_at_pause (events r)
  | (Raises _, _) => False
  end.
Proof.
  intros Hsu Hex.
  apply (run_endings services Hsu Hex (start_run w c signals)).
  by apply Forall_nil.
Qed.


Lemma sample_controller_fresh :
  Controller.init sample_config blank_world
  = (Returns sample_controller, sample_store).
Proof. reflexivity. Qed.

(** The kind of the last event of a sequence that ends with its one terminal
    event is terminal. *)
Lemma ended_last_type evs :
  ends_with_one_terminal evs ->
  exists kind, last (map event_type evs) = Some kind /\ terminal kind = true.
Proof.
  intros (before & final & -> & _ & Hfinal). exists (event_type final).
  split; [|exact Hfinal]. rewrite map_app. cbn [map]. apply last_snoc.
Qed.

(** C2, as stated, fails: with [pause()] called once and [resume()] never,
    the run of a fresh controller yields [measurement_started] and
    [measurement_paused] and then waits for ever; its event sequence does not
    end with a terminal event. *)
Lemma run_paused_and_never_resumed_has_no_terminal_event :
  exists r,
    run healthy (start_run sample_store sample_controller [[SigPause]])
      = (Blocks, r) /\
    map event_type (events r) = [measurement_started; measurement_paused] /\
    ~ ends_with_one_terminal (events r).
Proof.
  exists (run healthy
            (start_run sample_store sample_controller [[SigPause]])).2.
  split; [vm_compute; reflexivity|].
  assert (Hkinds :
    map event_type
        (events (run healthy
                   (start_run sample_store sample_controller [[SigPause]])).2)
    = [measurement_started; measurement_paused]) by (vm_compute; reflexivity).
  split; [exact Hkinds|].
  intros Hended. apply ended_last_type in Hended as (kind & Hlast & Hterm).
  rewrite Hkinds in Hlast. injection Hlast as <-. discriminate Hterm.
Qed.

Lemma run_ends_with_one_terminal_event_or_waits_witness :
  suruga_aclose_error healthy = None /\
  exfo_aclose_error healthy = None /\
  match run healthy (start_run sample_store sample_controller []) with
  | (Returns _, r) => ends_with_one_terminal (events r)
  | (Blocks, r) => waits_at_pause (events r)
  | (Raises _, _) => False
  end.
Proof.
  split; [reflexivity|]. split; [reflexivity|].
  apply (run_ends_with_one_terminal_event_or_waits healthy sample_store
           sample_controller []); reflexivity.
Defined.

(** When closing a connection raises after the run has yielded its terminal
    event, the handler of [run()] yields a [measurement_failed] after it. *)
Example run_close_error_after_cancel :
  let out := run (mkServices (HealthStatus 200) (HealthStatus 200) None
                             (Some "connection lost"))
                 (start_run sample_store sample_controller [[SigCancel]]) in
  out.1 = Returns tt /\
  map event_type (events out.2)
    = [measurement_started; measurement_cancelled; measurement_failed].
Proof. split; vm_compute; reflexivity. Qed.

(** C3 at its input: three devices; [pause()] is called once, while the
    consumer has the [device_completed] of device 0; [resume()] is called once,
    while the run is blocked at the checkpoint.  The run resumes, goes through
    the pipeline of the next device, and pauses again at the following
    checkpoint, where it stays blocked: the pause event is never cleared. *)
Theorem run_pauses_again_after_resume :
  exists r,
    run healthy
        (start_run sample_store sample_controller
                   [[]; []; []; [SigPause]; []; [SigResume]])
      = (Blocks, r) /\
    map event_type (events r)
      = [measurement_started;
         device_started; device_moving; device_completed;
         measurement_paused; measurement_resumed;
         device_started; device_moving; device_completed;
         measurement_paused] /\
    _pause_event (self r) = true /\ _resume_event (self r) = false.
Proof.
  exists (run healthy
            (start_run sample_store sample_controller
                       [[]; []; []; [SigPause]; []; [SigResume]])).2.
  split; [vm_compute; reflexivity|]. split; [vm_compute; reflexivity|].
  split; vm_compute; reflexivity.
Qed.

(** C7 at its input: both hardware services refuse the connection.
    [connect()] turns each failure into an [Err], [__aenter__] drops it, and
    the run goes on through every device to [measurement_completed]; no
    [measurement_failed] is yielded. *)
Theorem run_goes_on_when_connection_fails (suruga_error exfo_error : string) :
  let out := run (mkServices (HealthConnectError suruga_error)
                             (HealthConnectError exfo_error) None None)
                 (start_run sample_store sample_controller []) in
  out.1 = Returns tt /\
  map event_type (events out.2)
    = [measurement_started;
       device_started; device_moving; device_completed;
       device_started; device_moving; device_completed;
       device_started; device_moving; device_completed;
       measurement_completed].
Proof. split; vm_compute; reflexivity. Qed.

(** *** One run at a time *)

Lemma filter_at_most_one {A} (P : A -> Prop) `{!forall x, Decision (P x)}
    (l : list A) :
  (forall i j x y, l !! i = Some x -> l !! j = Some y -> P x -> P y -> i = j) ->
  (length (filter P l) <= 1)%nat.
Proof.
  induction l as [|a l IH]; intros Hsame; [simpl; lia|].
  destruct (decide (P a)) as [Ha|Ha].
  - rewrite filter_cons_True by done.
    assert (Hnone : filter P l = []).
    { destruct (filter P l) as [|y rest] eqn:Hf; [done|].
      assert (Hy : y ∈ filter P l) by (rewrite Hf; left).
      apply list_elem_of_filter in Hy as [Hpy Hy].
      apply list_elem_of_lookup in Hy as [j Hj].
      specialize (Hsame 0%nat (S j) a y eq_refl Hj Ha Hpy). discriminate. }
    rewrite Hnone. simpl. lia.
  - rewrite filter_cons_False by done. apply IH.
    intros i j x y Hi Hj Hx Hy.
    specialize (Hsame (S i) (S j) x y Hi Hj Hx Hy). lia.
Qed.

Lemma start_refused (cfg : MeasurementConfig) (sys : Manager.System) :
  Manager.is_active sys = true ->
  Manager.start cfg sys = (Raises "A measurement is already running", sys).
Proof. intros H. unfold Manager.start. by rewrite H. Qed.

Lemma start_accepted (cfg : MeasurementConfig) (sys : Manager.System) :
  Manager.is_active sys = false ->
  exists c w,
    Controller.init cfg (Manager.world sys) = (Returns c, w) /\
    Manager.start cfg sys =
      (Returns tt,
       Manager.mkSystem w (Manager.controllers sys ++ [c])
         (Manager.tasks sys
          ++ [Manager.mkTask (length (Manager.controllers sys)) false])
         (Manager.mkManager (Some (length (Manager.controllers sys)))
                            (Some (length (Manager.tasks sys))))).
Proof.
  intros H. destruct (init_returns cfg (Manager.world sys))
    as (c & w & Hinit & _).
  exists c, w. split; [exact Hinit|]. unfold Manager.start.
  by rewrite H, Hinit.
Qed.

Lemma one_run_active (sys : Manager.System) t tk :
  one_run sys -> Manager.tasks sys !! t = Some tk ->
  Manager.done tk = false -> Manager.is_active sys = true.
Proof.
  intros [Hcur Hctl] Ht Hdone. unfold Manager.is_active.
  pose proof (Hcur t tk Ht Hdone) as Htask.
  destruct (Manager.controller (Manager.manager sys)) eqn:Hc.
  - rewrite Htask. unfold Manager.task_done. by rewrite Ht, Hdone.
  - exfalso. apply Hctl; [by rewrite Htask|done].
Qed.

Lemma one_run_act (sys : Manager.System) (a : Manager.Action) :
  one_run sys -> one_run (Manager.act sys a).
Proof.
  intros Hinv. destruct a as [cfg|sig|t c w|t]; cbn [Manager.act].
  - destruct (Manager.is_active sys) eqn:Hact.
    + by rewrite (start_refused cfg sys Hact).
    + destruct (start_accepted cfg sys Hact) as (c & w & _ & ->).
      split; cbn; [|done].
      intros t tk Ht Hdone. apply lookup_app_Some in Ht as [Ht|[Hge Ht]].
      * rewrite (one_run_active sys t tk Hinv Ht Hdone) in Hact. discriminate.
      * apply list_lookup_singleton_Some in Ht as [Ht _].
        f_equal. lia.
  - unfold Manager.signal.
    by destruct (Manager.controller (Manager.manager sys)).
  - destruct (Manager.tasks sys !! t) as [tk|]; [|done].
    by destruct (Manager.done tk).
  - destruct (Manager.tasks sys !! t) as [tk|] eqn:Ht; [|done].
    destruct Hinv as [Hcur Hctl]. split; cbn; [|done].
    intros t' tk' Ht' Hdone.
    destruct (decide (t = t')) as [<-|Hne].
    + rewrite list_lookup_insert_eq in Ht'
        by (by apply lookup_lt_Some in Ht).
      injection Ht' as <-. discriminate Hdone.
    + rewrite list_lookup_insert_ne in Ht' by done. by eapply Hcur.
Qed.

Lemma one_run_after (w : World) (history : list Manager.Action) :
  one_run (Manager.after w history).
Proof.
  unfold Manager.after.
  assert (Hboot : one_run (Manager.boot w)) by (by split).
  revert Hboot. generalize (Manager.boot w).
  induction history as [|a history IH]; intros sys Hsys; [done|].
  simpl. apply IH. by apply one_run_act.
Qed.

(** C9: at every moment of the life of the process, [start(config)] called
    while the task of a previous run has not completed raises "A measurement
    is already running" and leaves the process as it was, the controller of
    the first run and its state included; and at most one task is running a
    controller. *)
Theorem start_while_running_is_refused (w : World)
    (history : list Manager.Action) (cfg : MeasurementConfig) :
  let sys := Manager.after w history in
  (Manager.running sys <> [] ->
   Manager.is_active sys = true /\
   Manager.start cfg sys = (Raises "A measurement is already running", sys)) /\
  (length (Manager.running sys) <= 1)%nat.
Proof.
  intros sys. pose proof (one_run_after w history) as Hinv. fold sys in Hinv.
  split.
  - intros Hrun.
    assert (Hact : Manager.is_active sys = true).
    { destruct (Manager.running sys) as [|tk rest] eqn:Hr; [done|].
      assert (Hin : tk ∈ Manager.running sys) by (rewrite Hr; left).
      unfold Manager.running in Hin. apply list_elem_of_filter in Hin as [Hd Hin].
      apply list_elem_of_lookup in Hin as [t Ht].
      by eapply one_run_active. }
    split; [exact Hact|]. by apply start_refused.
  - apply filter_at_most_one. intros i j x y Hi Hj Hx Hy.
    destruct Hinv as [Hcur _].
    pose proof (Hcur i x Hi Hx) as H1. pose proof (Hcur j y Hj Hy) as H2.
    congruence.
Qed.

Example second_start_is_refused_first_run_untouched :
  let sys := Manager.after blank_world [Manager.CallStart sample_config] in
  Manager.running sys = [Manager.mkTask 0 false] /\
  Manager.start sample_config sys
    = (Raises "A measurement is already running", sys) /\
  Manager.running
    (Manager.after blank_world
       [Manager.CallStart sample_config; Manager.TaskEnds 0;
        Manager.CallStart sample_config])
    = [Manager.mkTask 1 false].
Proof. repeat split; vm_compute; reflexivity. Qed.

(* ===================================================================== *)
(** * Further properties of the code                                     *)
(* ===================================================================== *)

(** *** The statuses along a run *)

(** What an accepted transition does to the status and to the fields that go
    with it. *)
Lemma transition_accepted (w : World) (state : MeasurementState)
    (event : MeasurementEvent) (s' : MeasurementState) (w' : World) :
  transition state event w = (Returns (Ok s'), w') ->
  is_terminal state = false /\
  (rank (status state) <= rank (status s'))%nat /\
  status s' <> IDLE /\
  (consistent state -> consistent s').
Proof.
  intros Hstep. destruct event.
  all: try (unfold transition in Hstep;
            destruct state as [st oid cdi td cop pr csi lsa rsa er sa ca ts];
            destruct st; vm_compute in Hstep; try discriminate Hstep;
            injection Hstep as <- <-;
            (split; [reflexivity|]); (split; [simpl; lia|]);
            (split; [discriminate|]);
            unfold consistent, is_terminal; cbn;
            intros (H1 & H2 & H3 & H4);
            repeat split; intros; try discriminate; try congruence;
            try tauto; try (exfalso; intuition congruence); eauto).
  (* RecordPower *)
  destruct (is_active state) eqn:Hact.
  - rewrite (transition_record_power w state _ _ _ Hact) in Hstep.
    injection Hstep as <- <-.
    destruct state as [st oid cdi td cop pr csi lsa rsa er sa ca ts].
    unfold is_active in Hact. cbn in Hact.
    destruct st; try discriminate Hact;
      (split; [reflexivity|]); (split; [simpl; lia|]);
      (split; [discriminate|]); unfold consistent, is_terminal; cbn; tauto.
  - unfold transition in Hstep. rewrite Hact in Hstep. discriminate Hstep.
Qed.

(** An accepted transition never starts from a terminal state, never takes
    the status back (idle, calibrating, measuring, over, in this order) and
    never leads to [IDLE]: the terminal states are final, and a state machine
    that has left [IDLE] accepts no second [StartMeasurement]. *)
Theorem accepted_transition_never_goes_back (w : World)
    (state : MeasurementState) (event : MeasurementEvent)
    (s' : MeasurementState) (w' : World) :
  transition state event w = (Returns (Ok s'), w') ->
  is_terminal state = false /\
  (rank (status state) <= rank (status s'))%nat /\
  status s' <> IDLE.
Proof.
  intros Hstep.
  destruct (transition_accepted w state event s' w' Hstep) as (H1 & H2 & H3 & _).
  auto.
Qed.

Lemma accepted_transition_never_goes_back_witness :
  let out := transition sample_running PauseMeasurement sample_world in
  exists s', out.1 = Returns (Ok s') /\
    is_terminal sample_running = false /\
    (rank (status sample_running) <= rank (status s'))%nat /\
    status s' <> IDLE.
Proof.
  eexists. split; [vm_compute; reflexivity|].
  eapply (accepted_transition_never_goes_back sample_world sample_running
            PauseMeasurement).
  vm_compute. reflexivity.
Defined.

Lemma initial_state_consistent (w : World) :
  exists s0 w0, initial_state w = (Returns s0, w0) /\ consistent s0.
Proof.
  eexists _, _. split; [reflexivity|].
  unfold consistent, is_terminal. cbn.
  repeat split; intros; try discriminate; try congruence; eauto.
Qed.

Lemma apply_events_consistent (events : list MeasurementEvent) :
  forall (w : World) (state : MeasurementState) (s' : MeasurementState)
         (w' : World),
    consistent state ->
    apply_events state events w = (Returns (Ok s'), w') -> consistent s'.
Proof.
  induction events as [|event rest IH]; intros w state s' w' Hc Hrun.
  - by injection Hrun as <- <-.
  - cbn [apply_events] in Hrun. unfold bind in Hrun.
    destruct (transition state event w) as [[[s1|reason]|exc|] w1] eqn:Hstep;
      try discriminate Hrun.
    eapply IH; [|exact Hrun].
    by apply (transition_accepted w state event s1 w1 Hstep).
Qed.

(** Every state reached from [initial_state()] by accepted events has the
    fields that go with its status: no start time while [IDLE], a start time
    in every other status but [FAILED], a completion time exactly in the
    terminal statuses, an error exactly in [FAILED]. *)
Theorem reachable_states_are_consistent (w : World)
    (events : list MeasurementEvent) :
  exists s0 w0,
    initial_state w = (Returns s0, w0) /\
    forall s' w', apply_events s0 events w0 = (Returns (Ok s'), w') ->
      consistent s'.
Proof.
  destruct (initial_state_consistent w) as (s0 & w0 & Hinit & Hc).
  exists s0, w0. split; [exact Hinit|]. intros s' w' Hrun.
  by eapply apply_events_consistent.
Qed.

(** *** Readings recorded one after the other *)

Lemma devices_with_readings_insert (m : gmap Z (gmap string float)) dev p :
  p <> ∅ ->
  devices_with_readings (<[dev := p]> m) = {[dev]} ∪ devices_with_readings m.
Proof.
  intros Hp. apply set_eq. intros d.
  rewrite elem_of_union, elem_of_singleton, !elem_of_devices_with_readings.
  destruct (decide (d = dev)) as [->|Hne].
  - rewrite lookup_insert_eq. split; [by left|]. intros _. by exists p.
  - rewrite lookup_insert_ne by done. split; [by right|]. by intros [|].
Qed.

Lemma record_power_active (w : World) (state : MeasurementState)
    dev stage power s1 w1 :
  transition state (RecordPower dev stage power) w = (Returns (Ok s1), w1) ->
  is_active state = true /\ status s1 = status state.
Proof.
  intros Hstep. destruct (is_active state) eqn:Hact.
  - rewrite (transition_record_power w state _ _ _ Hact) in Hstep.
    by injection Hstep as <- <-.
  - unfold transition in Hstep. rewrite Hact in Hstep. discriminate Hstep.
Qed.

(** An accepted [RecordPower] raises [successful_devices] by one when the
    device had no reading yet, and leaves it as it was when the device had
    one. *)
Theorem record_power_counts_a_device_once (w : World)
    (state : MeasurementState) (dev : Z) (stage : string) (power : float) :
  is_active state = true -> wf_state w state ->
  exists s1 w1,
    transition state (RecordPower dev stage power) w = (Returns (Ok s1), w1) /\
    successful_devices w1 s1 =
      successful_devices w state
      + (if bool_decide (dev ∈ devices_with_readings (readings w state))
         then 0 else 1).
Proof.
  intros Hact Hwf.
  destruct (record_power_effect w state dev stage power Hact Hwf)
    as (s1 & w1 & Hstep & _ & _ & _ & _ & _ & Hr).
  exists s1, w1. split; [exact Hstep|].
  rewrite !successful_devices_counts, Hr.
  unfold count_devices_with_readings.
  rewrite devices_with_readings_insert by apply insert_non_empty.
  case_bool_decide as Hin.
  - rewrite (subseteq_union_1_L (C := gset Z)) by set_solver. lia.
  - rewrite size_union by set_solver. rewrite size_singleton. lia.
Qed.

Lemma record_power_counts_a_device_once_witness :
  is_active sample_running = true /\ wf_state sample_world sample_running /\
  exists s1 w1,
    transition sample_running (RecordPower 7 "left" 1.5%float) sample_world
      = (Returns (Ok s1), w1) /\
    successful_devices w1 s1 =
      successful_devices sample_world sample_running
      + (if bool_decide (7 ∈ devices_with_readings
                               (readings sample_world sample_running))
         then 0 else 1).
Proof.
  split; [reflexivity|]. split; [apply sample_running_wf|].
  apply (record_power_counts_a_device_once sample_world sample_running 7
           "left" 1.5%float); [reflexivity|apply sample_running_wf].
Defined.

Lemma record_power_twice (w : World) (state : MeasurementState)
    d1 st1 p1 d2 st2 p2 :
  is_active state = true -> wf_state w state ->
  exists sa wa sb wb,
    transition state (RecordPower d1 st1 p1) w = (Returns (Ok sa), wa) /\
    transition sa (RecordPower d2 st2 p2) wa = (Returns (Ok sb), wb) /\
    let m := readings w state in
    let m1 := <[d1 := <[st1 := p1]> (default ∅ (m !! d1))]> m in
    readings wb sb = <[d2 := <[st2 := p2]> (default ∅ (m1 !! d2))]> m1.
Proof.
  intros Hact Hwf.
  destruct (record_power_effect w state d1 st1 p1 Hact Hwf)
    as (sa & wa & Ha & _ & _ & _ & _ & Hwfa & Hra).
  assert (Hacta : is_active sa = true).
  { destruct (record_power_active _ _ _ _ _ _ _ Ha) as [_ Hst].
    unfold is_active in *. by rewrite Hst. }
  destruct (record_power_effect wa sa d2 st2 p2 Hacta Hwfa)
    as (sb & wb & Hb & _ & _ & _ & _ & _ & Hrb).
  exists sa, wa, sb, wb. split; [exact Ha|]. split; [exact Hb|].
  cbv zeta. by rewrite Hrb, Hra.
Qed.

(** Two accepted [RecordPower] events for different (device, stage) pairs
    give the same readings in either order; for the same pair the second
    power replaces the first, as if the first had not been recorded. *)
Theorem record_power_order_and_overwrite (w : World)
    (state : MeasurementState) (d1 d2 : Z) (st1 st2 : string)
    (p1 p2 : float) :
  is_active state = true -> wf_state w state ->
  exists sa wa sb wb sa' wa' sb' wb',
    transition state (RecordPower d1 st1 p1) w = (Returns (Ok sa), wa) /\
    transition sa (RecordPower d2 st2 p2) wa = (Returns (Ok sb), wb) /\
    transition state (RecordPower d2 st2 p2) w = (Returns (Ok sa'), wa') /\
    transition sa' (RecordPower d1 st1 p1) wa' = (Returns (Ok sb'), wb') /\
    ((d1, st1) <> (d2, st2) -> readings wb sb = readings wb' sb') /\
    ((d1, st1) = (d2, st2) -> readings wb sb = readings wa' sa').
Proof.
  intros Hact Hwf.
  destruct (record_power_twice w state d1 st1 p1 d2 st2 p2 Hact Hwf)
    as (sa & wa & sb & wb & Ha & Hb & Hr).
  destruct (record_power_twice w state d2 st2 p2 d1 st1 p1 Hact Hwf)
    as (sa' & wa' & sb' & wb' & Ha' & Hb' & Hr').
  destruct (record_power_effect w state d2 st2 p2 Hact Hwf)
    as (sa2 & wa2 & Ha2 & _ & _ & _ & _ & _ & Hr2).
  rewrite Ha' in Ha2. injection Ha2 as <- <-.
  exists sa, wa, sb, wb, sa', wa', sb', wb'.
  repeat (split; [assumption|]). cbv zeta in Hr, Hr'. split.
  - intros Hne. rewrite Hr, Hr'.
    destruct (decide (d1 = d2)) as [<-|Hd].
    + assert (Hst : st1 <> st2) by congruence.
      rewrite !lookup_insert_eq. cbn [default from_option id].
      rewrite !insert_insert_eq.
      f_equal. by apply insert_insert_ne.
    + rewrite !lookup_insert_ne by congruence.
      apply insert_insert_ne. congruence.
  - intros [= <- <-]. rewrite Hr, Hr2.
    rewrite lookup_insert_eq. cbn [default from_option id].
    by rewrite !insert_insert_eq.
Qed.

Lemma record_power_order_and_overwrite_witness :
  is_active sample_running = true /\ wf_state sample_world sample_running /\
  exists sa wa sb wb sa' wa' sb' wb',
    transition sample_running (RecordPower 0 "left" 1.5%float) sample_world
      = (Returns (Ok sa), wa) /\
    transition sa (RecordPower 0 "right" 0.5%float) wa = (Returns (Ok sb), wb) /\
    transition sample_running (RecordPower 0 "right" 0.5%float) sample_world
      = (Returns (Ok sa'), wa') /\
    transition sa' (RecordPower 0 "left" 1.5%float) wa'
      = (Returns (Ok sb'), wb') /\
    ((0, "left") <> (0, "right") -> readings wb sb = readings wb' sb') /\
    ((0, "left") = (0, "right") -> readings wb sb = readings wa' sa').
Proof.
  split; [reflexivity|]. split; [apply sample_running_wf|].
  apply (record_power_order_and_overwrite sample_world sample_running 0 0
           "left" "right" 1.5%float 0.5%float);
    [reflexivity|apply sample_running_wf].
Defined.

(** *** The base URL of a client *)

Lemma rstrip_slash_spec (s : string) :
  last_char (rstrip_slash s) <> Some "/"%char /\
  exists n, s = rstrip_slash s +:+ slashes n.
Proof.
  induction s as [|c s [IHlast [n IHn]]]; [split; [done|by exists 0%nat]|].
  cbn [rstrip_slash]. destruct (rstrip_slash s) as [|c' r] eqn:Hr.
  - destruct (Ascii.eqb_spec c "/") as [->|Hc].
    + split; [done|]. exists (S n). by rewrite IHn at 1.
    + split; [simpl; congruence|]. exists n. by rewrite IHn at 1.
  - split; [exact IHlast|]. exists n. by rewrite IHn at 1.
Qed.

(** [__init__] keeps the URL without its trailing slashes: the base URL does
    not end with a slash, and the URL is the base URL followed by slashes
    only. *)
Theorem new_client_strips_trailing_slashes (url : string) (tmo : float) :
  last_char (base_url (new_client url tmo)) <> Some "/"%char /\
  exists n, url = base_url (new_client url tmo) +:+ slashes n.
Proof. apply rstrip_slash_spec. Qed.

(** *** The connection lifecycle of a client *)


(** [disconnect()] either returns, and then the client is not connected, has
    no HTTP client object, and any further [disconnect()] returns and changes
    nothing, whatever closing would do; or it raises what closing the HTTP
    client raised, and then the client is exactly as it was, its
    [_connected] flag included. *)
Theorem disconnect_closes_once (aclose_error again : option string)
    (c : BaseHardwareClient) :
  match disconnect aclose_error c with
  | (Returns _, c') =>
      is_connected c' = false /\ _client c' = false /\
      base_url c' = base_url c /\ timeout c' = timeout c /\
      disconnect again c' = (Returns tt, c') /\
      (_client c = true -> aclose_error = None)
  | (Raises msg, c') =>
      c' = c /\ _client c = true /\ aclose_error = Some msg
  | (Blocks, _) => False
  end.
Proof.
  unfold disconnect, is_connected.
  destruct c as [url tmo [] conn], aclose_error as [msg|]; cbn;
    repeat split; intros; try done.
Qed.


(** *** Retraction on any station *)

Section AnyStation.
Variables (contact_channel z_axis : Z).
Variables (threshold_voltage retract_step_um speed_um_per_s : float).
Variable (max_retract_steps : Z).

Let ours := retraction_call contact_channel z_axis retract_step_um
              speed_um_per_s.

Lemma retract_loop_bounded (remaining : nat) :
  forall (step : Z) (h : Station),
  exists result h',
    retract_loop contact_channel z_axis threshold_voltage retract_step_um
      max_retract_steps speed_um_per_s remaining step h = (Returns result, h') /\
    result <> Ok false /\
    analog_input h' = analog_input h /\ move_result h' = move_result h /\
    cancel_is_set h' = cancel_is_set h /\
    exists made,
      calls h' = calls h ++ made /\ Forall ours made /\
      moves h' = (moves h + length (filter (fun c => is_move c = true) made))%nat /\
      (moves h' <= moves h + remaining)%nat /\
      (result = Ok true ->
       (moves h < moves h')%nat /\
       exists v, analog_input h (moves h') = Ok v /\
                 PrimFloat.leb v threshold_voltage = true).
Proof.
  induction remaining as [|remaining IH]; intros step h.
  - eexists _, _. split; [reflexivity|]. split; [done|].
    repeat (split; [reflexivity|]). exists []. rewrite app_nil_r.
    splits; simpl; try lia; try done.
  - cbn [retract_loop]. unfold bind at 1. unfold cancel_event_is_set at 1.
    destruct (cancel_is_set h (cancel_checks h)) eqn:Hc.
    + eexists _, _. split; [reflexivity|]. split; [done|].
      repeat (split; [reflexivity|]). exists [CancelIsSet].
      splits; simpl; try lia; try done.
      by repeat constructor.
    + unfold bind at 1. unfold move_relative at 1.
      cbn [moves calls analog_input move_result cancel_is_set cancel_checks].
      destruct (move_result h (moves h)) as [[]|e] eqn:Hm.
      2:{ eexists _, _. split; [reflexivity|]. split; [done|].
          repeat (split; [reflexivity|]).
          exists [CancelIsSet;
                  MoveRelative z_axis (PrimFloat.opp retract_step_um)
                               speed_um_per_s].
          cbn [calls moves]. rewrite <- app_assoc.
          splits; simpl; try lia; try done.
          by repeat constructor. }
      unfold bind at 1. unfold sleep at 1.
      cbn [moves calls analog_input move_result cancel_is_set cancel_checks].
      unfold bind at 1. unfold get_analog_input at 1.
      cbn [moves calls analog_input move_result cancel_is_set cancel_checks].
      set (round := [CancelIsSet;
                     MoveRelative z_axis (PrimFloat.opp retract_step_um)
                                  speed_um_per_s;
                     Sleep 0.1; GetAnalogInput contact_channel]).
      assert (Hround : Forall ours round) by (by repeat constructor).
      assert (Hcalls : ((((calls h ++ [CancelIsSet]) ++
                 [MoveRelative z_axis (PrimFloat.opp retract_step_um)
                               speed_um_per_s]) ++ [Sleep 0.1]) ++
                 [GetAnalogInput contact_channel]) = calls h ++ round).
      { by rewrite <- !app_assoc. }
      rewrite Hcalls.
      destruct (analog_input h (S (moves h))) as [v|e] eqn:Hv.
      2:{ eexists _, _. split; [reflexivity|]. split; [done|].
          repeat (split; [reflexivity|]). exists round.
          splits; simpl; try lia; try done. }
      destruct (PrimFloat.leb v threshold_voltage) eqn:Hle.
      * eexists _, _. split; [reflexivity|]. split; [done|].
        repeat (split; [reflexivity|]). exists round. cbn [calls moves].
        splits; simpl; try lia; try done.
        intros _. split; [lia|]. exists v.
        by replace (moves h + 1)%nat with (S (moves h)) by lia.
      * match goal with |- context [retract_loop _ _ _ _ _ _ _ ?st ?h0] =>
          destruct (IH st h0)
            as (result & h' & Hrun & Hnf & Ha & Hmr & Hcs & made & Hmade
                & Hours & Hmoves & Hbound & Htrue)
        end.
        cbn [moves calls analog_input move_result cancel_is_set] in *.
        exists result, h'. split; [exact Hrun|]. split; [exact Hnf|].
        repeat (split; [assumption|]). exists (round ++ made).
        split; [by rewrite Hmade, app_assoc|].
        split; [by apply Forall_app|].
        split; [rewrite Hmoves, filter_app, length_app; simpl; lia|].
        split; [lia|].
        intros Hres. destruct (Htrue Hres) as [Hlt Hread].
        split; [lia|exact Hread].
Qed.

(** On any station whose calls return a [Result], whatever they return and
    whenever cancellation is signalled, [check_contact_and_retract] returns,
    and it has made at most [max_retract_steps] moves, each of them a relative
    move of the Z axis by minus the retraction step at the given speed; it
    reports no contact only after the single first reading, and a cleared
    contact only after at least one move, when the reading after the last
    move was at or below the threshold. *)
Theorem retraction_never_exceeds_its_budget (h : Station) :
  exists result h',
    check_contact_and_retract contact_channel z_axis threshold_voltage
      retract_step_um max_retract_steps speed_um_per_s h
    = (Returns result, h') /\
    retracted contact_channel z_axis threshold_voltage retract_step_um
      speed_um_per_s (Z.to_nat max_retract_steps) h result h'.
Proof.
  unfold check_contact_and_retract, retracted.
  unfold bind at 1. unfold get_analog_input at 1.
  destruct (analog_input h (moves h)) as [v|e] eqn:Hv.
  2:{ eexists _, _. split; [reflexivity|].
      repeat (split; [reflexivity|]).
      exists [GetAnalogInput contact_channel].
      splits; simpl; try lia; try done. by repeat constructor. }
  destruct (PrimFloat.ltb threshold_voltage v) eqn:Hgt.
  2:{ eexists _, _. split; [reflexivity|].
      repeat (split; [reflexivity|]).
      exists [GetAnalogInput contact_channel].
      splits; simpl; try lia; try done. by repeat constructor. }
  match goal with |- context [retract_loop _ _ _ _ _ _ ?n ?st ?h0] =>
    destruct (retract_loop_bounded n st h0)
      as (result & h' & Hrun & Hnf & Ha & Hmr & Hcs & made & Hmade
          & Hours & Hmoves & Hbound & Htrue)
  end.
  cbn [moves calls analog_input move_result cancel_is_set] in *.
  exists result, h'. split; [exact Hrun|].
  repeat (split; [assumption|]).
  exists (GetAnalogInput contact_channel :: made).
  split; [by rewrite Hmade, <- app_assoc|].
  split; [by constructor|].
  split; [exact Hmoves|]. split; [exact Hbound|].
  destruct result as [[]|e]; [by apply Htrue|done|done].
Qed.
End AnyStation.

(** *** Moving X with Z retracted *)



(** *** The readers of the station *)

(** On a connected client [get_power] asks channel 1 for the stage "left"
    and channel 2 for any other stage, and [get_analog_input] asks the channel
    it is given; each sends that one request.  When the reply is a JSON object
    they return its "power" (its "voltage") in an [Ok]; when the object lacks
    the key they raise [KeyError] instead of returning an [Err]. *)
Theorem readers_raise_when_the_key_is_missing (c : BaseHardwareClient)
    (stage : string) (channel : Z) (h : Http.Bench) :
  is_connected c = true ->
  let asked_power :=
    Http.Sent (Http.mkRequest Http.GET
                 (if String.eqb stage "left" then "/io/power/1"
                  else "/io/power/2") None) in
  let asked_voltage :=
    Http.Sent (Http.mkRequest Http.GET
                 ("/io/analog_input/" +:+ pretty channel) None) in
  Http.log (Suruga.get_power c stage h).2 = Http.log h ++ [asked_power] /\
  Http.log (Suruga.get_analog_input c channel h).2
    = Http.log h ++ [asked_voltage] /\
  forall items,
    Http.replies h (Http.sent h) = Http.ReplyJson (Http.JDict items) ->
    (Suruga.get_power c stage h).1
      = match items !! "power" with
        | Some power => Returns (Ok power)
        | None => Raises "KeyError"
        end /\
    (Suruga.get_analog_input c channel h).1
      = match items !! "voltage" with
        | Some voltage => Returns (Ok voltage)
        | None => Raises "KeyError"
        end.
Proof.
  intros Hconn. cbv zeta.
  unfold Suruga.get_power, Suruga.get_analog_input, Http._get.
  rewrite Hconn. cbn [negb].
  unfold bind, Http.request, Http.getitem, ret, raise.
  cbn [Http.replies Http.sent].
  destruct (Http.replies h (Http.sent h)) as [body|code text|msg|msg];
    [|splits; [by destruct (String.eqb stage "left")|reflexivity
              |intros items [=]]..].
  destruct body as [ |b|n|x|s|items0|items0];
    try (splits; [by destruct (String.eqb stage "left")|reflexivity
                 |intros items [=]]).
  splits.
  - destruct (items0 !! "power"); by destruct (String.eqb stage "left").
  - by destruct (items0 !! "voltage").
  - intros items [= <-].
    by destruct (items0 !! "power"), (items0 !! "voltage").
Qed.

Lemma readers_raise_when_the_key_is_missing_witness :
  let c := connected_client in
  let h := steady_bench (Http.ReplyJson (Http.JDict ∅)) in
  is_connected c = true /\
  Http.log (Suruga.get_power c "right" h).2
    = Http.log h ++ [Http.Sent (Http.mkRequest Http.GET "/io/power/2" None)] /\
  Http.log (Suruga.get_analog_input c 3 h).2
    = Http.log h ++ [Http.Sent (Http.mkRequest Http.GET
                                  ("/io/analog_input/" +:+ pretty 3) None)] /\
  forall items,
    Http.replies h (Http.sent h) = Http.ReplyJson (Http.JDict items) ->
    (Suruga.get_power c "right" h).1
      = match items !! "power" with
        | Some power => Returns (Ok power)
        | None => Raises "KeyError"
        end /\
    (Suruga.get_analog_input c 3 h).1
      = match items !! "voltage" with
        | Some voltage => Returns (Ok voltage)
        | None => Raises "KeyError"
        end.
Proof.
  split; [reflexivity|].
  apply (readers_raise_when_the_key_is_missing connected_client "right" 3
           (steady_bench (Http.ReplyJson (Http.JDict ∅)))).
  reflexivity.
Defined.

(** *** Broadcasting to the WebSocket clients *)

Section Broadcast.
Context {Msg : Type}.
Implicit Types (hub : WebSockets.Hub Msg) (l : list nat).

Local Abbreviation alive hub := (fun ws : nat => WebSockets.broken hub ws = false).
Local Abbreviation dead hub := (fun ws : nat => WebSockets.broken hub ws = true).

Lemma send_to_all_spec (message : Msg) l :
  forall disconnected hub,
    WebSockets.send_to_all message l disconnected hub =
      (Returns (disconnected ++ filter (dead hub) l),
       WebSockets.mkHub (WebSockets.connections hub) (WebSockets.refused hub)
         (WebSockets.broken hub)
         (WebSockets.received hub
          ++ ((fun ws => (ws, message)) <$> filter (alive hub) l))).
Proof.
  induction l as [|ws l IH]; intros disconnected hub.
  - cbn. rewrite !app_nil_r. by destruct hub.
  - cbn [WebSockets.send_to_all]. unfold bind, WebSockets.send_json.
    destruct (WebSockets.broken hub ws) eqn:Hb.
    + rewrite IH. rewrite filter_cons_True by done.
      rewrite (filter_cons_False (alive hub)) by congruence.
      by rewrite <- app_assoc.
    + rewrite IH. cbn [WebSockets.connections WebSockets.refused
                       WebSockets.broken WebSockets.received].
      rewrite (filter_cons_False (dead hub)) by congruence.
      rewrite (filter_cons_True (alive hub)) by done.
      rewrite fmap_cons, <- app_assoc. reflexivity.
Qed.

Lemma remove_absent_prefix (x : nat) l1 l2 :
  x ∉ l1 -> WebSockets.remove x (l1 ++ x :: l2) = l1 ++ l2.
Proof.
  induction l1 as [|y l1 IH]; intros Hx; cbn.
  - by rewrite bool_decide_eq_true_2.
  - rewrite bool_decide_eq_false_2 by (intros ->; apply Hx; by left).
    f_equal. apply IH. intros Hin. apply Hx. by right.
Qed.

Lemma disconnect_all hub l :
  forall kept,
    Forall (alive hub) kept ->
    WebSockets.connections
      (fold_left (fun h c => WebSockets.disconnect c h) (filter (dead hub) l)
         (WebSockets.set_connections (kept ++ l) hub))
    = kept ++ filter (alive hub) l /\
    fold_left (fun h c => WebSockets.disconnect c h) (filter (dead hub) l)
         (WebSockets.set_connections (kept ++ l) hub)
    = WebSockets.set_connections
        (WebSockets.connections
           (fold_left (fun h c => WebSockets.disconnect c h)
              (filter (dead hub) l)
              (WebSockets.set_connections (kept ++ l) hub))) hub.
Proof.
  induction l as [|ws l IH]; intros kept Hkept.
  - cbn. by rewrite !app_nil_r.
  - destruct (WebSockets.broken hub ws) eqn:Hb.
    + rewrite filter_cons_True by done.
      rewrite (filter_cons_False (alive hub)) by congruence.
      cbn [fold_left]. unfold WebSockets.disconnect at 2 4 6.
      cbn [WebSockets.connections WebSockets.set_connections].
      rewrite bool_decide_eq_true_2 by (apply elem_of_app; right; left).
      rewrite remove_absent_prefix.
      2:{ intros Hin. rewrite Forall_forall in Hkept.
          specialize (Hkept ws Hin). simpl in Hkept. congruence. }
      unfold WebSockets.set_connections at 2 4 6.
      cbn [WebSockets.connections WebSockets.refused WebSockets.broken
           WebSockets.received].
      exact (IH kept Hkept).
    + rewrite (filter_cons_False (dead hub)) by congruence.
      rewrite (filter_cons_True (alive hub)) by done.
      replace (kept ++ ws :: l) with ((kept ++ [ws]) ++ l)
        by (by rewrite <- app_assoc).
      replace (kept ++ ws :: filter (alive hub) l)
        with ((kept ++ [ws]) ++ filter (alive hub) l)
        by (by rewrite <- app_assoc).
      apply IH. apply Forall_app. split; [done|]. by apply Forall_singleton.
Qed.

(** [broadcast(message)] never raises: the message reaches every connection
    whose send goes through, in the order of the list, a failing connection
    does not keep the message from the ones after it, and afterwards the list
    holds the connections that took the message, in their order, and none of
    those that failed. *)
Theorem broadcast_reaches_the_living_and_drops_the_rest (message : Msg) hub :
  exists hub',
    WebSockets.broadcast message hub = (Returns tt, hub') /\
    WebSockets.connections hub'
      = filter (alive hub) (WebSockets.connections hub) /\
    WebSockets.received hub'
      = WebSockets.received hub
        ++ ((fun ws => (ws, message)) <$>
              filter (alive hub) (WebSockets.connections hub)) /\
    WebSockets.broken hub' = WebSockets.broken hub /\
    WebSockets.refused hub' = WebSockets.refused hub.
Proof.
  unfold WebSockets.broadcast. rewrite send_to_all_spec. cbn [app].
  eexists. split; [reflexivity|].
  set (hub1 := WebSockets.mkHub _ _ _ _).
  change (WebSockets.broken hub) with (WebSockets.broken hub1).
  destruct (disconnect_all hub1 (WebSockets.connections hub) [] (Forall_nil_2 _))
    as [Hconn Hrest].
  cbn [app] in Hconn, Hrest.
  change (WebSockets.set_connections (WebSockets.connections hub) hub1)
    with hub1 in Hconn, Hrest.
  split; [exact Hconn|]. rewrite Hrest. by cbn.
Qed.

(** [disconnect] of a socket that is not in the list changes nothing.  For
    such a socket, [connect] appends it when [accept()] goes through, and a
    [disconnect] after it gives back the manager as it was; when [accept()]
    raises, [connect] raises and the list stays as it was. *)
Theorem connect_then_disconnect_gives_back_the_list (ws : nat) hub :
  ws ∉ WebSockets.connections hub ->
  WebSockets.disconnect ws hub = hub /\
  match WebSockets.refused hub ws with
  | Some exc => WebSockets.connect ws hub = (Raises exc, hub)
  | None =>
      exists hub1,
        WebSockets.connect ws hub = (Returns tt, hub1) /\
        WebSockets.connections hub1 = WebSockets.connections hub ++ [ws] /\
        WebSockets.disconnect ws hub1 = hub
  end.
Proof.
  intros Hnew. split.
  - unfold WebSockets.disconnect. by rewrite bool_decide_eq_false_2.
  - unfold WebSockets.connect. destruct (WebSockets.refused hub ws); [done|].
    eexists. split; [reflexivity|]. split; [reflexivity|].
    unfold WebSockets.disconnect.
    cbn [WebSockets.connections WebSockets.set_connections].
    rewrite bool_decide_eq_true_2 by (apply elem_of_app; right; left).
    rewrite remove_absent_prefix by done. rewrite app_nil_r.
    by destruct hub.
Qed.
End Broadcast.

Lemma connect_then_disconnect_gives_back_the_list_witness :
  let hub := WebSockets.mkHub [4; 7]%nat (fun _ => None) (fun _ => false)
               ([] : list (nat * string)) in
  (5%nat ∉ WebSockets.connections hub) /\
  WebSockets.disconnect 5%nat hub = hub /\
  match WebSockets.refused hub 5%nat with
  | Some exc => WebSockets.connect 5%nat hub = (Raises exc, hub)
  | None =>
      exists hub1,
        WebSockets.connect 5%nat hub = (Returns tt, hub1) /\
        WebSockets.connections hub1 = WebSockets.connections hub ++ [5%nat] /\
        WebSockets.disconnect 5%nat hub1 = hub
  end.
Proof.
  assert (H : 5%nat ∉ [4; 7]%nat)
    by (apply (bool_decide_unpack _); vm_compute; exact I).
  split; [exact H|].
  apply (connect_then_disconnect_gives_back_the_list 5%nat
           (WebSockets.mkHub [4; 7]%nat (fun _ => None) (fun _ => false)
              ([] : list (nat * string))) H).
Defined.

(** *** A paused run waits for [resume()] *)

Lemma deliver_all_no_resume batch c :
  Forall (fun sig => sig <> SigResume) batch ->
  _resume_event (deliver_all batch c) = _resume_event c.
Proof.
  revert c. induction batch as [|sig batch IH]; intros c Hb; [done|].
  apply Forall_cons in Hb as [Hsig Hb]. simpl. rewrite IH by done.
  by destruct sig.
Qed.

Lemma wait_resume_no_resume batches :
  forall c,
    _resume_event c = false ->
    Forall (Forall (fun sig => sig <> SigResume)) batches ->
    (wait_resume c batches).1.1 = false.
Proof.
  induction batches as [|batch rest IH]; intros c Hc Hb; [done|].
  apply Forall_cons in Hb as [Hbatch Hrest]. simpl.
  rewrite deliver_all_no_resume, Hc by done.
  apply IH; [|done]. by rewrite deliver_all_no_resume.
Qed.

Section Waiting.
Context (X : string -> Run -> Prop) (B : Run -> Prop).

Lemma yield_never_resumed ev r :
  never_resumed r -> never_resumed (yield_ ev r).2 /\
  events (yield_ ev r).2 = events r ++ [ev] /\ (yield_ ev r).1 = Returns tt.
Proof.
  intros [Hflag Hin]. unfold yield_, events, never_resumed.
  destruct (incoming r) as [|batch rest] eqn:Hinc;
    cbn [self incoming yielded fst snd].
  - rewrite map_app. by repeat split.
  - apply Forall_cons in Hin as [Hbatch Hrest].
    rewrite map_app. repeat split; try done.
    by rewrite deliver_all_no_resume.
Qed.

Lemma emit_calm make :
  (forall t, event_type (make t) <> measurement_paused) ->
  triple calm (emit make) (fun _ => calm) X B.
Proof.
  intros Hmake r [Hnr Hnp]. unfold emit, bind, in_world, now. cbn.
  match goal with |- context [yield_ ?ev ?r0] =>
    destruct (yield_never_resumed ev r0 Hnr) as (Hnr' & Hev & Hret);
    destruct (yield_ ev r0) as [o r'] eqn:Hy
  end.
  cbn in Hnr', Hev, Hret. subst o. split; [exact Hnr'|].
  unfold never_paused. rewrite Hev. apply Forall_app. split; [exact Hnp|].
  by apply Forall_singleton.
Qed.

Lemma emit_paused_waiting idx :
  triple calm (emit (fun t => MeasurementPaused t idx))
         (fun _ r => never_resumed r /\ paused_last (events r)) X B.
Proof.
  intros r [Hnr Hnp]. unfold emit, bind, in_world, now. cbn.
  match goal with |- context [yield_ ?ev ?r0] =>
    destruct (yield_never_resumed ev r0 Hnr) as (Hnr' & Hev & Hret);
    destruct (yield_ ev r0) as [o r'] eqn:Hy
  end.
  cbn in Hnr', Hev, Hret. subst o. split; [exact Hnr'|].
  rewrite Hev. by eexists _, _.
Qed.

Lemma await_resume_event_waits (Q : unit -> Run -> Prop) :
  triple (fun r => never_resumed r /\ paused_last (events r))
         await_resume_event Q X (fun r => paused_last (events r)).
Proof.
  intros r [[Hflag Hin] Hlast]. unfold await_resume_event. rewrite Hflag.
  pose proof (wait_resume_no_resume (incoming r) (self r) Hflag Hin) as Hw.
  destruct (wait_resume (self r) (incoming r)) as [[released c] rest].
  cbn in Hw. by subst released.
Qed.

Lemma keeps_control_calm {A} (m : St Run A) :
  keeps_control m -> triple calm m (fun _ => calm) (fun _ => calm) B.
Proof.
  intros Hm r [[Hflag Hin] Hnp]. destruct (Hm r) as (Hb & Hf & Hi & Hy).
  assert (Hcalm : calm (m r).2).
  { unfold calm, never_resumed, events. by rewrite Hf, Hi, Hy. }
  destruct (m r) as [[a|exc|] r']; [exact Hcalm|exact Hcalm|done].
Qed.

Lemma get_self_keeps : keeps_control get_self.
Proof. by intros r. Qed.

Lemma update_self_keeps f :
  (forall c, _resume_event (f c) = _resume_event c) ->
  keeps_control (update_self f).
Proof. intros Hf r. unfold update_self. cbn. by rewrite Hf. Qed.

Lemma in_world_keeps {A} (m : M A) :
  (forall w, exists a w', m w = (Returns a, w')) ->
  keeps_control (in_world m).
Proof.
  intros Hm r. unfold in_world. by destruct (Hm (world r)) as (a & w' & ->).
Qed.

Lemma apply_transition_keeps event : keeps_control (apply_transition event).
Proof.
  intros r. unfold apply_transition.
  destruct (transition_returns (world r) (state (self r)) event)
    as (result & w' & ->).
  done.
Qed.

Lemma create_client_keeps url : keeps_control (create_client url).
Proof. by intros r. Qed.

Lemma client_aenter_keeps health l : keeps_control (client_aenter health l).
Proof. by intros r. Qed.

Lemma client_aexit_keeps e l : keeps_control (client_aexit e l).
Proof.
  intros r. unfold client_aexit. destruct (clients r !! l) as [c|]; [|done].
  unfold disconnect. destruct (_client c); [|done]. by destruct e.
Qed.

Lemma triple_absurd {A} (m : St Run A) Q X' B' :
  triple (fun _ => False) m Q X' B'.
Proof. by intros r []. Qed.
End Waiting.

Lemma keeps_calm {A} (m : St Run A) : keeps_control m -> stays_calm m.
Proof. apply keeps_control_calm. Qed.

Lemma emit_stays_calm make :
  (forall t, event_type (make t) <> measurement_paused) ->
  stays_calm (emit make).
Proof. apply emit_calm. Qed.

Lemma store_result_calm (result : Result MeasurementState) :
  stays_calm (match result with
              | Ok new_state => update_self (set_state new_state)
              | Err _ => ret tt
              end).
Proof.
  destruct result; [|by intros r Hr].
  apply keeps_calm. by apply update_self_keeps.
Qed.

Lemma process_device_calm device : stays_calm (_process_device device).
Proof.
  unfold _process_device.
  eapply triple_bind; [apply keeps_calm, get_self_keeps|]. intros c.
  eapply triple_bind; [by apply emit_stays_calm|]. intros [].
  eapply triple_bind; [apply keeps_calm, apply_transition_keeps|].
  intros [new_state|e].
  - eapply triple_bind; [by apply keeps_calm, update_self_keeps|]. intros [].
    eapply triple_bind; [by apply emit_stays_calm|]. intros [].
    eapply triple_bind; [apply keeps_calm, apply_transition_keeps|].
    intros result.
    eapply triple_bind; [apply store_result_calm|]. intros [].
    eapply triple_bind; [apply keeps_calm, apply_transition_keeps|].
    intros result'.
    eapply triple_bind; [apply store_result_calm|]. intros [].
    eapply triple_bind; [by apply emit_stays_calm|]. intros [].
    by apply keeps_calm, update_self_keeps.
  - eapply triple_bind; [by apply emit_stays_calm|]. intros [].
    by apply emit_stays_calm.
Qed.

Lemma process_devices_calm remaining :
  stays_calm (process_devices remaining).
Proof.
  induction remaining as [|device rest IH]; cbn [process_devices].
  - by intros r Hr.
  - eapply triple_bind; [apply keeps_calm, get_self_keeps|]. intros c.
    destruct (_cancel_event c).
    + eapply triple_bind; [by apply emit_stays_calm|]. intros [].
      by intros r Hr.
    + eapply triple_bind.
      { instantiate (1 := fun _ => calm).
        destruct (_pause_event c); [|by intros r Hr].
        eapply triple_bind; [apply emit_paused_waiting|]. intros [].
        eapply triple_bind.
        { apply (await_resume_event_waits _ (fun _ _ => False)). }
        intros []. apply triple_absurd. }
      intros []. eapply triple_bind; [apply process_device_calm|].
      intros []. exact IH.
Qed.

Lemma emit_completed_calm : stays_calm emit_completed.
Proof.
  unfold emit_completed.
  eapply triple_bind; [apply keeps_calm, get_self_keeps|]. intros c.
  eapply triple_bind.
  { instantiate (1 := fun _ => calm). by intros r Hr. }
  intros r0. eapply triple_bind.
  { apply keeps_calm, in_world_keeps, duration_seconds_returns. }
  intros duration. by apply emit_stays_calm.
Qed.

Lemma run_calm services :
  triple calm (run services) (fun _ => calm) (fun _ _ => False)
         (fun r => paused_last (events r)).
Proof.
  unfold run.
  eapply triple_try_except with (X' := fun _ => calm);
    [|intros exc; by apply (emit_calm (fun _ _ => False))].
  eapply triple_bind; [apply keeps_calm, get_self_keeps|]. intros c.
  eapply triple_bind; [by apply emit_stays_calm|]. intros [].
  eapply triple_bind; [apply keeps_calm, create_client_keeps|]. intros su.
  eapply triple_bind; [apply keeps_calm, client_aenter_keeps|]. intros [].
  eapply triple_finally_exit;
    [|intros; apply keeps_calm, client_aexit_keeps
     |intros; apply keeps_calm, client_aexit_keeps].
  eapply triple_bind; [apply keeps_calm, create_client_keeps|]. intros ex.
  eapply triple_bind; [apply keeps_calm, client_aenter_keeps|]. intros [].
  eapply triple_finally_exit;
    [|intros; apply keeps_calm, client_aexit_keeps
     |intros; apply keeps_calm, client_aexit_keeps].
  eapply triple_bind; [by apply keeps_calm, update_self_keeps|]. intros [].
  eapply triple_bind; [apply keeps_calm, apply_transition_keeps|].
  intros [new_state|e].
  - eapply triple_bind; [by apply keeps_calm, update_self_keeps|]. intros [].
    eapply triple_bind; [apply process_devices_calm|].
    intros [|]; [by intros r Hr|apply emit_completed_calm].
  - by apply emit_stays_calm.
Qed.

(** When [resume()] has not been called and is never called, a run that
    yields [measurement_paused] never ends, whatever else is called while it
    runs, [cancel()] included: such a run ends only if it never paused, and
    when it does not end its last event is the [measurement_paused] it waits
    after.  No exception leaves [run()]. *)
Theorem paused_run_waits_for_resume (services : Services) (w : World)
    (c : MeasurementController) (signals : list (list Signal)) :
  _resume_event c = false ->
  Forall (Forall (fun sig => sig <> SigResume)) signals ->
  match run services (start_run w c signals) with
  | (Returns _, r) => never_paused (events r)
  | (Blocks, r) => paused_last (events r)
  | (Raises _, _) => False
  end.
Proof.
  intros Hflag Hsignals.
  assert (Hstart : calm (start_run w c signals)).
  { split; [by split|]. by apply Forall_nil. }
  pose proof (run_calm services (start_run w c signals) Hstart) as Hrun.
  destruct (run services (start_run w c signals)) as [[[]|exc|] r];
    [by destruct Hrun|done|done].
Qed.

Lemma paused_run_waits_for_resume_witness :
  _resume_event sample_controller = false /\
  Forall (Forall (fun sig => sig <> SigResume)) [[SigPause]; [SigCancel]] /\
  match run healthy
          (start_run sample_store sample_controller [[SigPause]; [SigCancel]])
  with
  | (Returns _, r) => never_paused (events r)
  | (Blocks, r) => paused_last (events r)
  | (Raises _, _) => False
  end.
Proof.
  assert (H : Forall (Forall (fun sig => sig <> SigResume))
                     [[SigPause]; [SigCancel]]).
  { repeat constructor; discriminate. }
  split; [reflexivity|]. split; [exact H|].
  apply (paused_run_waits_for_resume healthy sample_store sample_controller
           [[SigPause]; [SigCancel]]); [reflexivity|exact H].
Defined.

(** A pause followed by a cancel: the run stays blocked after
    [measurement_paused]; the cancellation is not seen. *)
Example cancel_does_not_release_a_paused_run :
  let out := run healthy
               (start_run sample_store sample_controller
                          [[SigPause]; [SigCancel]]) in
  out.1 = Blocks /\
  map event_type (events out.2) = [measurement_started; measurement_paused] /\
  _cancel_event (self out.2) = true.
Proof. repeat split; vm_compute; reflexivity. Qed.

(** *** What a run reports at its end *)

Lemma successful_devices_unread w s :
  device_dict_at w (power_readings s) = ∅ -> successful_devices w s = 0.
Proof.
  intros H. unfold successful_devices, readings, readings_at.
  by rewrite H, fmap_empty, map_to_list_empty.
Qed.

Section Reports.

Let told (r : Run) : Prop := Forall reports_none (events r).
Let blank (r : Run) : Prop := unread r /\ told r.

Lemma unread_frame r r' :
  device_dicts (world r') = device_dicts (world r) ->
  state (self r') = state (self r) -> unread r -> unread r'.
Proof.
  unfold unread, device_dict_at. by intros -> ->.
Qed.

Lemma keeps_store_blank {A} (m : St Run A) :
  keeps_store m ->
  triple blank m (fun _ => blank) (fun _ => blank) blank.
Proof.
  intros Hm r [Hu Ht]. destruct (Hm r) as (Hd & Hs & Hy).
  assert (H : blank (m r).2).
  { split; [by eapply unread_frame|]. unfold told, events. by rewrite Hy. }
  by destruct (m r) as [[a|exc|] r'].
Qed.

Lemma keeps_store_told {A} (m : St Run A) :
  keeps_store m -> triple told m (fun _ => told) (fun _ => told) told.
Proof.
  intros Hm r Ht. destruct (Hm r) as (Hd & Hs & Hy).
  assert (H : told (m r).2) by (unfold told, events; by rewrite Hy).
  by destruct (m r) as [[a|exc|] r'].
Qed.

Lemma get_self_keeps_store : keeps_store get_self.
Proof. by intros r. Qed.

Lemma update_self_keeps_store f :
  (forall c, state (f c) = state c) -> keeps_store (update_self f).
Proof. intros Hf r. unfold update_self. cbn. by rewrite Hf. Qed.

Lemma create_client_keeps_store url : keeps_store (create_client url).
Proof. by intros r. Qed.

Lemma client_aenter_keeps_store health l :
  keeps_store (client_aenter health l).
Proof. by intros r. Qed.

Lemma client_aexit_keeps_store e l : keeps_store (client_aexit e l).
Proof.
  intros r. unfold client_aexit. destruct (clients r !! l) as [c|]; [|done].
  by destruct (disconnect e c).
Qed.

Lemma await_resume_event_keeps_store : keeps_store await_resume_event.
Proof.
  intros r. unfold await_resume_event.
  destruct (_resume_event (self r)); [done|].
  pose proof (wait_resume_state (incoming r) (self r)) as Hst.
  by destruct (wait_resume (self r) (incoming r)) as [[released c] rest].
Qed.

Lemma duration_seconds_keeps_store (s : MeasurementState) :
  keeps_store (in_world (duration_seconds s)).
Proof.
  intros r. unfold in_world, duration_seconds.
  destruct (started_at s); [|done].
  destruct (completed_at s) as [c|]; [destruct (float_truthy c)|]; done.
Qed.

(** A [yield]: the world and the state stay, one event is added. *)
Lemma emit_effect make r :
  exists t r',
    emit make r = (Returns tt, r') /\
    device_dicts (world r') = device_dicts (world r) /\
    state (self r') = state (self r) /\
    events r' = events r ++ [make t].
Proof.
  unfold emit, bind, in_world, now, yield_, events. cbn.
  destruct (incoming r); eexists _, _; (split; [reflexivity|]); cbn;
    rewrite ?deliver_all_state, map_app; done.
Qed.

Lemma emit_blank make :
  (forall t, reports_none (make t)) ->
  triple blank (emit make) (fun _ => blank) (fun _ => blank) blank.
Proof.
  intros Hmake r [Hu Ht].
  destruct (emit_effect make r) as (t & r' & -> & Hd & Hs & Hev).
  split; [by eapply unread_frame|]. unfold told. rewrite Hev.
  apply Forall_app. split; [done|]. by apply Forall_singleton.
Qed.

Lemma emit_told make :
  (forall t, reports_none (make t)) ->
  triple told (emit make) (fun _ => told) (fun _ => told) told.
Proof.
  intros Hmake r Ht.
  destruct (emit_effect make r) as (t & r' & -> & Hd & Hs & Hev).
  unfold told. rewrite Hev.
  apply Forall_app. split; [done|]. by apply Forall_singleton.
Qed.

(** The three events of [_process_device] leave the dict objects and the
    reference to the readings as they are. *)
Lemma device_event_keeps_readings (event : MeasurementEvent) s w result w' :
  match event with
  | StartDevice _ | UpdateOperation _ | CompleteDevice => True
  | _ => False
  end ->
  transition s event w = (Returns result, w') ->
  device_dicts w' = device_dicts w /\
  forall s', result = Ok s' -> power_readings s' = power_readings s.
Proof.
  intros Hev Hstep. destruct event; try done; unfold transition in Hstep;
    match type of Hstep with
    | context [if ?b then _ else _] => destruct b
    end;
    unfold bind, now, ret in Hstep; injection Hstep as <- <-;
    (split; [done|]); intros s' [= <-]; try done.
  by destruct (bool_decide (status s = CALIBRATING)).
Qed.

Lemma start_measurement_readings oid total s w result w' :
  transition s (StartMeasurement oid total) w = (Returns result, w') ->
  forall s', result = Ok s' -> device_dict_at w' (power_readings s') = ∅.
Proof.
  unfold transition. destruct (negb _); [by intros [= <- <-]|].
  unfold bind, new_device_dict, now, ret. intros [= <- <-] s' [= <-].
  cbn. unfold device_dict_at. cbn. by rewrite lookup_snoc.
Qed.

(** The state that an accepted event gives refers to an empty dict. *)
Let fits (result : Result MeasurementState) (r : Run) : Prop :=
  forall s', result = Ok s' ->
    device_dict_at (world r) (power_readings s') = ∅.

Lemma apply_device_event_blank event :
  match event with
  | StartDevice _ | UpdateOperation _ | CompleteDevice => True
  | _ => False
  end ->
  triple blank (apply_transition event)
         (fun result r => blank r /\ fits result r) (fun _ => blank) blank.
Proof.
  intros Hev r [Hu Ht]. unfold apply_transition.
  destruct (transition_returns (world r) (state (self r)) event)
    as (result & w' & Hstep).
  rewrite Hstep.
  destruct (device_event_keeps_readings event _ _ _ _ Hev Hstep) as [Hd Hpr].
  split; [split; [|exact Ht]|].
  - unfold unread, device_dict_at in *. cbn. by rewrite Hd.
  - intros s' Hres. unfold unread, device_dict_at in *. cbn.
    by rewrite Hd, (Hpr s' Hres).
Qed.

Lemma apply_start_measurement_told oid total :
  triple told (apply_transition (StartMeasurement oid total))
         (fun result r => told r /\ fits result r) (fun _ => told) told.
Proof.
  intros r Ht. unfold apply_transition.
  destruct (transition_returns (world r) (state (self r))
              (StartMeasurement oid total)) as (result & w' & Hstep).
  rewrite Hstep. split; [exact Ht|]. intros s' Hres. cbn.
  by eapply start_measurement_readings.
Qed.

Lemma set_state_blank new_state (result : Result MeasurementState) X' B' :
  result = Ok new_state ->
  triple (fun r => told r /\ fits result r)
         (update_self (set_state new_state))
         (fun _ => blank) X' B'.
Proof.
  intros Hres r [Ht Hfit]. unfold update_self. split; [|exact Ht].
  unfold unread. cbn. by apply Hfit.
Qed.

Lemma store_result_blank (result : Result MeasurementState) :
  triple (fun r => blank r /\ fits result r)
         (match result with
          | Ok new_state => update_self (set_state new_state)
          | Err _ => ret tt
          end) (fun _ => blank) (fun _ => blank) blank.
Proof.
  destruct result as [new_state|e].
  - intros r [[Hu Ht] Hfit]. by apply (set_state_blank new_state (Ok new_state)).
  - by intros r [Hb _].
Qed.

Lemma process_device_blank device :
  triple blank (_process_device device) (fun _ => blank) (fun _ => blank)
         blank.
Proof.
  unfold _process_device.
  eapply triple_bind; [apply keeps_store_blank, get_self_keeps_store|].
  intros c.
  eapply triple_bind; [by apply emit_blank|]. intros [].
  eapply triple_bind; [by apply apply_device_event_blank|].
  intros [new_state|e].
  - eapply triple_bind.
    { intros r [[Hu Ht] Hfit].
      by apply (set_state_blank new_state (Ok new_state)). }
    intros [].
    eapply triple_bind; [by apply emit_blank|]. intros [].
    eapply triple_bind; [by apply apply_device_event_blank|]. intros result.
    eapply triple_bind; [apply store_result_blank|]. intros [].
    eapply triple_bind; [by apply apply_device_event_blank|]. intros result'.
    eapply triple_bind; [apply store_result_blank|]. intros [].
    eapply triple_bind; [by apply emit_blank|]. intros [].
    by apply keeps_store_blank, update_self_keeps_store.
  - eapply triple_weaken
      with (P' := blank) (Q' := fun _ => blank) (X' := fun _ => blank)
           (B' := blank); [|by intros r [Hb _]|done..].
    eapply triple_bind; [by apply emit_blank|]. intros [].
    by apply emit_blank.
Qed.

Lemma process_devices_blank remaining :
  triple blank (process_devices remaining) (fun _ => blank) (fun _ => blank)
         blank.
Proof.
  induction remaining as [|device rest IH]; cbn [process_devices].
  - by intros r Hr.
  - eapply triple_bind; [apply keeps_store_blank, get_self_keeps_store|].
    intros c. destruct (_cancel_event c).
    + eapply triple_bind; [by apply emit_blank|]. intros []. by intros r Hr.
    + eapply triple_bind.
      { instantiate (1 := fun _ => blank).
        destruct (_pause_event c); [|by intros r Hr].
        eapply triple_bind; [by apply emit_blank|]. intros [].
        eapply triple_bind;
          [apply keeps_store_blank, await_resume_event_keeps_store|].
        intros [].
        eapply triple_bind;
          [by apply keeps_store_blank, update_self_keeps_store|].
        intros []. by apply emit_blank. }
      intros []. eapply triple_bind; [apply process_device_blank|].
      intros []. exact IH.
Qed.

Lemma emit_completed_blank :
  triple blank emit_completed (fun _ => told) (fun _ => told) told.
Proof.
  intros r [Hu Ht]. unfold emit_completed.
  unfold bind at 1. unfold get_self at 1. unfold bind at 1.
  rewrite (successful_devices_unread _ _ Hu).
  unfold bind at 1.
  destruct (duration_seconds_keeps_store (state (self r)) r) as (Hd & Hs & Hy).
  destruct (duration_seconds_returns (state (self r)) (world r))
    as (duration & w' & Hdur).
  unfold in_world in *. rewrite Hdur in *. cbn in Hd, Hs, Hy.
  match goal with |- context [emit ?make ?r0] =>
    destruct (emit_effect make r0) as (t & r' & -> & _ & _ & Hev)
  end.
  unfold told. rewrite Hev. apply Forall_app. split; [exact Ht|].
  apply Forall_singleton. cbn. split; [done|lia].
Qed.

Lemma run_told services :
  triple told (run services) (fun _ => told) (fun _ => told) told.
Proof.
  unfold run.
  eapply triple_try_except; [|intros exc; by apply emit_told].
  eapply triple_bind; [apply keeps_store_told, get_self_keeps_store|].
  intros c.
  eapply triple_bind; [by apply emit_told|]. intros [].
  eapply triple_bind; [apply keeps_store_told, create_client_keeps_store|].
  intros su.
  eapply triple_bind; [apply keeps_store_told, client_aenter_keeps_store|].
  intros [].
  eapply triple_finally_exit;
    [|intros; apply keeps_store_told, client_aexit_keeps_store
     |intros; apply keeps_store_told, client_aexit_keeps_store].
  eapply triple_bind; [apply keeps_store_told, create_client_keeps_store|].
  intros ex.
  eapply triple_bind; [apply keeps_store_told, client_aenter_keeps_store|].
  intros [].
  eapply triple_finally_exit;
    [|intros; apply keeps_store_told, client_aexit_keeps_store
     |intros; apply keeps_store_told, client_aexit_keeps_store].
  eapply triple_bind;
    [by apply keeps_store_told, update_self_keeps_store|]. intros [].
  eapply triple_bind; [apply apply_start_measurement_told|].
  intros [new_state|e].
  - eapply triple_bind;
      [by apply (set_state_blank new_state (Ok new_state))|].
    intros []. eapply triple_bind with (Q := fun _ => blank).
    { eapply triple_weaken
        with (Q' := fun _ => blank) (X' := fun _ => blank) (B' := blank);
        [apply process_devices_blank|done|done
        |by intros ? ? [_ H]|by intros ? [_ H]]. }
    intros [|]; [by intros r [_ H]|apply emit_completed_blank].
  - eapply triple_weaken
      with (P' := told) (Q' := fun _ => told) (X' := fun _ => told)
           (B' := told); [by apply emit_told|by intros r [H _]|done..].
Qed.
End Reports.

(** Whatever the configuration, the services and the control calls, every
    [measurement_completed] that [run()] yields reports no successful device
    and as many failed devices as devices in total: the run hands no
    [RecordPower] to its state machine, so [successful_devices] is 0 when the
    event is built. *)
Theorem completed_event_reports_no_success (services : Services) (w : World)
    (c : MeasurementController) (signals : list (list Signal)) :
  Forall reports_none (events (run services (start_run w c signals)).2).
Proof.
  pose proof (run_told services (start_run w c signals)) as Hrun.
  assert (Hstart : Forall reports_none (events (start_run w c signals)))
    by apply Forall_nil_2.
  specialize (Hrun Hstart).
  by destruct (run services (start_run w c signals)) as [[[]|exc|] r].
Qed.

(** The run of the three devices of the measurement endpoint, left alone:
    its last event counts three devices, none successful, three failed. *)
Example three_devices_completed_none_successful :
  exists timestamp duration,
    last (events (run healthy (start_run sample_store sample_controller [])).2)
    = Some (MeasurementCompleted timestamp 3 0 3 duration).
Proof. eexists _, _. vm_compute. reflexivity. Qed.

(** *** The control endpoints *)

Lemma resume_refused (sys : Manager.System) (c : MeasurementController) :
  Routes.current_controller sys = Some c ->
  status (state c) <> PAUSED ->
  Routes.resume_measurement sys
  = (Returns (Routes.HTTPException 400 "Measurement is not paused"), sys).
Proof.
  intros Hc Hst. unfold Routes.resume_measurement, bind,
    Routes.manager_get_state. rewrite Hc. unfold get_state.
  by rewrite bool_decide_eq_false_2.
Qed.

(** While a controller made by [MeasurementController(config)] runs, and
    after its run, the resume endpoint raises [HTTPException] 400
    "Measurement is not paused" and calls nothing, at every state that
    [get_state()] can give: the status that the endpoint asks for is never
    [PAUSED], since the run never hands [PauseMeasurement] to its state
    machine. *)
Theorem resume_endpoint_refuses_during_a_run (services : Services)
    (cfg : MeasurementConfig) (w : World) (signals : list (list Signal)) :
  exists c w0,
    Controller.init cfg w = (Returns c, w0) /\
    let r := (run services (start_run w0 c signals)).2 in
    forall sys c_now,
      Routes.current_controller sys = Some c_now ->
      state c_now ∈ snapshots r ->
      Routes.resume_measurement sys
      = (Returns (Routes.HTTPException 400 "Measurement is not paused"), sys).
Proof.
  destruct (init_returns cfg w) as (c & w0 & Hinit & Hidle & _).
  exists c, w0. split; [exact Hinit|]. cbv zeta.
  pose proof (run_live services (start_run w0 c signals)) as Hrun.
  assert (Hstart : on stays_live (start_run w0 c signals)).
  { unfold on, observed, stays_live. cbn. rewrite Hidle. by repeat split. }
  specialize (Hrun Hstart).
  assert (Hend : on stays_live (run services (start_run w0 c signals)).2).
  { by destruct (run services (start_run w0 c signals)) as [[[]|exc|] r]. }
  destruct Hend as (Hs & Hy & _). unfold observed in *. cbn in Hs, Hy.
  intros sys c_now Hc Hin. apply (resume_refused sys c_now Hc).
  assert (Hlive : live (status (state c_now)) = true).
  { unfold snapshots in Hin. apply elem_of_app in Hin as [Hin|Hin].
    - apply list_elem_of_fmap in Hin as ([ev s] & -> & Hin).
      rewrite Forall_forall in Hy. by apply (Hy _ Hin).
    - apply list_elem_of_singleton in Hin. by rewrite Hin. }
  intros Hp. rewrite Hp in Hlive. discriminate Hlive.
Qed.

(** A run that was paused through [pause()] and waits at its checkpoint:
    the resume endpoint refuses, and the run stays blocked. *)
Example paused_run_cannot_be_resumed_through_the_endpoint :
  let out := run healthy (start_run sample_store sample_controller [[SigPause]]) in
  out.1 = Blocks /\
  last (event_type <$> events out.2) = Some measurement_paused /\
  _pause_event (self out.2) = true /\
  (Routes.resume_measurement (serving (self out.2) (world out.2))).1
  = Returns (Routes.HTTPException 400 "Measurement is not paused") /\
  (Routes.pause_measurement (serving (self out.2) (world out.2))).1
  = Returns (Routes.Responds "Measurement pause requested").
Proof. repeat split; vm_compute; reflexivity. Qed.

Lemma mock_devices_are_three : Routes.mock_devices = three_devices.
Proof. vm_compute. reflexivity. Qed.

Lemma active_has_running (sys : Manager.System) :
  Manager.is_active sys = true -> Manager.running sys <> [].
Proof.
  unfold Manager.is_active, Manager.task_done, Manager.running.
  destruct (Manager.controller (Manager.manager sys)); [|done].
  destruct (Manager.task (Manager.manager sys)) as [t|]; [|done].
  destruct (Manager.tasks sys !! t) as [tk|] eqn:Ht; [|done].
  destruct (Manager.done tk) eqn:Hd; [done|]. intros _ Hnil.
  assert (Hin : tk ∈ filter (fun tk => Manager.done tk = false)
                            (Manager.tasks sys)).
  { apply list_elem_of_filter. split; [done|]. by eapply list_elem_of_lookup_2. }
  rewrite Hnil in Hin. by apply elem_of_nil in Hin.
Qed.

(** At every moment of the life of the process, the start endpoint raises
    [HTTPException] 409 "A measurement is already running" and changes
    nothing when a task is running; otherwise it starts a run and answers
    "Measurement started" with three devices: whatever the request, the new
    controller is idle, has the order of the request, and the three mock
    devices [Device_0], [Device_1], [Device_2]. *)
Theorem start_endpoint_starts_or_answers_409 (w : World)
    (history : list Manager.Action)
    (request : Routes.StartMeasurementRequest) :
  let sys := Manager.after w history in
  (Manager.running sys <> [] ->
   Routes.start_measurement request sys
   = (Returns (Routes.HTTPException 409 "A measurement is already running"),
      sys)) /\
  (Manager.running sys = [] ->
   exists sys' c,
     Routes.start_measurement request sys
     = (Returns (Routes.Responds
                   (Routes.mkStartMeasurementResponse "Measurement started"
                      (Routes.request_order_id request) 3)), sys') /\
     Manager.is_active sys' = true /\
     Routes.current_controller sys' = Some c /\
     order_id (config c) = Routes.request_order_id request /\
     devices (config c) = three_devices /\
     status (state c) = IDLE).
Proof.
  intros sys. pose proof (one_run_after w history) as Hinv. fold sys in Hinv.
  split.
  - intros Hrun.
    assert (Hact : Manager.is_active sys = true).
    { destruct (Manager.running sys) as [|tk rest] eqn:Hr; [done|].
      assert (Hin : tk ∈ Manager.running sys) by (rewrite Hr; left).
      unfold Manager.running in Hin.
      apply list_elem_of_filter in Hin as [Hd Hin].
      apply list_elem_of_lookup in Hin as [t Ht].
      by eapply one_run_active. }
    unfold Routes.start_measurement, try_except, bind.
    by rewrite (start_refused _ sys Hact).
  - intros Hnone.
    assert (Hact : Manager.is_active sys = false).
    { destruct (Manager.is_active sys) eqn:Hact; [|done].
      by apply active_has_running in Hact. }
    unfold Routes.start_measurement, try_except, bind.
    match goal with |- context [Manager.start ?cfg sys] =>
      destruct (start_accepted cfg sys Hact) as (c & w' & Hinit & ->);
      destruct (init_returns cfg (Manager.world sys))
        as (c' & w'' & Hinit' & Hidle & Hcfg)
    end.
    rewrite Hinit in Hinit'. injection Hinit' as <- <-.
    eexists _, c. split; [reflexivity|].
    split.
    { unfold Manager.is_active, Manager.task_done. cbn.
      by rewrite lookup_snoc. }
    split.
    { unfold Routes.current_controller. cbn. by rewrite lookup_snoc. }
    rewrite Hcfg. split; [reflexivity|].
    split; [exact mock_devices_are_three|exact Hidle].
Qed.

(** *** A run that is left alone *)

Section Undisturbed.
Context (X : string -> Run -> Prop) (B : Run -> Prop).

Lemma keeps_self_undisturbed {A} (m : St Run A) P seen k :
  keeps_self m ->
  triple (undisturbed P seen k) m (fun _ => undisturbed P seen k) X B.
Proof.
  intros Hm r Hr. destruct (Hm r) as (a & r' & -> & Hs & Hi & Hy).
  unfold undisturbed, steady, events in *. by rewrite Hs, Hi, Hy.
Qed.

Lemma emit_undisturbed make b P seen k :
  (forall t, brief (make t) = b) ->
  triple (undisturbed P seen k) (emit make)
         (fun _ => undisturbed P (seen ++ [b]) k) X B.
Proof.
  intros Hmake r ((Hev & Hin & Hc & Hp & Hk) & Hst).
  unfold emit, bind, in_world, now, yield_. cbn. rewrite Hin.
  unfold undisturbed, steady, events in *.
  cbn [yielded self incoming world clients applied].
  rewrite map_app, fmap_app, Hev. cbn. by rewrite Hmake.
Qed.

Lemma apply_transition_effect event r :
  exists result w',
    transition (state (self r)) event (world r) = (Returns result, w') /\
    apply_transition event r
    = (Returns result,
       mkRun w' (clients r) (self r) (incoming r) (yielded r)
             (applied r ++ [event])).
Proof.
  destruct (transition_returns (world r) (state (self r)) event)
    as (result & w' & Hstep).
  exists result, w'. split; [exact Hstep|].
  unfold apply_transition. by rewrite Hstep.
Qed.

(** The events of a device are accepted on the way. *)
Lemma start_device_accepted s dev w :
  status s = CALIBRATING \/ status s = RUNNING ->
  exists s' w',
    transition s (StartDevice dev) w = (Returns (Ok s'), w') /\
    status s' = RUNNING.
Proof.
  intros Hst. unfold transition.
  destruct s as [st oid cdi td cop pr csi lsa rsa er sa ca ts].
  cbn in Hst. destruct Hst as [-> | ->]; eexists _, _; by cbn.
Qed.

Lemma update_operation_accepted s op w :
  status s = RUNNING ->
  exists s' w',
    transition s (UpdateOperation op) w = (Returns (Ok s'), w') /\
    status s' = RUNNING.
Proof.
  intros Hst. unfold transition.
  destruct s as [st oid cdi td cop pr csi lsa rsa er sa ca ts].
  cbn in Hst. subst st. eexists _, _; by cbn.
Qed.

Lemma complete_device_accepted s w :
  status s = RUNNING ->
  exists s' w',
    transition s CompleteDevice w = (Returns (Ok s'), w') /\
    status s' = RUNNING.
Proof.
  intros Hst. unfold transition.
  destruct s as [st oid cdi td cop pr csi lsa rsa er sa ca ts].
  cbn in Hst. subst st. eexists _, _; by cbn.
Qed.

Lemma start_measurement_accepted s oid total w :
  status s = IDLE ->
  exists s' w',
    transition s (StartMeasurement oid total) w = (Returns (Ok s'), w') /\
    status s' = CALIBRATING.
Proof.
  intros Hst. unfold transition.
  destruct s as [st oid' cdi td cop pr csi lsa rsa er sa ca ts].
  cbn in Hst. subst st. eexists _, _; by cbn.
Qed.

(** Applying an event that is accepted from the status of the run. *)
Lemma apply_accepted event (P : MeasurementStatus -> Prop) st' seen k :
  (forall s w, P (status s) ->
     exists s' w', transition s event w = (Returns (Ok s'), w') /\
                   status s' = st') ->
  triple (undisturbed P seen k) (apply_transition event)
         (fun result r =>
            steady seen k r /\
            match result with
            | Ok s' => status s' = st'
            | Err _ => False
            end) X B.
Proof.
  intros Hev r [Hsteady HP].
  destruct (Hev (state (self r)) (world r) HP) as (s' & w' & Hstep & Hst).
  unfold apply_transition. rewrite Hstep. split; [|exact Hst].
  exact Hsteady.
Qed.

Lemma set_state_undisturbed new_state st' seen k :
  triple (fun r => steady seen k r /\ status new_state = st')
         (update_self (set_state new_state))
         (fun _ => undisturbed (eq st') seen k) X B.
Proof. intros r [Hsteady Hst]. unfold update_self. by split. Qed.

Lemma store_accepted (result : Result MeasurementState) st' seen k :
  triple (fun r => steady seen k r /\
                   match result with
                   | Ok s' => status s' = st'
                   | Err _ => False
                   end)
         (match result with
          | Ok new_state => update_self (set_state new_state)
          | Err _ => ret tt
          end)
         (fun _ => undisturbed (eq st') seen k) X B.
Proof.
  destruct result as [new_state|e]; [apply set_state_undisturbed|].
  by intros r [_ []].
Qed.

Lemma process_device_undisturbed device seen k :
  triple (undisturbed on_the_way seen k) (_process_device device)
         (fun _ => undisturbed (eq RUNNING) (seen ++ visit device) (k + 1))
         X B.
Proof.
  unfold _process_device.
  eapply triple_bind;
    [apply keeps_self_undisturbed; intros r; by eexists _, _|]. intros c.
  eapply triple_bind; [apply emit_undisturbed; intros t; unfold brief; by cbn|]. intros [].
  eapply triple_bind.
  { apply (apply_accepted _ on_the_way RUNNING).
    intros s w. apply start_device_accepted. }
  intros [new_state|e]; [|by intros r [_ []]].
  eapply triple_bind; [apply set_state_undisturbed|]. intros [].
  eapply triple_bind; [apply emit_undisturbed; intros t; unfold brief; by cbn|]. intros [].
  eapply triple_bind.
  { apply (apply_accepted _ (eq RUNNING) RUNNING).
    intros s w Hs. by apply update_operation_accepted. }
  intros result. eapply triple_bind; [apply store_accepted|]. intros [].
  eapply triple_bind.
  { apply (apply_accepted _ (eq RUNNING) RUNNING).
    intros s w Hs. by apply complete_device_accepted. }
  intros result'. eapply triple_bind; [apply store_accepted|]. intros [].
  eapply triple_bind; [apply emit_undisturbed; intros t; unfold brief; by cbn|]. intros [].
  intros r ((Hev & Hin & Hc & Hp & Hk) & Hst). unfold update_self.
  unfold undisturbed, steady, events in *. cbn.
  rewrite <- !app_assoc in Hev. cbn in Hev. by subst k.
Qed.

Lemma process_devices_undisturbed remaining :
  forall seen k,
    triple (undisturbed on_the_way seen k) (process_devices remaining)
           (fun exit r =>
              exit = Exhausted /\
              undisturbed on_the_way (seen ++ flat_map visit remaining)
                          (k + Z.of_nat (length remaining)) r) X B.
Proof.
  induction remaining as [|device rest IH]; intros seen k;
    cbn [process_devices flat_map length].
  - intros r Hr. cbn. split; [done|]. rewrite app_nil_r.
    by replace (k + Z.of_nat 0) with k by lia.
  - intros r Hr. unfold bind at 1. unfold get_self at 1.
    destruct Hr as [Hsteady Hst].
    pose proof Hsteady as (_ & _ & -> & -> & _).
    unfold bind at 1. unfold ret at 1.
    pose proof (triple_bind (_process_device device)
                  (fun _ => process_devices rest)) as Hbind.
    refine (Hbind _ _ _ _ _
              (process_device_undisturbed device seen k) _ r (conj Hsteady Hst)).
    intros []. eapply triple_weaken;
      [apply (IH (seen ++ visit device) (k + 1))| | |done|done].
    + intros r' [Hs' Hst']. split; [done|]. right. by symmetry.
    + intros exit r' [-> Hr']. split; [done|].
      rewrite <- app_assoc in Hr'.
      by replace (k + Z.of_nat (S (length rest)))
        with (k + 1 + Z.of_nat (length rest)) by lia.
Qed.

Lemma emit_completed_undisturbed P seen k :
  triple (undisturbed P seen k) emit_completed
         (fun _ => undisturbed P (seen ++ [(measurement_completed, None)]) k)
         X B.
Proof.
  unfold emit_completed.
  eapply triple_bind;
    [apply keeps_self_undisturbed; intros r; by eexists _, _|]. intros c.
  eapply triple_bind;
    [apply keeps_self_undisturbed; intros r; by eexists _, _|]. intros r0.
  eapply triple_bind.
  { apply keeps_self_undisturbed. intros r. unfold in_world.
    destruct (duration_seconds_returns (state c) (world r))
      as (a & w' & ->). by eexists _, _. }
  intros duration. apply emit_undisturbed. intros t. unfold brief. by cbn.
Qed.

Lemma create_client_keeps_self url : keeps_self (create_client url).
Proof. intros r. by eexists _, _. Qed.

Lemma client_aenter_keeps_self health l : keeps_self (client_aenter health l).
Proof. intros r. by eexists _, _. Qed.

Lemma client_aexit_keeps_self l : keeps_self (client_aexit None l).
Proof.
  intros r. unfold client_aexit. destruct (clients r !! l) as [c|].
  - unfold disconnect. destruct (_client c); by eexists _, _.
  - by eexists _, _.
Qed.

End Undisturbed.

Lemma run_undisturbed services :
  suruga_aclose_error services = None ->
  exfo_aclose_error services = None ->
  forall r0,
    undisturbed (eq IDLE) [] 0 r0 ->
    match run services r0 with
    | (Returns _, r) =>
        undisturbed on_the_way
          ((measurement_started, None)
             :: flat_map visit (devices (config (self r0)))
             ++ [(measurement_completed, None)])
          (Z.of_nat (length (devices (config (self r0))))) r
    | _ => False
    end.
Proof.
  intros Hsu Hex r0 Hr0. unfold run. rewrite Hsu, Hex.
  unfold try_except, bind at 1, get_self at 1.
  set (c := self r0).
  match goal with |- match (match ?body r0 with _ => _ end) with _ => _ end =>
    assert (Hbody : triple (undisturbed (eq IDLE) [] 0) body
              (fun _ => undisturbed on_the_way
                 ((measurement_started, None)
                    :: flat_map visit (devices (config c))
                    ++ [(measurement_completed, None)])
                 (Z.of_nat (length (devices (config c)))))
              (fun _ _ => False) (fun _ => False))
  end.
  { eapply triple_bind;
      [apply emit_undisturbed; intros t; unfold brief; by cbn|]. intros [].
    eapply triple_bind;
      [apply keeps_self_undisturbed, create_client_keeps_self|]. intros su.
    eapply triple_bind;
      [apply keeps_self_undisturbed, client_aenter_keeps_self|]. intros [].
    eapply triple_finally_exit with (X' := fun _ _ => False);
      [|intros; apply keeps_self_undisturbed, client_aexit_keeps_self
       |intros exc; by intros r []].
    eapply triple_bind;
      [apply keeps_self_undisturbed, create_client_keeps_self|]. intros ex.
    eapply triple_bind;
      [apply keeps_self_undisturbed, client_aenter_keeps_self|]. intros [].
    eapply triple_finally_exit with (X' := fun _ _ => False);
      [|intros; apply keeps_self_undisturbed, client_aexit_keeps_self
       |intros exc; by intros r []].
    eapply triple_bind.
    { instantiate (1 := fun _ => undisturbed (eq IDLE) [(measurement_started, None)] 0).
      intros r Hr. unfold update_self. exact Hr. }
    intros []. eapply triple_bind.
    { apply (apply_accepted _ _ _ (eq IDLE) CALIBRATING).
      intros s w Hs. by apply start_measurement_accepted. }
    intros [new_state|e]; [|by intros r [_ []]].
    eapply triple_bind; [apply set_state_undisturbed|]. intros [].
    eapply triple_bind.
    { eapply triple_weaken;
        [apply (process_devices_undisturbed (fun _ _ => False)
                  (fun _ => False) (devices (config c))
                  [(measurement_started, None)] 0)
        |intros r [Hs Hst]; split; [done|]; left; by symmetry
        |intros exit r H; exact H|done|done]. }
    intros [|]; [by intros r [[=] _]|].
    eapply triple_weaken
      with (P' := undisturbed on_the_way
                    ([(measurement_started, None)]
                       ++ flat_map visit (devices (config c)))
                    (0 + Z.of_nat (length (devices (config c)))))
           (Q' := fun _ => undisturbed on_the_way
                    (([(measurement_started, None)]
                       ++ flat_map visit (devices (config c)))
                       ++ [(measurement_completed, None)])
                    (0 + Z.of_nat (length (devices (config c)))))
           (X' := fun _ _ => False) (B' := fun _ => False);
      [apply emit_completed_undisturbed|by intros r [_ H]| |done|done].
    intros _ r H. by rewrite <- app_assoc in H. }
  specialize (Hbody r0 Hr0).
  match type of Hbody with
  | match ?t with _ => _ end => destruct t as [[[]|exc|] r]
  end; done.
Qed.

Lemma init_undisturbed cfg w :
  exists c w0,
    Controller.init cfg w = (Returns c, w0) /\ config c = cfg /\
    undisturbed (eq IDLE) [] 0 (start_run w0 c []).
Proof. eexists _, _. split; [reflexivity|]. by repeat split. Qed.

(** Left alone (no control call) and with connections that close without an
    exception, the run of a controller made by [MeasurementController(config)]
    ends, and it has yielded [measurement_started], then for each device of
    the configuration, in its order, [device_started], [device_moving] and
    [device_completed] with the index of the device, then
    [measurement_completed]: three events for each device and two more; its
    alignment counter is the number of devices. *)
Theorem undisturbed_run_visits_every_device (services : Services)
    (cfg : MeasurementConfig) (w : World) :
  suruga_aclose_error services = None ->
  exfo_aclose_error services = None ->
  exists c w0 r,
    Controller.init cfg w = (Returns c, w0) /\
    run services (start_run w0 c []) = (Returns tt, r) /\
    brief <$> events r
      = (measurement_started, None)
          :: flat_map visit (devices cfg) ++ [(measurement_completed, None)] /\
    alignment_counter (self r) = Z.of_nat (length (devices cfg)).
Proof.
  intros Hsu Hex.
  destruct (init_undisturbed cfg w) as (c & w0 & Hinit & Hcfg & Hstart).
  pose proof (run_undisturbed services Hsu Hex _ Hstart) as Hrun.
  cbn [self start_run] in Hrun. rewrite Hcfg in Hrun.
  destruct (run services (start_run w0 c [])) as [[[]|exc|] r] eqn:Hout;
    [|done|done].
  exists c, w0, r. split; [exact Hinit|]. split; [exact Hout|].
  destruct Hrun as ((Hev & _ & _ & _ & Hk) & Hst).
  split; [exact Hev|exact Hk].
Qed.

Lemma undisturbed_run_visits_every_device_witness :
  suruga_aclose_error healthy = None /\
  exfo_aclose_error healthy = None /\
  exists c w0 r,
    Controller.init sample_config blank_world = (Returns c, w0) /\
    run healthy (start_run w0 c []) = (Returns tt, r) /\
    brief <$> events r
      = (measurement_started, None)
          :: flat_map visit (devices sample_config)
          ++ [(measurement_completed, None)] /\
    alignment_counter (self r) = Z.of_nat (length (devices sample_config)).
Proof.
  split; [reflexivity|]. split; [reflexivity|].
  apply (undisturbed_run_visits_every_device healthy sample_config
           blank_world); reflexivity.
Defined.

(** *** A connection that fails to close *)















Section Closing.
Context (X : string -> Run -> Prop) (B : Run -> Prop).




End Closing.










(** *** A run cancelled at its start *)

Lemma deliver_all_keeps_cancel batch c :
  _cancel_event c = true -> _cancel_event (deliver_all batch c) = true.
Proof.
  revert c. induction batch as [|sig batch IH]; intros c Hc; [done|].
  simpl. apply IH. by destruct sig.
Qed.

Lemma deliver_all_cancels batch c :
  SigCancel ∈ batch -> _cancel_event (deliver_all batch c) = true.
Proof.
  revert c. induction batch as [|sig batch IH]; intros c Hin.
  - by apply elem_of_nil in Hin.
  - simpl. apply elem_of_cons in Hin as [<-|Hin].
    + by apply deliver_all_keeps_cancel.
    + by apply IH.
Qed.

Section Cancelling.
Context (X : string -> Run -> Prop) (B : Run -> Prop).

Lemma keeps_self_cancelling {A} (m : St Run A) P seen :
  keeps_self m ->
  triple (cancelling P seen) m (fun _ => cancelling P seen) X B.
Proof.
  intros Hm r Hr. destruct (Hm r) as (a & r' & -> & Hs & Hi & Hy).
  unfold cancelling, events in *. by rewrite Hs, Hy.
Qed.

Lemma emit_cancelling make b P seen :
  (forall t, brief (make t) = b) ->
  triple (cancelling P seen) (emit make)
         (fun _ => cancelling P (seen ++ [b])) X B.
Proof.
  intros Hmake r (Hev & Hc & Hst).
  unfold emit, bind, in_world, now, yield_. cbn.
  unfold cancelling, events in *.
  destruct (incoming r) as [|batch rest];
    cbn [yielded self incoming world clients applied];
    rewrite map_app, fmap_app, Hev; cbn; rewrite Hmake;
    rewrite ?deliver_all_state, ?deliver_all_keeps_cancel; done.
Qed.

(** The first [yield] of a run in which [cancel()] is called while the
    consumer has [measurement_started]. *)
Lemma emit_started_cancelled make b P batch rest :
  (forall t, brief (make t) = b) -> SigCancel ∈ batch ->
  triple (fun r => events r = [] /\ incoming r = batch :: rest /\
                   P (status (state (self r))))
         (emit make) (fun _ => cancelling P [b]) X B.
Proof.
  intros Hmake Hcancel r (Hev & Hin & HP).
  unfold emit, bind, in_world, now, yield_. cbn. rewrite Hin.
  unfold cancelling, events in *. cbn [yielded self].
  rewrite map_app, fmap_app, Hev. cbn. rewrite Hmake, deliver_all_state.
  split; [done|]. split; [by apply deliver_all_cancels|done].
Qed.

Lemma apply_accepted_cancelling event (P : MeasurementStatus -> Prop) st' seen :
  (forall s w, P (status s) ->
     exists s' w', transition s event w = (Returns (Ok s'), w') /\
                   status s' = st') ->
  triple (cancelling P seen) (apply_transition event)
         (fun result r =>
            cancelling (fun _ => True) seen r /\
            match result with
            | Ok s' => status s' = st'
            | Err _ => False
            end) X B.
Proof.
  intros Hev r (Hseen & Hc & HP).
  destruct (Hev (state (self r)) (world r) HP) as (s' & w' & Hstep & Hst).
  unfold apply_transition. rewrite Hstep. by split.
Qed.

Lemma set_state_cancelling new_state st' seen :
  triple (fun r => cancelling (fun _ => True) seen r /\ status new_state = st')
         (update_self (set_state new_state))
         (fun _ => cancelling (eq st') seen) X B.
Proof. intros r [(Hseen & Hc & _) Hst]. unfold update_self. by split. Qed.

Lemma process_devices_cancelling remaining P seen :
  triple (cancelling P seen) (process_devices remaining)
         (fun exit r =>
            match remaining with
            | [] => exit = Exhausted /\ cancelling P seen r
            | device :: _ =>
                exit = Returned /\
                cancelling P
                  (seen ++ [(measurement_cancelled, Some (index device))]) r
            end) X B.
Proof.
  destruct remaining as [|device rest]; cbn [process_devices].
  - by intros r Hr.
  - intros r Hr. unfold bind at 1. unfold get_self at 1.
    pose proof Hr as (_ & -> & _).
    pose proof (emit_cancelling
                  (fun t => MeasurementCancelled t (index device))
                  (measurement_cancelled, Some (index device)) P seen
                  (fun t => eq_refl) r Hr) as Hemit.
    unfold bind.
    destruct (emit (fun t => MeasurementCancelled t (index device)) r)
      as [[[]|exc|] r']; [|done..].
    by split.
Qed.

Lemma emit_completed_cancelling P seen :
  triple (cancelling P seen) emit_completed
         (fun _ => cancelling P (seen ++ [(measurement_completed, None)]))
         X B.
Proof.
  unfold emit_completed.
  eapply triple_bind;
    [apply keeps_self_cancelling; intros r; by eexists _, _|]. intros c.
  eapply triple_bind;
    [apply keeps_self_cancelling; intros r; by eexists _, _|]. intros r0.
  eapply triple_bind.
  { apply keeps_self_cancelling. intros r. unfold in_world.
    destruct (duration_seconds_returns (state c) (world r))
      as (a & w' & ->). by eexists _, _. }
  intros duration. apply emit_cancelling. intros t. unfold brief. by cbn.
Qed.
End Cancelling.

Lemma run_cancelling services batch rest :
  suruga_aclose_error services = None ->
  exfo_aclose_error services = None ->
  SigCancel ∈ batch ->
  forall r0,
    events r0 = [] -> incoming r0 = batch :: rest ->
    status (state (self r0)) = IDLE ->
    match run services r0 with
    | (Returns _, r) =>
        cancelling (eq CALIBRATING)
                   (cancelled_at_start (devices (config (self r0)))) r
    | _ => False
    end.
Proof.
  intros Hsu Hex Hcancel r0 Hev Hin Hidle. unfold run. rewrite Hsu, Hex.
  unfold try_except, bind at 1, get_self at 1.
  set (c := self r0).
  match goal with |- match (match ?body r0 with _ => _ end) with _ => _ end =>
    assert (Hbody : triple
              (fun r => events r = [] /\ incoming r = batch :: rest /\
                        IDLE = status (state (self r))) body
              (fun _ => cancelling (eq CALIBRATING)
                          (cancelled_at_start (devices (config c))))
              (fun _ _ => False) (fun _ => False))
  end.
  { eapply triple_bind.
    { apply (emit_started_cancelled _ _ _ (measurement_started, None)
               (eq IDLE) batch rest); [intros t; unfold brief; by cbn|done]. }
    intros [].
    eapply triple_bind;
      [apply keeps_self_cancelling, create_client_keeps_self|]. intros su.
    eapply triple_bind;
      [apply keeps_self_cancelling, client_aenter_keeps_self|]. intros [].
    eapply triple_finally_exit with (X' := fun _ _ => False);
      [|intros; apply keeps_self_cancelling, client_aexit_keeps_self
       |intros exc; by intros r []].
    eapply triple_bind;
      [apply keeps_self_cancelling, create_client_keeps_self|]. intros ex.
    eapply triple_bind;
      [apply keeps_self_cancelling, client_aenter_keeps_self|]. intros [].
    eapply triple_finally_exit with (X' := fun _ _ => False);
      [|intros; apply keeps_self_cancelling, client_aexit_keeps_self
       |intros exc; by intros r []].
    eapply triple_bind.
    { instantiate (1 := fun _ => cancelling (eq IDLE)
                                   [(measurement_started, None)]).
      intros r Hr. unfold update_self. exact Hr. }
    intros []. eapply triple_bind.
    { apply (apply_accepted_cancelling _ _ _ (eq IDLE) CALIBRATING).
      intros s w Hs. by apply start_measurement_accepted. }
    intros [new_state|e]; [|by intros r [_ []]].
    eapply triple_bind; [apply set_state_cancelling|]. intros [].
    eapply triple_bind;
      [apply (process_devices_cancelling (fun _ _ => False) (fun _ => False))|].
    unfold cancelled_at_start.
    destruct (devices (config c)) as [|device others]; intros [|].
    - by intros r [[=] _].
    - eapply triple_weaken
        with (P' := cancelling (eq CALIBRATING) [(measurement_started, None)])
             (Q' := fun _ => cancelling (eq CALIBRATING)
                      ([(measurement_started, None)]
                         ++ [(measurement_completed, None)]))
             (X' := fun _ _ => False) (B' := fun _ => False);
        [apply emit_completed_cancelling|by intros r [_ H]|done..].
    - by intros r [_ H].
    - by intros r [[=] _]. }
  specialize (Hbody r0 (conj Hev (conj Hin (eq_sym Hidle)))).
  match type of Hbody with
  | match ?t with _ => _ end => destruct t as [[[]|exc|] r]
  end; done.
Qed.

(** When [cancel()] is called while the consumer has the first event of
    the run of a new controller, whatever else is called then and later, and
    the connections close without an exception, the run ends after
    [measurement_started] and [measurement_cancelled] with the index of the
    first device: no device is started, and a pause requested at the same
    time is not looked at.  With no device in the configuration the
    cancellation is never looked at: the run yields [measurement_started] and
    [measurement_completed].  In both cases the status of the state stays
    [CALIBRATING]. *)
Theorem run_cancelled_at_its_start (services : Services)
    (cfg : MeasurementConfig) (w : World) (batch : list Signal)
    (rest : list (list Signal)) :
  suruga_aclose_error services = None ->
  exfo_aclose_error services = None ->
  SigCancel ∈ batch ->
  exists c w0 r,
    Controller.init cfg w = (Returns c, w0) /\
    run services (start_run w0 c (batch :: rest)) = (Returns tt, r) /\
    brief <$> events r = cancelled_at_start (devices cfg) /\
    status (state (self r)) = CALIBRATING.
Proof.
  intros Hsu Hex Hcancel.
  destruct (init_returns cfg w) as (c & w0 & Hinit & Hidle & Hcfg).
  pose proof (run_cancelling services batch rest Hsu Hex Hcancel
                (start_run w0 c (batch :: rest)) eq_refl eq_refl Hidle) as Hrun.
  cbn [self start_run] in Hrun. rewrite Hcfg in Hrun.
  destruct (run services (start_run w0 c (batch :: rest)))
    as [[[]|exc|] r] eqn:Hout; [|done|done].
  exists c, w0, r. split; [exact Hinit|]. split; [exact Hout|].
  destruct Hrun as (Hev & _ & Hst). by split.
Qed.

Lemma run_cancelled_at_its_start_witness :
  suruga_aclose_error healthy = None /\
  exfo_aclose_error healthy = None /\
  SigCancel ∈ [SigPause; SigCancel] /\
  exists c w0 r,
    Controller.init sample_config blank_world = (Returns c, w0) /\
    run healthy (start_run w0 c ([SigPause; SigCancel] :: [])) = (Returns tt, r) /\
    brief <$> events r = cancelled_at_start (devices sample_config) /\
    status (state (self r)) = CALIBRATING.
Proof.
  assert (H : SigCancel ∈ [SigPause; SigCancel]) by (right; left).
  split; [reflexivity|]. split; [reflexivity|]. split; [exact H|].
  apply (run_cancelled_at_its_start healthy sample_config blank_world
           [SigPause; SigCancel] []); [reflexivity|reflexivity|exact H].
Defined.
